(** * AppLayout: the client-side orchestrator of the ticketing front end

    A shallow embedding of [src/frontend/src/components/layout/AppLayout.tsx]:
    the link extractor, the numeric conversions of the create-event and
    withdraw builders, the five action handlers and the three deep-link
    effects, followed by the properties the specification states about them
    and by further properties read off the code.

    Conventions of the embedding.
    - A JavaScript string is a [string]: the sequence of its UTF-8 bytes.
      White space is the WhiteSpace and LineTerminator of ECMAScript, each
      character in its UTF-8 encoding.
    - A JavaScript number is a binary64 value, [spec_float] with precision 53
      and maximal exponent 1024, computed with the Standard Library's
      reference operations.
    - Everything the component imports from the platform or from other
      modules (URL parser, address derivation, big-number constructor,
      constants) is a field of the record [Platform]; everything it awaits
      (wallet, RPC, account fetch, refresh) is answered by a [World].
    - A handler is a computation in the monad [M]: it threads the React state
      of the component and the log of the external calls it performs, and
      ends normally, by an early [return], or by a thrown error. *)

From Stdlib Require Import ZArith NArith PArith Bool List Lia.
From Stdlib Require Import Strings.Ascii Strings.String.
From Stdlib Require Import Floats.SpecFloat.
From Stdlib Require Import Numbers.DecimalString.
Import ListNotations.

Local Open Scope string_scope.
Local Open Scope Z_scope.

(* ================================================================== *)
(** * JavaScript strings *)
(* ================================================================== *)

Module JsString.

Definition is_empty (s : string) : bool :=
  match s with EmptyString => true | String _ _ => false end.

(** [s.startsWith(p)] *)
Fixpoint startsWith (s p : string) {struct p} : bool :=
  match p with
  | EmptyString => true
  | String a p' =>
      match s with
      | EmptyString => false
      | String c s' => Ascii.eqb c a && startsWith s' p'
      end
  end.

(** The UTF-8 encoding of a code point. *)
Definition utf8_encode (cp : N) : string :=
  let byte (n : N) := ascii_of_N n in
  let cont (n : N) := byte (128 + n mod 64)%N in
  if (cp <? 128)%N then String (byte cp) EmptyString
  else if (cp <? 2048)%N then
    String (byte (192 + cp / 64)%N) (String (cont cp) EmptyString)
  else if (cp <? 65536)%N then
    String (byte (224 + cp / 4096)%N)
      (String (cont (cp / 64)%N) (String (cont cp) EmptyString))
  else
    String (byte (240 + cp / 262144)%N)
      (String (cont (cp / 4096)%N)
         (String (cont (cp / 64)%N) (String (cont cp) EmptyString))).

(** The code points [String.prototype.trim], the regular-expression class
    [\s] and [parseFloat] take for white space: the WhiteSpace and
    LineTerminator productions of ECMAScript, that is TAB, LF, VT, FF,
    CR, SP, NBSP, the other space separators of Unicode, LS, PS and
    ZWNBSP. *)
Definition white_space_code_points : list N :=
  [ 9; 10; 11; 12; 13; 32; 160; 5760;
    8192; 8193; 8194; 8195; 8196; 8197; 8198; 8199; 8200; 8201; 8202;
    8232; 8233; 8239; 8287; 12288; 65279 ]%N.

(** The white-space characters, as they appear in a text. *)
Definition white_space : list string := map utf8_encode white_space_code_points.

Fixpoint match_length (candidates : list string) (s : string) : nat :=
  match candidates with
  | [] => O
  | w :: rest =>
      if startsWith s w then String.length w else match_length rest s
  end.

(** The number of bytes of the white-space character [s] starts with,
    0 when it starts with none. *)
Definition white_space_length (s : string) : nat := match_length white_space s.

(** Whether [c] is the first byte of a white-space character. *)
Definition starts_white_space (c : ascii) : bool :=
  existsb (fun w => startsWith w (String c EmptyString)) white_space.

(** Skips [skip] bytes, then every white-space character that follows. *)
Fixpoint skip_white_space (skip : nat) (s : string) : string :=
  match s with
  | EmptyString => EmptyString
  | String _ r =>
      match skip with
      | S k => skip_white_space k r
      | O =>
          match white_space_length s with
          | O => s
          | S k => skip_white_space k r
          end
      end
  end.

(** [s.trimStart()] *)
Definition trimStart (s : string) : string := skip_white_space 0 s.

(** Whether [s] holds white space only. *)
Definition is_blank (s : string) : bool := is_empty (trimStart s).

(** [s.trimEnd()]: cuts [s] where its white-space tail begins. *)
Fixpoint trimEnd (s : string) : string :=
  match s with
  | EmptyString => EmptyString
  | String c s' => if is_blank s then EmptyString else String c (trimEnd s')
  end.

(** [s.trim()] *)
Definition trim (s : string) : string := trimEnd (trimStart s).

(** [s.replace(/\s+/g, '')]: the text without its white space. *)
Fixpoint remove_white_space (skip : nat) (s : string) : string :=
  match s with
  | EmptyString => EmptyString
  | String c r =>
      match skip with
      | S k => remove_white_space k r
      | O =>
          match white_space_length s with
          | O => String c (remove_white_space 0 r)
          | S k => remove_white_space k r
          end
      end
  end.

(** [s.indexOf(p)]: the first position where [p] occurs, or [-1]. *)
Fixpoint indexOf (s p : string) : Z :=
  if startsWith s p then 0
  else match s with
       | EmptyString => -1
       | String _ s' =>
           let i := indexOf s' p in
           if i <? 0 then -1 else i + 1
       end.

(** [s.includes(p)] *)
Definition includes (s p : string) : bool := 0 <=? indexOf s p.

Fixpoint drop (n : nat) (s : string) : string :=
  match n, s with
  | O, _ => s
  | S n', String _ s' => drop n' s'
  | S _, EmptyString => EmptyString
  end.

(** [s.slice(start)]: a negative [start] counts from the end. *)
Definition slice (s : string) (start : Z) : string :=
  let len := Z.of_nat (String.length s) in
  let from := if start <? 0 then Z.max (len + start) 0 else Z.min start len in
  drop (Z.to_nat from) s.

(** [s.split(re)[0]] for a class [re] of single characters, given by the
    number of bytes of the character of the class a text starts with: the
    part of [s] before the first character of the class; all of [s] when
    there is none. *)
Fixpoint split_first (sep : string -> nat) (s : string) : string :=
  match s with
  | EmptyString => EmptyString
  | String c s' =>
      match sep s with
      | O => String c (split_first sep s')
      | S _ => EmptyString
      end
  end.

(** [s.replace(a, b)] with a one-character pattern: only the first
    occurrence is replaced. *)
Fixpoint replace_first (a b : ascii) (s : string) : string :=
  match s with
  | EmptyString => EmptyString
  | String c s' =>
      if Ascii.eqb c a then String b s' else String c (replace_first a b s')
  end.

Fixpoint forallb (p : ascii -> bool) (s : string) : bool :=
  match s with
  | EmptyString => true
  | String c s' => p c && forallb p s'
  end.

End JsString.
Import JsString.

(* ================================================================== *)
(** * Public keys *)
(* ================================================================== *)

(** [new PublicKey(text)] of web3.js decodes base58 and insists on exactly
    32 bytes; any other input throws.  A key is kept as the number its 32
    bytes spell (big-endian), which is what [equals] compares. *)
Module Base58.

Definition alphabet : string :=
  "123456789ABCDEFGHJKLMNPQRSTUVWXYZabcdefghijkmnopqrstuvwxyz".

Fixpoint index_in (c : ascii) (s : string) : option N :=
  match s with
  | EmptyString => None
  | String d s' =>
      if Ascii.eqb c d then Some 0%N
      else option_map N.succ (index_in c s')
  end.

Definition digit (c : ascii) : option N := index_in c alphabet.

Definition is_digit (c : ascii) : bool :=
  match digit c with Some _ => true | None => false end.

(** The number spelled by the digits, most significant first. *)
Fixpoint value (acc : N) (s : string) : option N :=
  match s with
  | EmptyString => Some acc
  | String c s' =>
      match digit c with
      | Some d => value (acc * 58 + d)%N s'
      | None => None
      end
  end.

(** Leading '1' characters stand for leading zero bytes. *)
Fixpoint leading_ones (s : string) : nat :=
  match s with
  | String "1"%char s' => S (leading_ones s')
  | _ => O
  end.

(** Number of bytes needed for [n]; zero needs none. *)
Definition byte_length (n : N) : nat :=
  match n with
  | N0 => O
  | Npos p => Z.to_nat ((Z.log2 (Zpos p)) / 8 + 1)
  end.

(** Length of the decoded byte string and its big-endian value. *)
Definition decode (s : string) : option (nat * N) :=
  match value 0%N s with
  | Some n => Some ((leading_ones s + byte_length n)%nat, n)
  | None => None
  end.

End Base58.

Definition PublicKey : Type := N.

Definition PUBLIC_KEY_LENGTH : nat := 32.

(** [new PublicKey(text)]; [None] when the constructor throws. *)
Definition PublicKey_new (text : string) : option PublicKey :=
  match Base58.decode text with
  | Some (len, n) => if Nat.eqb len PUBLIC_KEY_LENGTH then Some n else None
  | None => None
  end.

(** [a.equals(b)] *)
Definition PublicKey_equals (a b : PublicKey) : bool := N.eqb a b.

Definition bytes : Type := list Byte.byte.

Definition byte_of_N (n : N) : Byte.byte :=
  match Byte.of_N (n mod 256) with
  | Some b => b
  | None => Byte.x00
  end.

Fixpoint be_bytes (len : nat) (n : N) : bytes :=
  match len with
  | O => []
  | S len' => (be_bytes len' (n / 256)%N ++ [byte_of_N n])%list
  end.

(** [k.toBytes()]: the 32 bytes of the key, most significant first. *)
Definition PublicKey_toBytes (k : PublicKey) : bytes :=
  be_bytes PUBLIC_KEY_LENGTH k.

(* ================================================================== *)
(** * JavaScript numbers *)
(* ================================================================== *)

Module JsNumber.

(** A Number is a binary64 value. *)
Definition number : Type := spec_float.

Definition prec : Z := 53.
Definition emax : Z := 1024.

Definition NaN : number := S754_nan.

(** The Number nearest to an integer (ties to even). *)
Definition of_Z (z : Z) : number := binary_normalize prec emax z 0 false.

(** The Numbers 0 and 1. *)
Definition zero : number := S754_zero false.
Definition one : number := S754_finite false 4503599627370496 (-52).

(** [x * y] *)
Definition mul (x y : number) : number := SFmul prec emax x y.

(** [x < y] *)
Definition ltb (x y : number) : bool := SFltb x y.

(** [Number.isNaN(x)] *)
Definition Number_isNaN (x : number) : bool :=
  match x with S754_nan => true | _ => false end.

(** A finite Number [(-1)^s * m * 2^e] with [e < 0] is the fraction
    [num / den] below; it is integral when [den] divides [num]. *)
Definition den (e : Z) : Z := 2 ^ (- e).
Definition num (s : bool) (m : positive) : Z := cond_Zopp s (Zpos m).

Definition is_integral (x : number) : bool :=
  match x with
  | S754_finite s m e => (0 <=? e) || (Zpos m mod den e =? 0)
  | S754_zero _ => true
  | _ => false
  end.

(** Greatest integer below a non-integral [num / den]. *)
Definition floorZ (s : bool) (m : positive) (e : Z) : Z :=
  num s m / den e.

(** The integer [num / den] is cut to, towards zero. *)
Definition truncZ (s : bool) (m : positive) (e : Z) : Z :=
  Z.quot (num s m) (den e).

(** Nearest integer of [num / den], a tie going towards +infinity. *)
Definition roundZ (s : bool) (m : positive) (e : Z) : Z :=
  (2 * num s m + den e) / (2 * den e).

(** [Math.floor(x)] *)
Definition Math_floor (x : number) : number :=
  match x with
  | S754_finite s m e =>
      if is_integral x then x else of_Z (floorZ s m e)
  | _ => x
  end.

(** [Math.round(x)]: a result of zero keeps the sign of [x]. *)
Definition Math_round (x : number) : number :=
  match x with
  | S754_finite s m e =>
      if is_integral x then x
      else let q := roundZ s m e in
           if q =? 0 then S754_zero s else of_Z q
  | _ => x
  end.

(** The integer an integral Number denotes. *)
Definition to_Z (x : number) : option Z :=
  match x with
  | S754_zero _ => Some 0
  | S754_finite s m e =>
      if 0 <=? e then Some (num s m * 2 ^ e)
      else if Zpos m mod den e =? 0 then Some (num s m / den e)
      else None
  | _ => None
  end.

(** ** [parseFloat] *)

Definition digit_of (c : ascii) : option Z :=
  let n := Z.of_N (N_of_ascii c) in
  if (48 <=? n) && (n <=? 57) then Some (n - 48) else None.

(** Reads the longest run of decimal digits: the number spelled after
    [acc], how many digits were read, and the rest of the text. *)
Fixpoint read_digits (s : string) (acc : Z) (count : Z) : Z * Z * string :=
  match s with
  | EmptyString => (acc, count, s)
  | String c s' =>
      match digit_of c with
      | Some d => read_digits s' (10 * acc + d) (count + 1)
      | None => (acc, count, s)
      end
  end.

Definition read_sign (s : string) : bool * string :=
  match s with
  | String "-"%char r => (true, r)
  | String "+"%char r => (false, r)
  | _ => (false, s)
  end.

(** The exponent part [e], [e+] or [e-] followed by digits; it counts
    for nothing when no digit follows. *)
Definition read_exponent (s : string) : Z :=
  match s with
  | String c r =>
      if Ascii.eqb c "e" || Ascii.eqb c "E" then
        let '(neg, r1) := read_sign r in
        let '(v, n, _) := read_digits r1 0 0 in
        if n =? 0 then 0 else cond_Zopp neg v
      else 0
  | EmptyString => 0
  end.

(** The Number nearest to [(-1)^neg * mant * 10^k]. *)
Definition of_decimal (neg : bool) (mant : Z) (k : Z) : number :=
  match mant with
  | Zpos m =>
      if 0 <=? k then
        binary_normalize prec emax (cond_Zopp neg (Zpos m * 10 ^ k)) 0 neg
      else
        SFdiv prec emax (S754_finite neg m 0)
              (S754_finite false (Z.to_pos (10 ^ (- k))) 0)
  | _ => S754_zero neg
  end.

(** [parseFloat(text)]: skips leading white space, reads the longest
    prefix that is a decimal literal, and is [NaN] when there is none. *)
Definition parseFloat (text : string) : number :=
  let '(neg, s1) := read_sign (trimStart text) in
  if startsWith s1 "Infinity" then S754_infinity neg
  else
    let '(ip, ni, s2) := read_digits s1 0 0 in
    let '(mant, nf, s3) :=
      match s2 with
      | String "."%char r => read_digits r ip 0
      | _ => (ip, 0, s2)
      end in
    if ni + nf =? 0 then NaN
    else of_decimal neg mant (read_exponent s3 - nf).

End JsNumber.
Import JsNumber.

(* ================================================================== *)
(** * URLs *)
(* ================================================================== *)

Module Url.

(** What the component reads of a parsed [URL]: its query parameters, in
    order of appearance. *)
Record URL : Type := { searchParams : list (string * string) }.

(** [params.get(name)]: the value of the first parameter called [name],
    [None] for JavaScript's [null]. *)
Fixpoint URLSearchParams_get (params : list (string * string)) (name : string)
  : option string :=
  match params with
  | [] => None
  | (k, v) :: rest =>
      if String.eqb k name then Some v else URLSearchParams_get rest name
  end.

(** ** A reference parser

    The URL parser of the URL Standard for an input without a base URL,
    as far as the component can observe it: whether the constructor
    throws, and the parameters of the query.  One part of the Standard is
    not followed: a host that needs the IDNA processing of Unicode (a
    non-ASCII character once percent-decoded, or a label that starts with
    [xn--]) is refused by this reference, where the Standard decides
    with the Unicode tables. *)

Definition code (c : ascii) : N := N_of_ascii c.

Definition is_ascii_alpha (c : ascii) : bool :=
  ((65 <=? code c) && (code c <=? 90) || (97 <=? code c) && (code c <=? 122))%N.

Definition is_ascii_digit (c : ascii) : bool :=
  ((48 <=? code c) && (code c <=? 57))%N.

Definition to_lower (c : ascii) : ascii :=
  if ((65 <=? code c) && (code c <=? 90))%N then ascii_of_N (code c + 32) else c.

Fixpoint lower_case (s : string) : string :=
  match s with
  | EmptyString => EmptyString
  | String c rest => String (to_lower c) (lower_case rest)
  end.

Definition hex_digit (c : ascii) : option N :=
  let n := N_of_ascii c in
  if (48 <=? n)%N && (n <=? 57)%N then Some (n - 48)%N
  else if (65 <=? n)%N && (n <=? 70)%N then Some (n - 55)%N
  else if (97 <=? n)%N && (n <=? 102)%N then Some (n - 87)%N
  else None.

(** Percent-decoding: [%XY] with two hexadecimal digits is one byte. *)
Fixpoint percent_decode (s : string) : string :=
  match s with
  | EmptyString => EmptyString
  | String c rest =>
      match rest with
      | String a (String b rest') =>
          match (if Ascii.eqb c "%" then hex_digit a else None), hex_digit b with
          | Some x, Some y =>
              String (ascii_of_N (16 * x + y)) (percent_decode rest')
          | _, _ => String c (percent_decode rest)
          end
      | _ => String c (percent_decode rest)
      end
  end.

(** U+FFFD, which stands for a malformed byte sequence. *)
Definition replacement : string := utf8_encode 65533.

(** What a byte means at the start of a character: it is one, it opens a
    sequence of [more] bytes the next of which lies in [lower..upper],
    or it is malformed. *)
Inductive Lead : Type :=
| lead_ascii
| lead_of (more : nat) (lower upper : N)
| lead_malformed.

Definition lead (n : N) : Lead :=
  (if n <=? 127 then lead_ascii
   else if (194 <=? n) && (n <=? 223) then lead_of 1 128 191
   else if n =? 224 then lead_of 2 160 191
   else if n =? 237 then lead_of 2 128 159
   else if (225 <=? n) && (n <=? 239) then lead_of 2 128 191
   else if n =? 240 then lead_of 3 144 191
   else if n =? 244 then lead_of 3 128 143
   else if (241 <=? n) && (n <=? 243) then lead_of 3 128 191
   else lead_malformed)%N.

(** UTF-8 decode without BOM, the result written in UTF-8 again: a
    well-formed text is unchanged, every malformed sequence becomes
    U+FFFD.  [pending] holds the bytes of the character being read, of
    which [more] are still to come. *)
Fixpoint utf8_decode (s : string) (pending : string) (more : nat)
         (lower upper : N) : string :=
  match s with
  | EmptyString =>
      match more with O => EmptyString | S _ => replacement end
  | String c rest =>
      let n := code c in
      match more with
      | S more' =>
          if ((lower <=? n) && (n <=? upper))%N then
            match more' with
            | O => pending ++ String c (utf8_decode rest EmptyString 0 128 191)
            | S _ =>
                utf8_decode rest (pending ++ String c EmptyString) more' 128 191
            end
          else
            replacement ++
            match lead n with
            | lead_ascii => String c (utf8_decode rest EmptyString 0 128 191)
            | lead_of k lo hi => utf8_decode rest (String c EmptyString) k lo hi
            | lead_malformed =>
                replacement ++ utf8_decode rest EmptyString 0 128 191
            end
      | O =>
          match lead n with
          | lead_ascii => String c (utf8_decode rest EmptyString 0 128 191)
          | lead_of k lo hi => utf8_decode rest (String c EmptyString) k lo hi
          | lead_malformed =>
              replacement ++ utf8_decode rest EmptyString 0 128 191
          end
      end
  end.

Fixpoint plus_to_space (s : string) : string :=
  match s with
  | EmptyString => EmptyString
  | String c rest =>
      String (if Ascii.eqb c "+" then " "%char else c) (plus_to_space rest)
  end.

(** The text before the first character satisfying [stop], and the text
    from that character on. *)
Fixpoint break (stop : ascii -> bool) (s : string) : string * string :=
  match s with
  | EmptyString => (EmptyString, EmptyString)
  | String c rest =>
      if stop c then (EmptyString, s)
      else let '(a, b) := break stop rest in (String c a, b)
  end.

Fixpoint split_on (sep : ascii) (s : string) (cur : string) : list string :=
  match s with
  | EmptyString => [cur]
  | String c rest =>
      if Ascii.eqb c sep then cur :: split_on sep rest EmptyString
      else split_on sep rest (cur ++ String c EmptyString)
  end.

Definition form_value (raw : string) : string :=
  utf8_decode (percent_decode (plus_to_space raw)) EmptyString 0 128 191.

Definition form_pair (piece : string) : string * string :=
  let '(name, rest) := break (Ascii.eqb "="%char) piece in
  let value := match rest with String _ v => v | EmptyString => EmptyString end in
  (form_value name, form_value value).

(** The [application/x-www-form-urlencoded] parser applied to a query. *)
Definition form_decode (query : string) : list (string * string) :=
  map form_pair (filter (fun p => negb (is_empty p)) (split_on "&" query EmptyString)).

Definition is_c0_or_space (c : ascii) : bool := (N_of_ascii c <=? 32)%N.
Definition is_tab_or_newline (c : ascii) : bool :=
  match N_of_ascii c with 9%N | 10%N | 13%N => true | _ => false end.

Fixpoint remove (p : ascii -> bool) (s : string) : string :=
  match s with
  | EmptyString => EmptyString
  | String c rest => if p c then remove p rest else String c (remove p rest)
  end.

Fixpoint strip_start (p : ascii -> bool) (s : string) : string :=
  match s with
  | EmptyString => EmptyString
  | String c rest => if p c then strip_start p rest else s
  end.

Fixpoint strip_end (p : ascii -> bool) (s : string) : string :=
  match s with
  | EmptyString => EmptyString
  | String c rest =>
      let t := strip_end p rest in
      if p c && is_empty t then EmptyString else String c t
  end.

(** *** The scheme *)

Definition is_scheme_char (c : ascii) : bool :=
  is_ascii_alpha c || is_ascii_digit c
  || Ascii.eqb c "+" || Ascii.eqb c "-" || Ascii.eqb c ".".

Fixpoint scheme_rest (s : string) (scheme : string) : option (string * string) :=
  match s with
  | EmptyString => None
  | String c rest =>
      if Ascii.eqb c ":" then Some (scheme, rest)
      else if is_scheme_char c
           then scheme_rest rest (scheme ++ String (to_lower c) EmptyString)
           else None
  end.

(** The scheme, in lower case, and the text after its colon; [None]
    when the input does not start with a scheme. *)
Definition split_scheme (s : string) : option (string * string) :=
  match s with
  | EmptyString => None
  | String c rest =>
      if is_ascii_alpha c then scheme_rest rest (String (to_lower c) EmptyString)
      else None
  end.

Definition is_special (scheme : string) : bool :=
  existsb (String.eqb scheme) ["http"; "https"; "ftp"; "ws"; "wss"].

(** *** Hosts *)

Definition forbidden_host (c : ascii) : bool :=
  existsb (N.eqb (code c)) [0; 9; 10; 13; 32]%N
  || existsb (Ascii.eqb c)
       ["#"; "/"; ":"; "<"; ">"; "?"; "@"; "["; "\"; "]"; "^"; "|"]%char.

Definition forbidden_domain (c : ascii) : bool :=
  forbidden_host c || (code c <=? 31)%N || Ascii.eqb c "%" || (code c =? 127)%N.

Definition digit_in (radix : N) (c : ascii) : option N :=
  match hex_digit c with
  | Some d => if (d <? radix)%N then Some d else None
  | None => None
  end.

Fixpoint number_in (radix : N) (s : string) (acc : N) : option N :=
  match s with
  | EmptyString => Some acc
  | String c rest =>
      match digit_in radix c with
      | Some d => number_in radix rest (acc * radix + d)%N
      | None => None
      end
  end.

(** The IPv4 number parser: decimal, [0x] hexadecimal or [0] octal. *)
Definition ipv4_number (part : string) : option N :=
  match part with
  | EmptyString => None
  | String c EmptyString => number_in 10 part 0
  | String c (String x rest) =>
      if Ascii.eqb c "0" then
        if Ascii.eqb x "x" || Ascii.eqb x "X" then number_in 16 rest 0
        else number_in 8 (String x rest) 0
      else number_in 10 part 0
  end.

(** The parts of a host between dots, an empty last part dropped when
    it is not the only one. *)
Definition host_parts (host : string) : list string :=
  let parts := split_on "." host EmptyString in
  match rev parts with
  | EmptyString :: (_ :: _) as more => rev more
  | _ => parts
  end.

Definition ends_in_number (host : string) : bool :=
  match rev (split_on "." host EmptyString) with
  | [EmptyString] => false
  | _ =>
      let last_part := last (host_parts host) EmptyString in
      (negb (is_empty last_part) && JsString.forallb is_ascii_digit last_part)
      || match ipv4_number last_part with Some _ => true | None => false end
  end.

Fixpoint all_but_last_below (limit : N) (numbers : list (option N)) : bool :=
  match numbers with
  | [] => true
  | [_] => true
  | n :: rest =>
      match n with
      | Some v => (v <? limit)%N && all_but_last_below limit rest
      | None => false
      end
  end.

(** The IPv4 parser, as far as it fails or not. *)
Definition ipv4_valid (host : string) : bool :=
  let numbers := map ipv4_number (host_parts host) in
  let size := List.length numbers in
  (size <=? 4)%nat
  && List.forallb (fun n => match n with Some _ => true | None => false end) numbers
  && all_but_last_below 256 numbers
  && match last numbers None with
     | Some v => (v <? 256 ^ (5 - N.of_nat size))%N
     | None => false
     end.

Definition is_hex (c : ascii) : bool :=
  match hex_digit c with Some _ => true | None => false end.

(** Up to [limit] hexadecimal digits: how many were read, and the rest. *)
Fixpoint take_hex (limit : nat) (s : string) : nat * string :=
  match limit, s with
  | S limit', String c rest =>
      if is_hex c then let '(k, r) := take_hex limit' rest in (S k, r)
      else (O, s)
  | _, _ => (O, s)
  end.

(** One number of the dotted part of an IPv6 address: decimal, at most
    255, without a leading zero. *)
Fixpoint ipv4_piece (s : string) (value : option N) : option (N * string) :=
  match s with
  | EmptyString =>
      match value with Some v => Some (v, s) | None => None end
  | String c rest =>
      if is_ascii_digit c then
        let d := (code c - 48)%N in
        match value with
        | None => ipv4_piece rest (Some d)
        | Some v =>
            if (v =? 0)%N then None
            else if (255 <? v * 10 + d)%N then None
            else ipv4_piece rest (Some (v * 10 + d)%N)
        end
      else match value with Some v => Some (v, s) | None => None end
  end.

(** [count] such numbers separated by dots, up to the end. *)
Fixpoint dotted (count : nat) (s : string) : bool :=
  match count with
  | O => false
  | S O =>
      match ipv4_piece s None with
      | Some (_, EmptyString) => true
      | _ => false
      end
  | S count' =>
      match ipv4_piece s None with
      | Some (_, String c rest) => Ascii.eqb c "." && dotted count' rest
      | _ => false
      end
  end.

(** The main loop of the IPv6 parser: [pieceIndex] pieces are read,
    [compressed] tells whether [::] was met. *)
Fixpoint ipv6_pieces (fuel : nat) (s : string) (pieceIndex : nat)
         (compressed : bool) : bool :=
  match fuel with
  | O => false
  | S fuel' =>
      match s with
      | EmptyString => compressed || (pieceIndex =? 8)%nat
      | String c rest =>
          if (8 <=? pieceIndex)%nat then false
          else if Ascii.eqb c ":" then
            if compressed then false
            else ipv6_pieces fuel' rest (S pieceIndex) true
          else
            let '(len, after) := take_hex 4 s in
            match after with
            | EmptyString =>
                (0 <? len)%nat && (compressed || (S pieceIndex =? 8)%nat)
            | String d after' =>
                if Ascii.eqb d "." then
                  (0 <? len)%nat && (pieceIndex <=? 6)%nat && dotted 4 s
                  && (compressed || (pieceIndex + 2 =? 8)%nat)
                else if Ascii.eqb d ":" then
                  (0 <? len)%nat && negb (is_empty after')
                  && ipv6_pieces fuel' after' (S pieceIndex) compressed
                else false
            end
      end
  end.

(** The IPv6 parser, as far as it fails or not. *)
Definition ipv6_valid (s : string) : bool :=
  let fuel := S (String.length s) in
  match s with
  | String c rest =>
      if Ascii.eqb c ":" then
        match rest with
        | String c' rest' =>
            Ascii.eqb c' ":" && ipv6_pieces fuel rest' 1 true
        | EmptyString => false
        end
      else ipv6_pieces fuel s 0 false
  | EmptyString => ipv6_pieces fuel s 0 false
  end.

Fixpoint last_char (s : string) : option ascii :=
  match s with
  | EmptyString => None
  | String c EmptyString => Some c
  | String _ rest => last_char rest
  end.

Fixpoint without_last (s : string) : string :=
  match s with
  | EmptyString => EmptyString
  | String c EmptyString => EmptyString
  | String c rest => String c (without_last rest)
  end.

Definition needs_idna (domain : string) : bool :=
  negb (JsString.forallb (fun c => (code c <=? 127)%N) domain)
  || existsb (fun label => startsWith label "xn--")
             (split_on "." (lower_case domain) EmptyString).

(** The host parser, as far as it fails or not; [opaque] for a scheme
    that is not special. *)
Definition valid_host (opaque : bool) (input : string) : bool :=
  match input with
  | String c inner =>
      if Ascii.eqb c "[" then
        match last_char inner with
        | Some d => Ascii.eqb d "]" && ipv6_valid (without_last inner)
        | None => false
        end
      else if opaque then
        JsString.forallb (fun c => negb (forbidden_host c)) input
      else
        let domain := lower_case (percent_decode input) in
        negb (needs_idna domain)
        && negb (is_empty domain)
        && JsString.forallb (fun c => negb (forbidden_domain c)) domain
        && (if ends_in_number domain then ipv4_valid domain else true)
  | EmptyString => opaque
  end.

(** *** The authority *)

Definition is_slash (c : ascii) : bool := Ascii.eqb c "/" || Ascii.eqb c "\".

Definition ends_authority (special : bool) (c : ascii) : bool :=
  Ascii.eqb c "/" || Ascii.eqb c "?" || Ascii.eqb c "#"
  || (special && Ascii.eqb c "\").

(** The text after the last occurrence of [sep], and the text before it
    when there is one. *)
Fixpoint after_last (sep : ascii) (s : string) (seen : option string)
         (cur : string) : option string * string :=
  match s with
  | EmptyString => (seen, cur)
  | String c rest =>
      if Ascii.eqb c sep then
        let before := match seen with
                      | Some b => b ++ String sep cur
                      | None => cur
                      end in
        after_last sep rest (Some before) EmptyString
      else after_last sep rest seen (cur ++ String c EmptyString)
  end.

(** The host, up to the first colon outside brackets, and the port text
    after that colon when there is one. *)
Fixpoint split_host (s : string) (inside : bool) (host : string)
  : string * option string :=
  match s with
  | EmptyString => (host, None)
  | String c rest =>
      if Ascii.eqb c ":" && negb inside then (host, Some rest)
      else
        let inside' := if Ascii.eqb c "[" then true
                       else if Ascii.eqb c "]" then false else inside in
        split_host rest inside' (host ++ String c EmptyString)
  end.

Definition valid_port (p : string) : bool :=
  let '(v, n, rest) := read_digits p 0 0 in
  is_empty rest && (v <=? 65535).

Definition valid_authority (special : bool) (authority : string) : bool :=
  let '(credentials, hostport) := after_last "@" authority None EmptyString in
  match credentials, hostport with
  | Some _, EmptyString => false
  | _, _ =>
      match split_host hostport false EmptyString with
      | (host, Some port) =>
          negb (is_empty host) && valid_host (negb special) host && valid_port port
      | (host, None) =>
          (negb special || negb (is_empty host)) && valid_host (negb special) host
      end
  end.

Definition is_drive_letter (buffer : string) : bool :=
  match buffer with
  | String c (String d EmptyString) =>
      is_ascii_alpha c && (Ascii.eqb d ":" || Ascii.eqb d "|")
  | _ => false
  end.

(** What follows [file:]: a host is read only after two slashes. *)
Definition valid_file (rest : string) : bool :=
  match rest with
  | String c (String d after) =>
      if is_slash c && is_slash d then
        let '(buffer, _) := break (ends_authority true) after in
        is_drive_letter buffer || is_empty buffer || valid_host false buffer
      else true
  | _ => true
  end.

(** Whether what follows the colon of the scheme parses. *)
Definition valid_after_scheme (scheme rest : string) : bool :=
  if String.eqb scheme "file" then valid_file rest
  else if is_special scheme then
    let '(authority, _) := break (ends_authority true) (strip_start is_slash rest) in
    valid_authority true authority
  else if startsWith rest "//" then
    let '(authority, _) := break (ends_authority false) (drop 2 rest) in
    valid_authority false authority
  else true.

(** [new URL(text)]; [None] when the constructor throws. *)
Definition parse (text : string) : option URL :=
  let input := remove is_tab_or_newline
                 (strip_end is_c0_or_space (strip_start is_c0_or_space text)) in
  match split_scheme input with
  | None => None
  | Some (scheme, rest) =>
      if valid_after_scheme scheme rest then
        let '(before_fragment, _) := break (Ascii.eqb "#"%char) rest in
        let '(_, query) := break (Ascii.eqb "?"%char) before_fragment in
        let q := match query with String _ q' => q' | EmptyString => EmptyString end in
        Some {| searchParams := form_decode q |}
      else None
  end.

End Url.
Import Url.

(* ================================================================== *)
(** * Values exchanged with the outside *)
(* ================================================================== *)

(** A thrown value, as [handleError] inspects it: [e.message], [e.logs],
    [e.error.message] and [e.error.logs], each possibly missing. *)
Record JsErrorInner : Type :=
  { inner_message : option string; inner_logs : option (list string) }.

Record JsError : Type :=
  { e_message : option string;
    e_logs : option (list string);
    e_error : option JsErrorInner }.

(** [new Error(text)] *)
Definition Error (text : string) : JsError :=
  {| e_message := Some text; e_logs := None; e_error := None |}.

(** A call that may throw, or a promise that may reject. *)
Inductive Result (A : Type) : Type :=
| Ok (a : A)
| Err (e : JsError).
Arguments Ok {A} a.
Arguments Err {A} e.

(** [new PublicKey(text)] with the errors it throws. *)
Definition PublicKey_parse (text : string) : Result PublicKey :=
  match Base58.decode text with
  | None => Err (Error "Non-base58 character")
  | Some _ =>
      match PublicKey_new text with
      | Some k => Ok k
      | None => Err (Error "Invalid public key input")
      end
  end.

(** A big number of bn.js. *)
Definition BN : Type := Z.

(** Loaded accounts ([EventAccount], [TicketAccount]) and the ticket
    account as [program.account.ticket.fetch] returns it. *)
Record EventAccount : Type :=
  { ev_pubkey : PublicKey;
    ev_organizer : PublicKey;
    ev_eventId : BN;
    ev_price : BN;
    ev_title : string;
    ev_description : string }.

Record TicketAccount : Type :=
  { tk_pubkey : PublicKey;
    tk_event : PublicKey;
    tk_owner : PublicKey;
    tk_checkedIn : bool }.

Record TicketData : Type :=
  { td_event : PublicKey;
    td_owner : PublicKey;
    td_checkedIn : bool }.

(** The instructions of the set-up transaction of a purchase. *)
Inductive Instruction : Type :=
| createAccount (fromPubkey newAccountPubkey : PublicKey) (lamports : number)
                (space : Z) (programId : PublicKey)
| initializeMint (mint : PublicKey) (decimals : Z) (mintAuthority : PublicKey)
                 (freezeAuthority : option PublicKey)
| createAssociatedTokenAccount (payer associatedToken owner mint : PublicKey).

(** The invocations of the backend program, [program.methods.m(args)
    .accounts({...})], with their accounts in the order of the source. *)
Inductive Invocation : Type :=
| initEvent (eventId priceLamports : BN) (title description : string)
            (signer event systemProgram : PublicKey)
| joinEvent (signer event ticket mint mintAuthority buyerAta tokenProgram
             associatedTokenProgram systemProgram : PublicKey)
| withdraw (amount : BN) (signer event systemProgram : PublicKey)
| checkIn (signer event ticket systemProgram : PublicKey).

(** What the component imports and calls synchronously. *)
Record Platform : Type :=
  { URL_new : string -> option URL;
    Number_toString : number -> string;
    BN_new : string -> Result BN;
    findProgramAddressSync : list bytes -> PublicKey -> PublicKey * Z;
    utf8 : string -> bytes;
    bnToLe8 : BN -> bytes;
    PROGRAM_ID : PublicKey;
    TOKEN_PROGRAM_ID : PublicKey;
    ASSOCIATED_TOKEN_PROGRAM_ID : PublicKey;
    SystemProgram_programId : PublicKey;
    MINT_SIZE : Z;
    LAMPORTS_PER_SOL : number }.

(** The backend handle of [useProgram], the wallet of [useWallet], and the
    rest of what a render of the component sees of the outside. *)
Record Program : Type :=
  { rpc : Invocation -> Result string;
    ticket_fetch : PublicKey -> Result TicketData }.

Record Wallet : Type :=
  { publicKey : option PublicKey;
    sendTransaction : list Instruction -> list PublicKey -> Result string }.

Record World : Type :=
  { wallet : Wallet;
    program : option Program;
    events : list EventAccount;
    refreshEvents : Result unit;
    tickets : list TicketAccount;
    refreshTickets : Result unit;
    getMinimumBalanceForRentExemption : Z -> Result number;
    getAssociatedTokenAddress : PublicKey -> PublicKey -> Result PublicKey;
    Keypair_generate : PublicKey;
    Date_now : number;
    window_location_href : option string }.

(* ================================================================== *)
(** * Component state and the handler monad *)
(* ================================================================== *)

Inductive MainTab : Type := explore | tab_tickets | manage.
Inductive ManageTab : Type := create | join | tab_withdraw.

(** The [useState] cells of [AppLayout]. *)
Record AppState : Type :=
  { txStatus : option string;
    mainTab : MainTab;
    manageTab : ManageTab;
    selectedEvent : option EventAccount;
    deepLinkTicket : option string;
    deepLinkEventPubkey : option PublicKey }.

Definition initial_state : AppState :=
  {| txStatus := None; mainTab := explore; manageTab := create;
     selectedEvent := None; deepLinkTicket := None;
     deepLinkEventPubkey := None |}.

(** The calls a handler makes to the outside, as they appear in its log.
    An awaited call is logged with the way its promise settled. *)
Inductive Settled : Type := fulfilled | rejected.

Inductive ConsoleLevel : Type := console_log | console_warn | console_error.

Inductive Call : Type :=
| call_getMinimumBalanceForRentExemption (size : Z) (s : Settled)
| call_getAssociatedTokenAddress (mint owner : PublicKey) (s : Settled)
| call_sendTransaction (tx : list Instruction) (signers : list PublicKey)
                       (s : Settled)
| call_rpc (inv : Invocation) (s : Settled)
| call_ticket_fetch (address : PublicKey) (s : Settled)
| call_refreshEvents (s : Settled)
| call_refreshTickets (s : Settled)
| call_console (level : ConsoleLevel) (text : string).

(** How a block of statements ends. *)
Inductive Completion (A : Type) : Type :=
| Normal (a : A)
| Returned
| Thrown (e : JsError).
Arguments Normal {A} a.
Arguments Returned {A}.
Arguments Thrown {A} e.

(** A computation reads and writes the state cells and appends to the log
    of calls. *)
Definition M (A : Type) : Type := AppState -> Completion A * AppState * list Call.

Definition ret {A} (a : A) : M A := fun st => (Normal a, st, []).

Definition bind {A B} (c : M A) (k : A -> M B) : M B :=
  fun st =>
    match c st with
    | (Normal a, st1, l1) =>
        let '(r, st2, l2) := k a st1 in (r, st2, (l1 ++ l2)%list)
    | (Returned, st1, l1) => (Returned, st1, l1)
    | (Thrown e, st1, l1) => (Thrown e, st1, l1)
    end.

Notation "x <- c ;; k" := (bind c (fun x => k))
  (at level 61, c at next level, right associativity).
Notation "c ;; k" := (bind c (fun _ => k))
  (at level 61, right associativity).

(** [return;] *)
Definition return_ {A} : M A := fun st => (Returned, st, []).

(** [throw e;] *)
Definition throw {A} (e : JsError) : M A := fun st => (Thrown e, st, []).

(** [try { body } catch (e) { handler(e) }] *)
Definition try_catch {A} (body : M A) (handler : JsError -> M A) : M A :=
  fun st =>
    match body st with
    | (Thrown e, st1, l1) =>
        let '(r, st2, l2) := handler e st1 in (r, st2, (l1 ++ l2)%list)
    | other => other
    end.

Definition emit (c : Call) : M unit := fun st => (Normal tt, st, [c]).

(** A synchronous call that may throw. *)
Definition attempt {A} (r : Result A) : M A :=
  match r with Ok a => ret a | Err e => throw e end.

(** [await promise]: the call is logged with its settlement, and a
    rejection is thrown at the point of the [await]. *)
Definition await {A} (c : Settled -> Call) (r : Result A) : M A :=
  match r with
  | Ok a => emit (c fulfilled) ;; ret a
  | Err e => emit (c rejected) ;; throw e
  end.

Definition console (level : ConsoleLevel) (text : string) : M unit :=
  emit (call_console level text).

Definition read : M AppState := fun st => (Normal st, st, []).

Definition setTxStatus (s : option string) : M unit :=
  fun st => (Normal tt,
             {| txStatus := s; mainTab := mainTab st; manageTab := manageTab st;
                selectedEvent := selectedEvent st;
                deepLinkTicket := deepLinkTicket st;
                deepLinkEventPubkey := deepLinkEventPubkey st |}, []).

Definition setMainTab (t : MainTab) : M unit :=
  fun st => (Normal tt,
             {| txStatus := txStatus st; mainTab := t; manageTab := manageTab st;
                selectedEvent := selectedEvent st;
                deepLinkTicket := deepLinkTicket st;
                deepLinkEventPubkey := deepLinkEventPubkey st |}, []).

Definition setManageTab (t : ManageTab) : M unit :=
  fun st => (Normal tt,
             {| txStatus := txStatus st; mainTab := mainTab st; manageTab := t;
                selectedEvent := selectedEvent st;
                deepLinkTicket := deepLinkTicket st;
                deepLinkEventPubkey := deepLinkEventPubkey st |}, []).

Definition setSelectedEvent (e : option EventAccount) : M unit :=
  fun st => (Normal tt,
             {| txStatus := txStatus st; mainTab := mainTab st;
                manageTab := manageTab st; selectedEvent := e;
                deepLinkTicket := deepLinkTicket st;
                deepLinkEventPubkey := deepLinkEventPubkey st |}, []).

Definition setDeepLinkTicket (t : option string) : M unit :=
  fun st => (Normal tt,
             {| txStatus := txStatus st; mainTab := mainTab st;
                manageTab := manageTab st; selectedEvent := selectedEvent st;
                deepLinkTicket := t;
                deepLinkEventPubkey := deepLinkEventPubkey st |}, []).

Definition setDeepLinkEventPubkey (k : option PublicKey) : M unit :=
  fun st => (Normal tt,
             {| txStatus := txStatus st; mainTab := mainTab st;
                manageTab := manageTab st; selectedEvent := selectedEvent st;
                deepLinkTicket := deepLinkTicket st;
                deepLinkEventPubkey := k |}, []).

(** The state and the log a handler leaves behind. *)
Definition state_after {A} (c : M A) (st : AppState) : AppState := snd (fst (c st)).
Definition calls_of {A} (c : M A) (st : AppState) : list Call := snd (c st).

(* ================================================================== *)
(** * The link extractor *)
(* ================================================================== *)

Section Extractor.

Variable P : Platform.

(** The class [[&#?\s]] of the split: the number of bytes of the
    separator a text starts with, 0 when it starts with none. *)
Definition separator_length (s : string) : nat :=
  if startsWith s "&" || startsWith s "#" || startsWith s "?" then 1%nat
  else white_space_length s.

Definition has_http_scheme (trimmed : string) : bool :=
  startsWith trimmed "http://" || startsWith trimmed "https://".

(** Case 1 of the extractor: the [ticket] parameter of a full URL.  A
    parameter that is missing or empty gives [null]; so does a URL the
    parser refuses (the [catch] branch). *)
Definition ticket_of_url (trimmed : string) : option string :=
  match URL_new P trimmed with
  | Some url =>
      match URLSearchParams_get (searchParams url) "ticket" with
      | Some ticketParam =>
          if is_empty ticketParam then None else Some (trim ticketParam)
      | None => None
      end
  | None => None
  end.

(** Case 2: the text after the first [ticket=], up to a separator. *)
Definition ticket_of_fragment (trimmed : string) : option string :=
  let idx := indexOf trimmed "ticket=" in
  let after := slice trimmed (idx + Z.of_nat (String.length "ticket=")) in
  let ticketCandidate := split_first separator_length after in
  let t := trim ticketCandidate in
  if is_empty t then None else Some t.

(** [extractTicketAddressFromInput(raw)]; [None] is [null]. *)
Definition extractTicketAddressFromInput (raw : string) : option string :=
  let trimmed := trim raw in
  if is_empty trimmed then None
  else if has_http_scheme trimmed then ticket_of_url trimmed
  else if includes trimmed "ticket=" then ticket_of_fragment trimmed
  else Some trimmed.

(** Whether the extractor went through its [catch] branch, where it
    writes one warning to the console. *)
Definition extract_warns (raw : string) : bool :=
  let trimmed := trim raw in
  negb (is_empty trimmed) && has_http_scheme trimmed
  && match URL_new P trimmed with Some _ => false | None => true end.

End Extractor.

(* ================================================================== *)
(** * The action handlers *)
(* ================================================================== *)

Section Handlers.

Variable P : Platform.
Variable w : World.

(** [handleError(e)] *)
Definition error_logs (e : JsError) : option (list string) :=
  match e_logs e with
  | Some l => Some l
  | None => match e_error e with Some i => inner_logs i | None => None end
  end.

Definition error_baseMsg (e : JsError) : string :=
  match match e_error e with Some i => inner_message i | None => None end with
  | Some m => m
  | None => match e_message e with Some m => m | None => "Transaction failed" end
  end.

Definition handleError (e : JsError) : M unit :=
  console console_error "Raw error object:" ;;
  let logs := error_logs e in
  match logs with
  | Some _ => console console_error "Program logs:"
  | None => ret tt
  end ;;
  let baseMsg := error_baseMsg e in
  let hint := match logs with
              | Some _ => " (see console for program logs)"
              | None => ""
              end in
  setTxStatus (Some ("âŒ " ++ baseMsg ++ hint)).

(** [generateEventIdBn()] *)
Definition generateEventIdBn : M BN :=
  attempt (BN_new P (Number_toString P (Date_now w))).

(** [deriveEventPdaFromSigner(signer, eventId)] *)
Definition deriveEventPdaFromSigner (signer : PublicKey) (eventId : BN) : PublicKey :=
  fst (findProgramAddressSync P
         [utf8 P "event"; PublicKey_toBytes signer; bnToLe8 P eventId]
         (PROGRAM_ID P)).

(** The mint-authority and ticket addresses of [handleJoinEvent]. *)
Definition deriveMintAuthPda (mint : PublicKey) : PublicKey :=
  fst (findProgramAddressSync P
         [utf8 P "mint_auth"; PublicKey_toBytes mint] (PROGRAM_ID P)).

Definition deriveTicketPda (eventPda user : PublicKey) : PublicKey :=
  fst (findProgramAddressSync P
         [utf8 P "ticket"; PublicKey_toBytes eventPda; PublicKey_toBytes user]
         (PROGRAM_ID P)).

(** [text || "0"] *)
Definition or_zero (text : string) : string :=
  if is_empty text then "0" else text.

(** The price of [handleCreateEvent], from the form field to lamports. *)
Definition createEvent_priceLamports (priceSol : string) : Result number :=
  let normalized := replace_first "," "." (or_zero priceSol) in
  let priceSolNum := parseFloat normalized in
  if Number_isNaN priceSolNum || ltb priceSolNum zero then
    Err (Error "Invalid ticket price")
  else
    Ok (Math_round (mul priceSolNum (LAMPORTS_PER_SOL P))).

(** [handleCreateEvent({priceSol, title, description})] *)
Definition handleCreateEvent (priceSol title description : string) : M unit :=
  match program w, publicKey (wallet w) with
  | Some prog, Some walletKey =>
      try_catch
        (setTxStatus (Some "â³ Creating event on devnetâ€¦") ;;
         eventIdBn <- generateEventIdBn ;;
         priceLamports <- attempt (createEvent_priceLamports priceSol) ;;
         priceLamportsBn <- attempt (BN_new P (Number_toString P priceLamports)) ;;
         let eventPda := deriveEventPdaFromSigner walletKey eventIdBn in
         let call := initEvent eventIdBn priceLamportsBn title description
                               walletKey eventPda (SystemProgram_programId P) in
         sig <- await (call_rpc call) (rpc prog call) ;;
         setTxStatus (Some ("âœ… Event created. tx: " ++ sig)) ;;
         await call_refreshEvents (refreshEvents w))
        handleError
  | _, _ => return_
  end.

(** [events.find((e) => e.pubkey.equals(key))] *)
Definition find_event (key : PublicKey) (evs : list EventAccount)
  : option EventAccount :=
  find (fun e => PublicKey_equals (ev_pubkey e) key) evs.

(** The three instructions of the set-up transaction, in order. *)
Definition setupTx (user mint mintAuthPda buyerAta : PublicKey)
           (lamportsForMint : number) : list Instruction :=
  [ createAccount user mint lamportsForMint (MINT_SIZE P) (TOKEN_PROGRAM_ID P);
    initializeMint mint 0 mintAuthPda None;
    createAssociatedTokenAccount user buyerAta user mint ].

(** [handleJoinEvent({eventPubkey})] *)
Definition handleJoinEvent (eventPubkeyText : string) : M unit :=
  match program w, publicKey (wallet w) with
  | Some prog, Some user =>
      if is_empty eventPubkeyText then
        setTxStatus (Some "âŒ Select an event to join") ;; return_
      else
        try_catch
          (setTxStatus (Some "â³ Preparing mint + joining eventâ€¦") ;;
           eventPubkey <- attempt (PublicKey_parse eventPubkeyText) ;;
           match find_event eventPubkey (events w) with
           | None => setTxStatus (Some "âŒ Selected event not found in local list") ;; return_
           | Some eventData =>
               let eventPda := eventPubkey in
               let mint := Keypair_generate w in
               let mintAuthPda := deriveMintAuthPda mint in
               lamportsForMint <-
                 await (call_getMinimumBalanceForRentExemption (MINT_SIZE P))
                       (getMinimumBalanceForRentExemption w (MINT_SIZE P)) ;;
               buyerAta <-
                 await (call_getAssociatedTokenAddress mint user)
                       (getAssociatedTokenAddress w mint user) ;;
               let tx := setupTx user mint mintAuthPda buyerAta lamportsForMint in
               setupSig <-
                 await (call_sendTransaction tx [mint])
                       (sendTransaction (wallet w) tx [mint]) ;;
               console console_log "Mint + ATA setup tx:" ;;
               setTxStatus (Some "â³ Calling join_eventâ€¦ This will also pay the ticket price.") ;;
               let ticketPda := deriveTicketPda eventPda user in
               let call := joinEvent user eventPda ticketPda mint mintAuthPda
                                     buyerAta (TOKEN_PROGRAM_ID P)
                                     (ASSOCIATED_TOKEN_PROGRAM_ID P)
                                     (SystemProgram_programId P) in
               sig <- await (call_rpc call) (rpc prog call) ;;
               setTxStatus (Some ("âœ… Joined event & minted ticket. tx: " ++ sig)) ;;
               await call_refreshTickets (refreshTickets w)
           end)
          handleError
  | _, _ => return_
  end.

(** The amount of [handleWithdraw], from the form field to lamports. *)
Definition withdraw_amountLamports (amountSol : string) : number :=
  let amountSolNum := parseFloat (or_zero amountSol) in
  Math_floor (mul amountSolNum (LAMPORTS_PER_SOL P)).

(** [handleWithdraw({eventPubkey, amountSol})] *)
Definition handleWithdraw (eventPubkeyText amountSol : string) : M unit :=
  match program w, publicKey (wallet w) with
  | Some prog, Some walletKey =>
      if is_empty eventPubkeyText then
        setTxStatus (Some "âŒ Select an event to withdraw from") ;; return_
      else
        try_catch
          (setTxStatus (Some "â³ Sending withdrawâ€¦") ;;
           eventPubkey <- attempt (PublicKey_parse eventPubkeyText) ;;
           let amountLamports := withdraw_amountLamports amountSol in
           amountBn <- attempt (BN_new P (Number_toString P amountLamports)) ;;
           let call := withdraw amountBn walletKey eventPubkey
                                (SystemProgram_programId P) in
           sig <- await (call_rpc call) (rpc prog call) ;;
           setTxStatus (Some ("âœ… withdraw tx: " ++ sig)))
          handleError
  | _, _ => return_
  end.

(** [handleCheckIn(ticket, event)] *)
Definition handleCheckIn (ticket : TicketAccount) (event : EventAccount) : M unit :=
  match program w, publicKey (wallet w) with
  | Some prog, Some walletKey =>
      try_catch
        (if negb (PublicKey_equals (ev_organizer event) walletKey) then
           setTxStatus (Some "âŒ Only the event organizer can check in attendees") ;; return_
         else
           setTxStatus (Some "â³ Sending check_inâ€¦") ;;
           let eventPda := ev_pubkey event in
           let call := checkIn walletKey eventPda (tk_pubkey ticket)
                               (SystemProgram_programId P) in
           sig <- await (call_rpc call) (rpc prog call) ;;
           setTxStatus (Some ("âœ… check_in tx: " ++ sig)) ;;
           await call_refreshTickets (refreshTickets w))
        handleError
  | _, _ => return_
  end.

(** [!extracted]: [null] and the empty string are both falsy. *)
Definition falsy (extracted : option string) : bool :=
  match extracted with
  | None => true
  | Some s => is_empty s
  end.

(** [handleOrganizerCheckInByAddress(ticketAddress, event)] *)
Definition handleOrganizerCheckInByAddress
           (ticketAddress : string) (event : EventAccount) : M unit :=
  match program w, publicKey (wallet w) with
  | Some prog, Some walletKey =>
      try_catch
        ((if extract_warns P ticketAddress
          then console console_warn "[checkin] Failed to parse URL from scanned value" else ret tt) ;;
         let extracted := extractTicketAddressFromInput P ticketAddress in
         if falsy extracted then
           setTxStatus (Some "âŒ Could not find a ticket address in the scanned data") ;; return_
         else if negb (PublicKey_equals (ev_organizer event) walletKey) then
           setTxStatus (Some "âŒ Only the event organizer can check in attendees") ;; return_
         else
           ticketPubkey <-
             try_catch
               (attempt (PublicKey_parse
                           (match extracted with Some s => s | None => "" end)))
               (fun _ => setTxStatus (Some "âŒ Invalid ticket public key") ;; return_) ;;
           ticketAcc <-
             try_catch
               (await (call_ticket_fetch ticketPubkey)
                      (ticket_fetch prog ticketPubkey))
               (fun fetchErr =>
                  console console_error "[checkin] Ticket fetch error" ;;
                  setTxStatus (Some "âŒ That account is not a Ticket account for this program") ;; return_) ;;
           if negb (PublicKey_equals (td_event ticketAcc) (ev_pubkey event)) then
             console console_warn "[checkin] Ticket belongs to different event" ;;
             setTxStatus (Some "âŒ This ticket belongs to a different event") ;; return_
           else if td_checkedIn ticketAcc then
             setTxStatus (Some "â„¹ï¸ This ticket is already checked in") ;; return_
           else
             setTxStatus (Some "â³ Checking in attendeeâ€¦") ;;
             let eventPda := ev_pubkey event in
             let call := checkIn walletKey eventPda ticketPubkey
                                 (SystemProgram_programId P) in
             sig <- await (call_rpc call) (rpc prog call) ;;
             setTxStatus (Some ("âœ… Attendee checked in. tx: " ++ sig)) ;;
             await call_refreshTickets (refreshTickets w))
        handleError
  | _, _ => return_
  end.

End Handlers.

(* ================================================================== *)
(** * The deep-link effects *)
(* ================================================================== *)

Section DeepLink.

Variable P : Platform.

(** First effect (dependencies [[]]): reads [?ticket=] from the URL of
    the page, once, on mount. *)
Definition parseDeepLink (w : World) : M unit :=
  match window_location_href w with
  | None => return_
  | Some href =>
      match URL_new P href with
      | Some url =>
          match URLSearchParams_get (searchParams url) "ticket" with
          | Some ticketParam =>
              if is_empty ticketParam then ret tt
              else setDeepLinkTicket (Some (trim ticketParam)) ;;
                   setMainTab explore
          | None => ret tt
          end
      | None => console console_warn "[checkin] Failed to parse ticket from URL"
      end
  end.

(** Second effect (dependencies [[program, deepLinkTicket]]): fetches
    the ticket to learn which event it belongs to. *)
Definition fetchDeepLinkTicket (w : World) : M unit :=
  st <- read ;;
  match program w, deepLinkTicket st with
  | Some prog, Some ticketText =>
      if is_empty ticketText then return_
      else
        try_catch
          (ticketPubkey <- attempt (PublicKey_parse ticketText) ;;
           ticketAcc <- await (call_ticket_fetch ticketPubkey)
                              (ticket_fetch prog ticketPubkey) ;;
           setDeepLinkEventPubkey (Some (td_event ticketAcc)))
          (fun e =>
             console console_error "[checkin] Failed to fetch ticket account for deep link" ;;
             setTxStatus (Some "âŒ Invalid or unknown ticket in check-in link") ;;
             setDeepLinkEventPubkey None)
  | _, _ => return_
  end.

(** Third effect (dependencies [[deepLinkEventPubkey, events]]): selects
    the event of the ticket once the events are loaded. *)
Definition selectDeepLinkEvent (w : World) : M unit :=
  st <- read ;;
  match deepLinkEventPubkey st with
  | None => return_
  | Some eventKey =>
      if (List.length (events w) =? 0)%nat then return_
      else
        match find_event eventKey (events w) with
        | Some found => setSelectedEvent (Some found) ;; setMainTab explore
        | None => console console_warn "[checkin] Deep-linked ticket's event not found in loaded events"
        end
  end.

(** ** The mounted component

    A component is what its last render saw of the outside, its state
    cells, and the log of what its effects did.  An effect runs again
    when one of its dependencies changed; a state cell holding an object
    changes whenever it is set to a new object. *)
Record Component : Type :=
  { world : World; state : AppState; log : list Call }.

Definition run_effect (effect : World -> M unit) (c : Component) : Component :=
  let '(_, st, l) := effect (world c) (state c) in
  {| world := world c; state := st; log := (log c ++ l)%list |}.

Definition was_set {A} (before after : option A) : bool :=
  match before, after with
  | None, None => false
  | _, _ => true
  end.

(** The second effect, followed by the third when the second wrote
    [deepLinkEventPubkey]: it writes the cell when it runs to its end, a
    new key object on success and [null] on failure, and not when it
    returns early. *)
Definition fetch_stage (c : Component) : Component :=
  let '(completion, st, l) := fetchDeepLinkTicket (world c) (state c) in
  let c1 := {| world := world c; state := st; log := (log c ++ l)%list |} in
  match completion with
  | Normal _ =>
      if was_set (deepLinkEventPubkey (state c)) (deepLinkEventPubkey st)
      then run_effect selectDeepLinkEvent c1
      else c1
  | _ => c1
  end.

(** Mount: in the first commit the three effects see the initial state,
    so the second and third return at once; the later stages follow from
    the cells the effects write. *)
Definition mount (w : World) : Component :=
  let c0 := {| world := w; state := initial_state; log := [] |} in
  let c1 := run_effect parseDeepLink c0 in
  let c2 := {| world := w; state := state c1;
               log := (log c1
                       ++ calls_of (fetchDeepLinkTicket w) initial_state
                       ++ calls_of (selectDeepLinkEvent w) initial_state)%list |} in
  if was_set (deepLinkTicket initial_state) (deepLinkTicket (state c2))
  then fetch_stage c2
  else c2.

Definition with_program (p : option Program) (w : World) : World :=
  {| wallet := wallet w; program := p; events := events w;
     refreshEvents := refreshEvents w; tickets := tickets w;
     refreshTickets := refreshTickets w;
     getMinimumBalanceForRentExemption := getMinimumBalanceForRentExemption w;
     getAssociatedTokenAddress := getAssociatedTokenAddress w;
     Keypair_generate := Keypair_generate w; Date_now := Date_now w;
     window_location_href := window_location_href w |}.

Definition with_events (evs : list EventAccount) (w : World) : World :=
  {| wallet := wallet w; program := program w; events := evs;
     refreshEvents := refreshEvents w; tickets := tickets w;
     refreshTickets := refreshTickets w;
     getMinimumBalanceForRentExemption := getMinimumBalanceForRentExemption w;
     getAssociatedTokenAddress := getAssociatedTokenAddress w;
     Keypair_generate := Keypair_generate w; Date_now := Date_now w;
     window_location_href := window_location_href w |}.

(** What can happen to a mounted component, as far as the deep link is
    concerned: the hooks hand over a new program handle or a new events
    collection, or the user closes the details panel or picks an event. *)
Inductive Input : Type :=
| ProgramChanged (p : option Program)
| EventsChanged (evs : list EventAccount)
| CloseDetails
| SelectEvent (e : EventAccount).

Definition step (c : Component) (i : Input) : Component :=
  match i with
  | ProgramChanged p =>
      fetch_stage {| world := with_program p (world c);
                     state := state c; log := log c |}
  | EventsChanged evs =>
      run_effect selectDeepLinkEvent
                 {| world := with_events evs (world c);
                    state := state c; log := log c |}
  | CloseDetails => run_effect (fun _ => setSelectedEvent None) c
  | SelectEvent e => run_effect (fun _ => setSelectedEvent (Some e)) c
  end.

Definition run_inputs (c : Component) (inputs : list Input) : Component :=
  fold_left step inputs c.

End DeepLink.

(* ================================================================== *)
(** * A reference platform and sample worlds *)
(* ================================================================== *)

Module Reference.

Definition digits_of_Z (z : Z) : string :=
  NilEmpty.string_of_uint (N.to_uint (Z.to_N z)).

(** ** [Number.prototype.toString]

    ECMAScript writes a finite Number [x > 0] from the integers [n], [k]
    and [s] with [k >= 1], [10^(k-1) <= s < 10^k], [s * 10^(n-k)] reading
    back as [x], and [k] as small as possible; of several such [s] the
    one whose value is closest to [x], the even one on a tie.  Below
    [x] is the fraction [X / D]. *)

Definition same_number (a b : number) : bool :=
  match a, b with
  | S754_zero s, S754_zero s' => Bool.eqb s s'
  | S754_infinity s, S754_infinity s' => Bool.eqb s s'
  | S754_nan, S754_nan => true
  | S754_finite s m e, S754_finite s' m' e' =>
      Bool.eqb s s' && Pos.eqb m m' && Z.eqb e e'
  | _, _ => false
  end.

(** The least [j >= 1] with [10^(-j) <= X / D], for [X / D < 1]. *)
Fixpoint leading_zeros (fuel : nat) (j : Z) (X D : Z) : Z :=
  match fuel with
  | O => j
  | S fuel' =>
      if D <=? X * 10 ^ j then j else leading_zeros fuel' (j + 1) X D
  end.

(** The [n] with [10^(n-1) <= X / D < 10^n]. *)
Definition decimal_exponent (X D : Z) : Z :=
  if D <=? X then Z.of_nat (String.length (digits_of_Z (X / D)))
  else 1 - leading_zeros 400 1 X D.

(** Tries [k], [k+1], ... digits: of the two [k]-digit decimals around
    [X / D], one that reads back as [x] is taken, the closer one when
    both do.  Seventeen digits always read back. *)
Fixpoint shortest_digits (fuel : nat) (k : Z) (x : number) (X D n : Z)
  : Z * Z :=
  match fuel with
  | O => (X / D, n)
  | S fuel' =>
      let p := k - n in
      let N := X * 10 ^ (Z.max p 0) in
      let M := D * 10 ^ (Z.max (- p) 0) in
      let lo := N / M in
      let r := N mod M in
      let hi := lo + 1 in
      let lo_ok := same_number (of_decimal false lo (n - k)) x in
      let hi_ok := same_number (of_decimal false hi (n - k)) x in
      let closer_hi := (M <? 2 * r) || ((M =? 2 * r) && Z.odd lo) in
      if hi_ok && (negb lo_ok || closer_hi) then
        if hi =? 10 ^ k then (hi / 10, n + 1) else (hi, n)
      else if lo_ok then (lo, n)
      else shortest_digits fuel' (k + 1) x X D n
  end.

Fixpoint zeros (count : nat) : string :=
  match count with
  | O => EmptyString
  | S count' => String "0" (zeros count')
  end.

Fixpoint take (count : nat) (s : string) : string :=
  match count, s with
  | S count', String c s' => String c (take count' s')
  | _, _ => EmptyString
  end.

Definition exponent_part (n : Z) : string :=
  "e" ++ (if 0 <=? n - 1 then "+" else "-") ++ digits_of_Z (Z.abs (n - 1)).

(** The text of the digits [s] at decimal exponent [n]. *)
Definition layout (s n : Z) : string :=
  let ds := digits_of_Z s in
  let k := Z.of_nat (String.length ds) in
  if (k <=? n) && (n <=? 21) then ds ++ zeros (Z.to_nat (n - k))
  else if (0 <? n) && (n <=? 21) then
    take (Z.to_nat n) ds ++ "." ++ drop (Z.to_nat n) ds
  else if (-6 <? n) && (n <=? 0) then "0." ++ zeros (Z.to_nat (- n)) ++ ds
  else if k =? 1 then ds ++ exponent_part n
  else take 1 ds ++ "." ++ drop 1 ds ++ exponent_part n.

Definition finite_to_string (s : bool) (m : positive) (e : Z) : string :=
  let X := if 0 <=? e then Zpos m * 2 ^ e else Zpos m in
  let D := if 0 <=? e then 1 else 2 ^ (- e) in
  let '(digits, n) :=
    shortest_digits 17 1 (S754_finite false m e) X D (decimal_exponent X D) in
  (if s then "-" else "") ++ layout digits n.

(** [x.toString()]; a finite value that is not written in the canonical
    form of binary64 is first rounded to it. *)
Definition number_to_string (x : number) : string :=
  match x with
  | S754_nan => "NaN"
  | S754_infinity false => "Infinity"
  | S754_infinity true => "-Infinity"
  | S754_zero _ => "0"
  | S754_finite s m e =>
      match binary_normalize prec emax (Zpos m) e false with
      | S754_finite _ m' e' => finite_to_string s m' e'
      | S754_infinity _ => if s then "-Infinity" else "Infinity"
      | _ => "0"
      end
  end.

(** [new BN(text)] in base ten, as bn.js 5.2 does it: white space is
    dropped, a leading minus sign negates, and any character that is not
    a decimal digit fails the assertion of the parser. *)
Definition bn_of_string (text : string) : Result BN :=
  let t := remove_white_space 0 text in
  let '(neg, body) := match t with
                      | String "-"%char r => (true, r)
                      | _ => (false, t)
                      end in
  let '(v, _, rest) := read_digits body 0 0 in
  if is_empty rest then Ok (cond_Zopp neg v)
  else Err (Error "Invalid character").

(** Modelled from the spec: [utf8] of [solana/utils], which is not among
    the sources, gives the bytes of a fixed string tag. *)
Definition utf8_bytes (s : string) : bytes := list_byte_of_string s.

(** Modelled from the spec: [bnToLe8] of [solana/utils], which is not
    among the sources, writes a numeric identifier as 8 bytes, least
    significant first. *)
Fixpoint le_bytes (len : nat) (n : N) : bytes :=
  match len with
  | O => []
  | S len' => byte_of_N n :: le_bytes len' (n / 256)%N
  end.

Definition le8 (n : BN) : bytes := le_bytes 8 (Z.to_N n).

(** A stand-in for the hash behind [findProgramAddressSync]: it folds
    the seeds and the program id into a 256-bit number.  The properties
    below hold for every derivation function; this one only serves to
    run examples. *)
Definition fold_bytes (acc : N) (bs : bytes) : N :=
  fold_left (fun a b => ((a * 257 + Byte.to_N b + 1) mod 2 ^ 256)%N) bs acc.

Definition derive (seeds : list bytes) (programId : PublicKey)
  : PublicKey * Z :=
  (fold_left fold_bytes seeds (programId mod 2 ^ 256)%N, 255).

Definition key (text : string) : PublicKey :=
  match PublicKey_new text with Some k => k | None => 0%N end.

Definition platform (scale : number) : Platform :=
  {| URL_new := Url.parse;
     Number_toString := number_to_string;
     BN_new := bn_of_string;
     findProgramAddressSync := derive;
     utf8 := utf8_bytes;
     bnToLe8 := le8;
     PROGRAM_ID := key "BPFLoaderUpgradeab1e11111111111111111111111";
     TOKEN_PROGRAM_ID := key "TokenkegQfeZyiNwAJbNbGKPFXCWuBvf9Ss623VQ5DA";
     ASSOCIATED_TOKEN_PROGRAM_ID := key "ATokenGPvbdGVxr1b2hvZbsiqW5xWH25efTNsLJA8knL";
     SystemProgram_programId := key "11111111111111111111111111111111";
     MINT_SIZE := 82;
     LAMPORTS_PER_SOL := scale |}.

(** One SOL is 10^9 lamports. *)
Definition solana : Platform := platform (of_Z 1000000000).

End Reference.

(** Sample keys, accounts and worlds for running the handlers. *)
Module Samples.

Import Reference.

Definition organizer : PublicKey := key "Vote111111111111111111111111111111111111111".
Definition attendee : PublicKey := key "Stake11111111111111111111111111111111111111".
Definition E1_text : string := "SysvarRent111111111111111111111111111111111".
Definition E2_text : string := "SysvarC1ock11111111111111111111111111111111".
Definition T1_text : string := "So11111111111111111111111111111111111111112".
Definition E1 : PublicKey := key E1_text.
Definition E2 : PublicKey := key E2_text.
Definition T1 : PublicKey := key T1_text.
Definition fresh_mint : PublicKey := key "metaqbxxUerdq28cj1RbAWkYQm3ybzjb6a8bt518x1s".

Definition event_at (address : PublicKey) (title : string) : EventAccount :=
  {| ev_pubkey := address; ev_organizer := organizer;
     ev_eventId := 1700000000000; ev_price := 1500000000;
     ev_title := title; ev_description := "" |}.

Definition event1 : EventAccount := event_at E1 "first".
Definition event2 : EventAccount := event_at E2 "second".

Definition ticket_for (event : PublicKey) (checkedIn : bool) : TicketData :=
  {| td_event := event; td_owner := attendee; td_checkedIn := checkedIn |}.

(** A backend that accepts every invocation and serves one ticket. *)
Definition program_serving (t : TicketData) : Program :=
  {| rpc := fun _ => Ok "sig"; ticket_fetch := fun _ => Ok t |}.

(** A backend whose account fetch fails. *)
Definition program_unreachable : Program :=
  {| rpc := fun _ => Ok "sig";
     ticket_fetch := fun _ => Err (Error "Account does not exist") |}.

Definition wallet_of (k : option PublicKey) (send : Result string) : Wallet :=
  {| publicKey := k; sendTransaction := fun _ _ => send |}.

Definition world_of (k : option PublicKey) (send : Result string)
           (p : option Program) (evs : list EventAccount)
           (href : option string) : World :=
  {| wallet := wallet_of k send; program := p; events := evs;
     refreshEvents := Ok tt; tickets := []; refreshTickets := Ok tt;
     getMinimumBalanceForRentExemption := fun _ => Ok (of_Z 1461600);
     getAssociatedTokenAddress := fun m o => Ok (N.lxor m o);
     Keypair_generate := fresh_mint;
     Date_now := of_Z 1700000000000;
     window_location_href := href |}.

(** A page opened from a check-in link, no wallet connected yet. *)
Definition checkin_link : string := "https://site.xyz/checkin?ticket=" ++ T1_text.

Definition linked_world (p : option Program) : World :=
  world_of None (Ok "sig") p [] (Some checkin_link).

(** An error as the backend client throws it, with nested message and
    program logs. *)
Definition program_error : JsError :=
  {| e_message := Some "Simulation failed"; e_logs := None;
     e_error := Some {| inner_message := Some "Insufficient funds";
                        inner_logs := Some ["Program log: insufficient funds"] |} |}.

(** A backend that rejects every invocation. *)
Definition program_rejecting : Program :=
  {| rpc := fun _ => Err program_error;
     ticket_fetch := fun _ => Ok (ticket_for E1 false) |}.

(** The same session with both refresh operations failing. *)
Definition with_failing_refresh (w : World) : World :=
  {| wallet := wallet w; program := program w; events := events w;
     refreshEvents := Err (Error "Failed to fetch");
     tickets := tickets w;
     refreshTickets := Err (Error "Failed to fetch");
     getMinimumBalanceForRentExemption := getMinimumBalanceForRentExemption w;
     getAssociatedTokenAddress := getAssociatedTokenAddress w;
     Keypair_generate := Keypair_generate w; Date_now := Date_now w;
     window_location_href := window_location_href w |}.

(** The organizer's session: wallet connected, backend reachable, both
    events loaded. *)
Definition organizer_world (t : TicketData) : World :=
  world_of (Some organizer) (Ok "setup-sig") (Some (program_serving t))
           [event1; event2] None.

(** The same session for a wallet that did not organise the events. *)
Definition attendee_world (t : TicketData) : World :=
  world_of (Some attendee) (Ok "setup-sig") (Some (program_serving t))
           [event1; event2] None.

(** The two submissions of the attendee joining the first event. *)
Definition join_setup_call : Call :=
  let mintAuth := deriveMintAuthPda solana fresh_mint in
  let ata := N.lxor fresh_mint attendee in
  call_sendTransaction
    (setupTx solana attendee fresh_mint mintAuth ata (of_Z 1461600))
    [fresh_mint] fulfilled.

Definition join_call : Call :=
  call_rpc (joinEvent attendee E1 (deriveTicketPda solana E1 attendee)
                      fresh_mint (deriveMintAuthPda solana fresh_mint)
                      (N.lxor fresh_mint attendee)
                      (TOKEN_PROGRAM_ID solana)
                      (ASSOCIATED_TOKEN_PROGRAM_ID solana)
                      (SystemProgram_programId solana))
           fulfilled.

End Samples.

(* ================================================================== *)
(** * Notions the specification uses *)
(* ================================================================== *)

(** A valid identifier is a non-empty text in the base58 alphabet; every
    text [PublicKey] accepts is one. *)
Definition valid_identifier (id : string) : Prop :=
  id <> EmptyString /\ JsString.forallb Base58.is_digit id = true.


(** A blank text: white-space characters and nothing else. *)
Inductive blank : string -> Prop :=
| blank_empty : blank EmptyString
| blank_more (w s : string) : In w white_space -> blank s -> blank (w ++ s).

(** The text [w] occurs in the text [t]. *)
Definition occurs (w t : string) : Prop := exists a b, t = a ++ w ++ b.

(** The characters at which the [ticket=] rule of the extractor cuts. *)
Definition separators : list string := ["&"; "#"; "?"] ++ white_space.

(** Whether a text starts with a number as [parseFloat] reads one: after
    an optional sign, [Infinity], a decimal digit, or a dot followed by a
    decimal digit. *)
Definition is_decimal_digit (c : ascii) : bool :=
  (48 <=? N_of_ascii c)%N && (N_of_ascii c <=? 57)%N.

Definition starts_with_digit (s : string) : bool :=
  match s with String c _ => is_decimal_digit c | EmptyString => false end.

Definition starts_with_number (s : string) : bool :=
  let unsigned := match s with
                  | String "+"%char r => r
                  | String "-"%char r => r
                  | _ => s
                  end in
  startsWith unsigned "Infinity"
  || match unsigned with
     | String c r =>
         is_decimal_digit c || (Ascii.eqb c "." && starts_with_digit r)
     | EmptyString => false
     end.

(** Whether a text put after decimal digits could change the number read
    from them: it starts with a digit, a dot or an exponent mark. *)
Definition continues_number (rest : string) : bool :=
  starts_with_digit rest
  || startsWith rest "." || startsWith rest "e" || startsWith rest "E".

(** The integer a text of decimal digits spells, after [acc]. *)
Fixpoint decimal_value (acc : Z) (digits : string) : Z :=
  match digits with
  | EmptyString => acc
  | String c r => decimal_value (10 * acc + (Z.of_N (N_of_ascii c) - 48)) r
  end.

(** A submission is a transaction handed to the wallet or an invocation of
    the backend program. *)
Definition is_submission (c : Call) : bool :=
  match c with
  | call_sendTransaction _ _ _ => true
  | call_rpc _ _ => true
  | _ => false
  end.

Definition no_submission (l : list Call) : Prop :=
  List.forallb (fun c => negb (is_submission c)) l = true.

Definition is_join (c : Call) : bool :=
  match c with
  | call_rpc (joinEvent _ _ _ _ _ _ _ _ _) _ => true
  | _ => false
  end.

Definition is_setup_fulfilled (c : Call) : bool :=
  match c with
  | call_sendTransaction
      [createAccount _ _ _ _ _; initializeMint _ _ _ _;
       createAssociatedTokenAccount _ _ _ _] _ fulfilled => true
  | _ => false
  end.


(** Scans a log: every join invocation comes after a set-up transaction
    whose promise was fulfilled. *)
Fixpoint join_follows_setup (setup_done : bool) (l : list Call) : bool :=
  match l with
  | [] => true
  | c :: rest =>
      if is_join c then setup_done && join_follows_setup setup_done rest
      else join_follows_setup (setup_done || is_setup_fulfilled c) rest
  end.

(** ** Confirmation of a transaction

    [wallet.sendTransaction] resolves with the signature of the transaction
    once the wallet has sent it.  That the cluster has confirmed the
    transaction is learnt by asking for it ([connection.confirmTransaction]),
    which the component never does: it makes no other calls than those of
    [Call].  What happens when a handler runs against the cluster is
    therefore its log of calls with the confirmations of the transactions
    it sent placed among them, each at some time after the sending. *)
Inductive Event : Type :=
| handler_calls (c : Call)
| cluster_confirms (sent_by : nat).

(** The log of the handler in a run; [cluster_confirms n] is the
    confirmation of the transaction sent by call number [n] of that log,
    counted from 0. *)
Fixpoint calls_in (run : list Event) : list Call :=
  match run with
  | [] => []
  | handler_calls c :: rest => c :: calls_in rest
  | cluster_confirms _ :: rest => calls_in rest
  end.

(** Whether every confirmation of a run comes after the fulfilled
    [sendTransaction] it confirms; [made] holds the calls made so far. *)
Fixpoint confirmations_follow_sending (made : list Call) (run : list Event) : bool :=
  match run with
  | [] => true
  | handler_calls c :: rest => confirmations_follow_sending (made ++ [c])%list rest
  | cluster_confirms n :: rest =>
      match nth_error made n with
      | Some (call_sendTransaction _ _ fulfilled) =>
          confirmations_follow_sending made rest
      | _ => false
      end
  end.

Definition is_run (log : list Call) (run : list Event) : Prop :=
  calls_in run = log /\ confirmations_follow_sending [] run = true.

(** Scans a run: every join invocation comes after the confirmation of a
    set-up transaction. *)
Fixpoint join_follows_confirmation (made : list Call) (setup_confirmed : bool)
         (run : list Event) : bool :=
  match run with
  | [] => true
  | handler_calls c :: rest =>
      if is_join c
      then setup_confirmed
           && join_follows_confirmation (made ++ [c])%list setup_confirmed rest
      else join_follows_confirmation (made ++ [c])%list setup_confirmed rest
  | cluster_confirms n :: rest =>
      let is_setup := match nth_error made n with
                      | Some c => is_setup_fulfilled c
                      | None => false
                      end in
      join_follows_confirmation made (setup_confirmed || is_setup) rest
  end.

(** The attendee joins the first sample event, and the cluster confirms
    the set-up transaction (call number 2) after the join invocation (call
    number 4) was made. *)
Definition join_run_confirmed_late : list Event :=
  [ handler_calls (call_getMinimumBalanceForRentExemption 82 fulfilled);
    handler_calls (call_getAssociatedTokenAddress Samples.fresh_mint
                                                  Samples.attendee fulfilled);
    handler_calls Samples.join_setup_call;
    handler_calls (call_console console_log "Mint + ATA setup tx:");
    handler_calls Samples.join_call;
    cluster_confirms 2;
    handler_calls (call_refreshTickets fulfilled) ].

(** The derivation of the specification: a tag, then the seeds, under the
    program id. *)
Definition derive (P : Platform) (tag : string) (seeds : list bytes) : PublicKey :=
  fst (findProgramAddressSync P (utf8 P tag :: seeds) (PROGRAM_ID P)).

(** The state cells once a deep link has led to its ticket and to the
    event that owns it, the events collection not being loaded yet. *)
Definition parent_resolved (ticketText : string) (eventKey : PublicKey) : AppState :=
  {| txStatus := None; mainTab := explore; manageTab := create;
     selectedEvent := None; deepLinkTicket := Some ticketText;
     deepLinkEventPubkey := Some eventKey |}.

(** Two states that differ at most in the status banner. *)
Definition same_but_status (a b : AppState) : Prop :=
  mainTab a = mainTab b /\ manageTab a = manageTab b
  /\ selectedEvent a = selectedEvent b
  /\ deepLinkTicket a = deepLinkTicket b
  /\ deepLinkEventPubkey a = deepLinkEventPubkey b.

Definition is_rpc (c : Call) : bool :=
  match c with call_rpc _ _ => true | _ => false end.

Definition is_sendTransaction (c : Call) : bool :=
  match c with call_sendTransaction _ _ _ => true | _ => false end.

Definition is_refresh (c : Call) : bool :=
  match c with
  | call_refreshEvents _ | call_refreshTickets _ => true
  | _ => false
  end.

(** The banner [handleError] writes for a thrown value. *)
Definition failure_banner (e : JsError) : string :=
  "âŒ " ++ error_baseMsg e
  ++ match error_logs e with
     | Some _ => " (see console for program logs)"
     | None => ""
     end.

(** The [deepLinkTicket] property handed to the details panel by
    [renderMainContent]: [None] when the panel is not rendered (another
    tab, or no event selected), otherwise the deep-linked ticket when the
    selected event is the one the ticket belongs to, and [null] if not. *)
Definition detailsPanel_deepLinkTicket (st : AppState) : option (option string) :=
  match mainTab st, selectedEvent st with
  | explore, Some selected =>
      Some match deepLinkTicket st, deepLinkEventPubkey st with
           | Some ticketText, Some eventKey =>
               if negb (is_empty ticketText)
                  && PublicKey_equals (ev_pubkey selected) eventKey
               then Some ticketText else None
           | _, _ => None
           end
  | _, _ => None
  end.

(** The ticket parameter the URL of the page carries, when the page has a
    URL the parser accepts and the parameter is there and not empty. *)
Definition page_ticket (P : Platform) (w : World) : option string :=
  match window_location_href w with
  | None => None
  | Some href =>
      match URL_new P href with
      | None => None
      | Some url =>
          match URLSearchParams_get (searchParams url) "ticket" with
          | Some ticketParam =>
              if is_empty ticketParam then None else Some ticketParam
          | None => None
          end
      end
  end.

(** A component whose deep-link cells and banner are untouched. *)
Definition inert (c : Component) : Prop :=
  deepLinkTicket (state c) = None /\ deepLinkEventPubkey (state c) = None
  /\ txStatus (state c) = None.
(* ================================================================== *)
(** * Properties *)
(* ================================================================== *)

(** ** Characters and strings *)

Section StringFacts.

Implicit Types (s t : string) (c : ascii) (p q : ascii -> bool).



Lemma is_empty_false s : s <> EmptyString -> is_empty s = false.
Proof. destruct s; [congruence | reflexivity]. Qed.

Lemma is_empty_app_r s t : is_empty t = false -> is_empty (s ++ t) = false.
Proof. destruct s; simpl; auto. Qed.

(** A byte that starts no white-space character starts no white space. *)
Lemma white_space_length_other c s :
  starts_white_space c = false -> white_space_length (String c s) = 0%nat.
Proof.
  destruct c as [[] [] [] [] [] [] [] []]; intros H;
    solve [reflexivity | discriminate H].
Qed.

Lemma trimStart_other c s :
  starts_white_space c = false -> trimStart (String c s) = String c s.
Proof.
  intros H. unfold trimStart. cbn [skip_white_space].
  rewrite (white_space_length_other _ _ H). reflexivity.
Qed.









Lemma drop_app s t : drop (String.length s) (s ++ t) = t.
Proof. induction s; simpl; auto. Qed.



End StringFacts.

(** ** The reference URL parser on plain text *)

Section UrlFacts.

Implicit Types (s t : string) (c : ascii) (p : ascii -> bool).







End UrlFacts.

(** ** Identifiers *)












(** Every text that [PublicKey] accepts is a valid identifier. *)
Lemma value_digits s : forall acc n,
  Base58.value acc s = Some n -> JsString.forallb Base58.is_digit s = true.
Proof.
  induction s as [|c s IH]; intros acc n; simpl; [reflexivity|].
  unfold Base58.is_digit. destruct (Base58.digit c) as [d|]; [|discriminate].
  intros H. simpl. eapply IH, H.
Qed.

Lemma PublicKey_new_valid id k : PublicKey_new id = Some k -> valid_identifier id.
Proof.
  unfold PublicKey_new, Base58.decode.
  destruct (Base58.value 0 id) as [n|] eqn:E; [|discriminate].
  intros H. split.
  - intros ->. simpl in E. injection E as <-. discriminate H.
  - eapply value_digits, E.
Qed.

Section ExtractorFacts.

Variable P : Platform.




End ExtractorFacts.




(** ** Numbers *)

Lemma den_pos e : e < 0 -> 0 < den e.
Proof. intros H. unfold den. apply Z.pow_pos_nonneg; lia. Qed.

Lemma not_integral_neg s m e : is_integral (S754_finite s m e) = false -> e < 0 /\ Zpos m mod den e <> 0.
Proof.
  simpl. intros H. apply orb_false_iff in H as [H1 H2].
  apply Z.leb_gt in H1. apply Z.eqb_neq in H2. auto.
Qed.

Lemma floorZ_spec s m e :
  is_integral (S754_finite s m e) = false ->
  floorZ s m e * den e <= num s m < (floorZ s m e + 1) * den e.
Proof.
  intros H. apply not_integral_neg in H as [He _].
  pose proof (den_pos e He) as D. unfold floorZ.
  pose proof (Z.mul_div_le (num s m) (den e) D).
  pose proof (Z.mul_succ_div_gt (num s m) (den e) D). lia.
Qed.

Lemma floorZ_trunc_nonneg m e : e < 0 -> floorZ false m e = truncZ false m e.
Proof.
  intros He. unfold floorZ, truncZ, num. simpl.
  symmetry. apply Z.quot_div_nonneg; [lia | apply den_pos, He].
Qed.

Lemma floorZ_trunc_neg m e :
  is_integral (S754_finite true m e) = false ->
  floorZ true m e = truncZ true m e - 1.
Proof.
  intros H. apply not_integral_neg in H as [He Hm].
  pose proof (den_pos e He) as D.
  unfold floorZ, truncZ, num. simpl.
  change (Z.neg m) with (- Z.pos m).
  rewrite Z.quot_opp_l by lia.
  rewrite Z.quot_div_nonneg by lia.
  rewrite Z.div_opp_l_nz by lia. lia.
Qed.

Lemma roundZ_spec s m e :
  is_integral (S754_finite s m e) = false ->
  - den e <= 2 * (num s m - roundZ s m e * den e) < den e.
Proof.
  intros H. apply not_integral_neg in H as [He _].
  pose proof (den_pos e He) as D. unfold roundZ.
  assert (D2 : 0 < 2 * den e) by lia.
  pose proof (Z.mul_div_le (2 * num s m + den e) (2 * den e) D2).
  pose proof (Z.mul_succ_div_gt (2 * num s m + den e) (2 * den e) D2). lia.
Qed.

Lemma mul_one_l s m e :
  valid_binary prec emax (S754_finite s m e) = true ->
  mul one (S754_finite s m e) = S754_finite s m e.
Proof.
  intros V. simpl in V. unfold bounded, canonical_mantissa in V.
  apply andb_true_iff in V as [C B]. apply Z.eqb_eq in C.
  unfold mul, one, SFmul. cbn [xorb].
  unfold binary_round_aux.
  assert (F : shr_fexp prec emax (Z.pos (4503599627370496 * m)) (-52 + e) loc_Exact
              = ({| shr_m := Zpos m; shr_r := false; shr_s := false |}, e)).
  { unfold shr_fexp.
    assert (Dg : Zdigits2 (Z.pos (4503599627370496 * m)) = Zpos (digits2_pos m) + 52).
    { cbn. lia. }
    rewrite Dg.
    replace (Z.pos (digits2_pos m) + 52 + (-52 + e)) with (Z.pos (digits2_pos m) + e) by lia.
    rewrite C. replace (e - (-52 + e)) with 52 by lia.
    unfold shr. replace (-52 + e + 52) with e by lia. reflexivity. }
  rewrite F. cbn [shr_m loc_of_shr_record round_nearest_even].
  unfold shr_fexp. cbn [Zdigits2]. rewrite C, Z.sub_diag.
  cbn [shr shr_record_of_loc shr_m]. rewrite B. reflexivity.
Qed.

(** ** Running a handler *)

(** Unfolds the monad down to case analyses on what the outside answers. *)
Ltac run :=
  unfold calls_of, state_after, no_submission;
  cbv beta delta
    [bind ret return_ throw try_catch emit attempt await console read
     setTxStatus setMainTab setManageTab setSelectedEvent setDeepLinkTicket
     setDeepLinkEventPubkey handleError generateEventIdBn] iota zeta.

(** Case analysis on every answer the outcome still depends on. *)
Ltac cases :=
  repeat (cbv beta iota zeta delta [negb];
          match goal with
          | |- context [match ?x with _ => _ end] =>
              lazymatch x with
              | context [match _ with _ => _ end] => fail
              | _ => destruct x eqn:?
              end
          end);
  cbv beta iota zeta delta [negb].

Section CreateEvent.

Variable P : Platform.
Variable w : World.

Lemma create_rejected_no_submission price title description st e :
  createEvent_priceLamports P price = Err e ->
  no_submission (calls_of (handleCreateEvent P w price title description) st).
Proof.
  intros H. unfold handleCreateEvent.
  destruct (program w), (publicKey (wallet w)); try reflexivity.
  run. rewrite H.
  destruct (BN_new P (Number_toString P (Date_now w)));
    cbv beta iota zeta; destruct (error_logs _); reflexivity.
Qed.

Lemma create_rejected_status price title description st e prog k id :
  program w = Some prog -> publicKey (wallet w) = Some k ->
  BN_new P (Number_toString P (Date_now w)) = Ok id ->
  createEvent_priceLamports P price = Err e ->
  txStatus (state_after (handleCreateEvent P w price title description) st)
  = Some ("âŒ " ++ error_baseMsg e
          ++ match error_logs e with
             | Some _ => " (see console for program logs)"
             | None => ""
             end).
Proof.
  intros Hp Hk Hid H. unfold handleCreateEvent. rewrite Hp, Hk.
  run. rewrite Hid, H. cbv beta iota zeta.
  destruct (error_logs e); reflexivity.
Qed.

End CreateEvent.

(** ** Create-event: the price *)

(** C4. Price validation of create-event.  The inputs ["-1"] and ["abc"]
    are refused with the domain error "Invalid ticket price", and a refused
    price never leads to a submission: with the backend and the wallet at
    hand the handler ends with that error in the status banner, its log
    free of any transaction or invocation.  The inputs ["1,5"] and ["1.5"]
    are both accepted and convert to the same number of lamports: the
    parsed value 3/2 times the unit scale, rounded to the nearest integer
    (a tie going up), which is 1500000000 at 10^9 lamports per SOL; on
    the reference platform either input makes the handler invoke
    [initEvent] with that price. *)
Theorem create_event_price_validation :
  (forall P, createEvent_priceLamports P "-1" = Err (Error "Invalid ticket price")
             /\ createEvent_priceLamports P "abc" = Err (Error "Invalid ticket price"))
  /\ (forall P w price title description st e,
        createEvent_priceLamports P price = Err e ->
        no_submission (calls_of (handleCreateEvent P w price title description) st))
  /\ (forall P w price title description st prog k id,
        program w = Some prog -> publicKey (wallet w) = Some k ->
        BN_new P (Number_toString P (Date_now w)) = Ok id ->
        price = "-1" \/ price = "abc" ->
        txStatus (state_after (handleCreateEvent P w price title description) st)
        = Some "âŒ Invalid ticket price")
  /\ (forall P,
        createEvent_priceLamports P "1,5"
        = Ok (Math_round (mul (parseFloat "1.5") (LAMPORTS_PER_SOL P)))
        /\ createEvent_priceLamports P "1.5" = createEvent_priceLamports P "1,5")
  /\ (parseFloat "1.5" = S754_finite false 6755399441055744 (-52)
      /\ 2 * 6755399441055744 = 3 * 2 ^ 52)
  /\ (forall s m e,
        is_integral (S754_finite s m e) = false ->
        Math_round (S754_finite s m e)
        = (if roundZ s m e =? 0 then S754_zero s else of_Z (roundZ s m e))
        /\ - den e <= 2 * (num s m - roundZ s m e * den e) < den e)
  /\ (createEvent_priceLamports Reference.solana "1,5" = Ok (of_Z 1500000000)
      /\ to_Z (of_Z 1500000000) = Some 1500000000)
  /\ (calls_of (handleCreateEvent Reference.solana
                  (Samples.organizer_world (Samples.ticket_for Samples.E1 false))
                  "1,5" "title" "description") initial_state
      = [ call_rpc
            (initEvent 1700000000000 1500000000 "title" "description"
               Samples.organizer
               (deriveEventPdaFromSigner Reference.solana Samples.organizer
                                         1700000000000)
               (SystemProgram_programId Reference.solana))
            fulfilled;
          call_refreshEvents fulfilled ]
      /\ calls_of (handleCreateEvent Reference.solana
                     (Samples.organizer_world (Samples.ticket_for Samples.E1 false))
                     "1.5" "title" "description") initial_state
         = calls_of (handleCreateEvent Reference.solana
                       (Samples.organizer_world (Samples.ticket_for Samples.E1 false))
                       "1,5" "title" "description") initial_state).
Proof.
  split; [|split; [|split; [|split; [|split; [|split; [|split]]]]]].
  - intros P. split; reflexivity.
  - intros P w price title description st e H.
    eapply create_rejected_no_submission, H.
  - intros P w price title description st prog k id Hp Hk Hid [-> | ->];
      erewrite create_rejected_status by (try eassumption; reflexivity);
      reflexivity.
  - intros P. split; reflexivity.
  - split; reflexivity.
  - intros s m e H. split; [|apply roundZ_spec, H].
    unfold Math_round. rewrite H. reflexivity.
  - split; vm_compute; reflexivity.
  - split; vm_compute; reflexivity.
Qed.

Lemma create_event_price_validation_witness :
  txStatus (state_after
              (handleCreateEvent Reference.solana
                 (Samples.organizer_world (Samples.ticket_for Samples.E1 false))
                 "-1" "title" "description") initial_state)
  = Some "âŒ Invalid ticket price"
  /\ no_submission
       (calls_of
          (handleCreateEvent Reference.solana
             (Samples.organizer_world (Samples.ticket_for Samples.E1 false))
             "-1" "title" "description") initial_state).
Proof.
  split.
  - eapply (proj1 (proj2 (proj2 create_event_price_validation))).
    + reflexivity.
    + reflexivity.
    + vm_compute. reflexivity.
    + left. reflexivity.
  - eapply (proj1 (proj2 create_event_price_validation)). reflexivity.
Defined.
(** ** What [parseFloat] reads *)

Section RoundingFacts.

(** Rounding a non-negative mantissa never gives NaN. *)
Lemma shr_1_nonneg mrs : 0 <= shr_m mrs -> 0 <= shr_m (shr_1 mrs).
Proof.
  destruct mrs as [m r s]. cbn [shr_m shr_1]. intros H.
  destruct m as [|[p|p|]|p]; cbn [shr_m]; lia.
Qed.

Lemma iter_pos_invariant {A} (f : A -> A) (Q : A -> Prop) :
  (forall x, Q x -> Q (f x)) -> forall p x, Q x -> Q (iter_pos f p x).
Proof.
  intros Hf. induction p as [p IH|p IH|]; intros x Hx; cbn [iter_pos]; auto.
Qed.

Lemma shr_nonneg mrs e n : 0 <= shr_m mrs -> 0 <= shr_m (fst (shr mrs e n)).
Proof.
  intros H. unfold shr. destruct n; cbn [fst]; try exact H.
  apply (iter_pos_invariant shr_1 (fun x => 0 <= shr_m x) shr_1_nonneg), H.
Qed.

Lemma shr_fexp_nonneg m e l :
  0 <= m -> 0 <= shr_m (fst (shr_fexp prec emax m e l)).
Proof.
  intros H. unfold shr_fexp. apply shr_nonneg.
  destruct l as [|[]]; exact H.
Qed.

Lemma round_nearest_even_nonneg m l : 0 <= m -> 0 <= round_nearest_even m l.
Proof.
  intros H. unfold round_nearest_even.
  destruct l as [|[]]; try destruct (Z.even m); lia.
Qed.

Lemma binary_round_aux_not_nan sx mx ex lx :
  0 <= mx -> binary_round_aux prec emax sx mx ex lx <> S754_nan.
Proof.
  intros H. unfold binary_round_aux.
  pose proof (shr_fexp_nonneg mx ex lx H) as H1.
  destruct (shr_fexp prec emax mx ex lx) as [mrs1 e1]. cbn [fst] in H1.
  pose proof (shr_fexp_nonneg _ e1 loc_Exact
                (round_nearest_even_nonneg _ (loc_of_shr_record mrs1) H1)) as H2.
  destruct (shr_fexp prec emax _ e1 loc_Exact) as [mrs2 e2]. cbn [fst] in H2.
  destruct (shr_m mrs2); [discriminate | | lia].
  destruct (e2 <=? emax - prec); discriminate.
Qed.

Lemma binary_normalize_not_nan m e sz :
  binary_normalize prec emax m e sz <> S754_nan.
Proof.
  unfold binary_normalize, binary_round.
  destruct m as [|p|p]; [discriminate | |];
    destruct (shl_align _ _ _) as [mz ez]; apply binary_round_aux_not_nan; lia.
Qed.

Lemma SFdiv_finite_not_nan sx mx ex sy my ey :
  SFdiv prec emax (S754_finite sx mx ex) (S754_finite sy my ey) <> S754_nan.
Proof.
  unfold SFdiv, SFdiv_core_binary. cbv zeta.
  match goal with
  | |- context [Z.div_eucl ?a ?b] =>
      assert (Ha : 0 <= a);
      [| pose proof (Z.div_pos a b Ha eq_refl) as Hq; unfold Z.div in Hq;
         destruct (Z.div_eucl a b) as [q r]; apply binary_round_aux_not_nan, Hq ]
  end.
  destruct (_ - _ - _) as [|s|s]; [lia | apply Z.shiftl_nonneg; lia | lia].
Qed.

Lemma of_decimal_not_nan neg mant k : of_decimal neg mant k <> NaN.
Proof.
  unfold of_decimal, NaN. destruct mant as [|m|m]; [discriminate | | discriminate].
  destruct (0 <=? k).
  - apply binary_normalize_not_nan.
  - apply SFdiv_finite_not_nan.
Qed.

End RoundingFacts.

Section ParseFloatFacts.

Implicit Types (s r d rest : string) (c : ascii).

Lemma digit_of_spec c :
  digit_of c = if is_decimal_digit c then Some (Z.of_N (N_of_ascii c) - 48) else None.
Proof. destruct c as [[] [] [] [] [] [] [] []]; reflexivity. Qed.

Lemma read_sign_spec s :
  read_sign s = match s with
                | String c r =>
                    if Ascii.eqb c "-" then (true, r)
                    else if Ascii.eqb c "+" then (false, r) else (false, s)
                | EmptyString => (false, s)
                end.
Proof.
  destruct s as [|c r]; [reflexivity|].
  destruct c as [[] [] [] [] [] [] [] []]; reflexivity.
Qed.

Lemma fraction_spec s (ip : Z) :
  match s with
  | String "."%char r => read_digits r ip 0
  | _ => (ip, 0, s)
  end
  = match s with
    | String c r => if Ascii.eqb c "." then read_digits r ip 0 else (ip, 0, s)
    | EmptyString => (ip, 0, s)
    end.
Proof.
  destruct s as [|c r]; [reflexivity|].
  destruct c as [[] [] [] [] [] [] [] []]; reflexivity.
Qed.

Lemma starts_with_number_spec s :
  starts_with_number s
  = (startsWith (snd (read_sign s)) "Infinity"
     || match snd (read_sign s) with
        | String c r => is_decimal_digit c || (Ascii.eqb c "." && starts_with_digit r)
        | EmptyString => false
        end).
Proof.
  destruct s as [|c r]; [reflexivity|].
  destruct c as [[] [] [] [] [] [] [] []]; reflexivity.
Qed.

(** [read_digits] counts the digits a text starts with. *)
Lemma read_digits_count s : forall acc count v n rest,
  read_digits s acc count = (v, n, rest) ->
  count <= n /\ (starts_with_digit s = true -> count < n)
  /\ (starts_with_digit s = false -> v = acc /\ n = count /\ rest = s).
Proof.
  induction s as [|c s IH]; intros acc count v n rest.
  - cbn [read_digits starts_with_digit]. intros [= <- <- <-].
    repeat split; [lia | discriminate].
  - cbn [read_digits starts_with_digit]. rewrite digit_of_spec.
    destruct (is_decimal_digit c).
    + intros H. destruct (IH _ _ _ _ _ H) as (L & _).
      repeat split; try lia; discriminate.
    + intros [= <- <- <-]. repeat split; [lia | discriminate].
Qed.

(** [parseFloat] is NaN exactly on the texts that do not start with a
    number. *)
Lemma parseFloat_NaN text :
  parseFloat text = NaN <-> starts_with_number (trimStart text) = false.
Proof.
  unfold parseFloat. rewrite starts_with_number_spec.
  destruct (read_sign (trimStart text)) as [neg s1]. cbn [snd].
  destruct (startsWith s1 "Infinity"); [split; discriminate|].
  cbn [orb].
  destruct (read_digits s1 0 0) as [[ip ni] s2] eqn:R1.
  destruct (read_digits_count _ _ _ _ _ _ R1) as (L1 & P1 & Z1).
  rewrite fraction_spec.
  destruct (starts_with_digit s1) eqn:D1.
  - specialize (P1 eq_refl).
    assert (T : match s1 with
                | String c r => is_decimal_digit c || (Ascii.eqb c "." && starts_with_digit r)
                | EmptyString => false
                end = true).
    { destruct s1 as [|c r]; [discriminate D1|]. cbn in D1. rewrite D1. reflexivity. }
    rewrite T. split; [|discriminate]. intros H. exfalso. revert H.
    destruct s2 as [|c r]; [|destruct (Ascii.eqb c ".")].
    + replace (ni + 0 =? 0) with false by (symmetry; apply Z.eqb_neq; lia).
      apply of_decimal_not_nan.
    + destruct (read_digits r ip 0) as [[mant nf] s3] eqn:R2.
      destruct (read_digits_count _ _ _ _ _ _ R2) as (L2 & _).
      replace (ni + nf =? 0) with false by (symmetry; apply Z.eqb_neq; lia).
      apply of_decimal_not_nan.
    + replace (ni + 0 =? 0) with false by (symmetry; apply Z.eqb_neq; lia).
      apply of_decimal_not_nan.
  - destruct (Z1 eq_refl) as (-> & -> & ->).
    destruct s1 as [|c r]; [split; reflexivity|].
    cbn in D1. rewrite D1. cbn [orb].
    destruct (Ascii.eqb c "."); cbn [andb]; [|split; reflexivity].
    destruct (read_digits r 0 0) as [[mant nf] s3] eqn:R2.
    destruct (read_digits_count _ _ _ _ _ _ R2) as (L2 & P2 & Z2).
    destruct (starts_with_digit r).
    + specialize (P2 eq_refl).
      replace (0 + nf =? 0) with false by (symmetry; apply Z.eqb_neq; lia).
      split; [|discriminate]. intros H. exfalso. revert H.
      apply of_decimal_not_nan.
    + destruct (Z2 eq_refl) as (_ & -> & _). split; reflexivity.
Qed.

Lemma decimal_value_nonneg d : forall acc,
  0 <= acc -> JsString.forallb is_decimal_digit d = true ->
  0 <= decimal_value acc d.
Proof.
  induction d as [|c d IH]; intros acc A H; [exact A|].
  cbn [JsString.forallb] in H. apply andb_true_iff in H as [Hc Hd].
  cbn [decimal_value]. apply IH; [|exact Hd].
  unfold is_decimal_digit in Hc. apply andb_true_iff in Hc as [Lo _].
  apply N.leb_le in Lo. lia.
Qed.

Lemma read_digits_all d rest : forall acc count,
  JsString.forallb is_decimal_digit d = true -> starts_with_digit rest = false ->
  read_digits (d ++ rest) acc count
  = (decimal_value acc d, count + Z.of_nat (String.length d), rest).
Proof.
  induction d as [|c d IH]; intros acc count H R.
  - cbn [append decimal_value String.length].
    destruct (read_digits rest acc count) as [[v n] r'] eqn:E.
    destruct (read_digits_count _ _ _ _ _ _ E) as (_ & _ & Z0).
    destruct (Z0 R) as (-> & -> & ->). f_equal. f_equal. lia.
  - cbn [JsString.forallb] in H. apply andb_true_iff in H as [Hc Hd].
    cbn [append read_digits decimal_value String.length].
    rewrite digit_of_spec, Hc, (IH _ _ Hd R). f_equal. f_equal. lia.
Qed.

Lemma digit_plain c :
  is_decimal_digit c = true ->
  starts_white_space c = false /\ Ascii.eqb c "-" = false
  /\ Ascii.eqb c "+" = false /\ Ascii.eqb c "I" = false.
Proof.
  destruct c as [[] [] [] [] [] [] [] []]; intros H;
    solve [repeat split; reflexivity | discriminate H].
Qed.

(** A text that starts with decimal digits is read as the integer they
    spell, whatever follows them, unless it is a further digit, a dot
    or an exponent mark. *)
Lemma parseFloat_digits d rest :
  d <> "" -> JsString.forallb is_decimal_digit d = true ->
  continues_number rest = false ->
  parseFloat (d ++ rest) = of_Z (decimal_value 0 d).
Proof.
  intros N H C.
  assert (R : starts_with_digit rest = false
              /\ match rest with
                 | String c _ => Ascii.eqb c "." = false
                                 /\ (Ascii.eqb c "e" || Ascii.eqb c "E") = false
                 | EmptyString => True
                 end).
  { destruct rest as [|c r]; [split; [reflexivity | exact I]|].
    unfold continues_number in C. cbn [starts_with_digit startsWith] in *.
    rewrite !andb_true_r in C.
    destruct (is_decimal_digit c); [discriminate C|].
    destruct (Ascii.eqb c "."); [discriminate C|].
    destruct (Ascii.eqb c "e"); [discriminate C|].
    destruct (Ascii.eqb c "E"); [discriminate C|]. repeat split. }
  destruct R as (R1 & R2).
  destruct d as [|c d]; [contradiction|].
  pose proof H as H'. cbn [JsString.forallb] in H'.
  apply andb_true_iff in H' as [Hc _].
  destruct (digit_plain _ Hc) as (W & Sm & Sp & Si).
  unfold parseFloat. cbn [append].
  rewrite (trimStart_other _ _ W), read_sign_spec, Sm, Sp.
  cbn [startsWith]. rewrite Si. cbn [andb].
  change (String c (d ++ rest)) with (String c d ++ rest).
  rewrite (read_digits_all _ _ 0 0 H R1), fraction_spec.
  assert (E : match rest with
              | String c0 r => if Ascii.eqb c0 "." then read_digits r (decimal_value 0 (String c d)) 0
                               else (decimal_value 0 (String c d), 0, rest)
              | EmptyString => (decimal_value 0 (String c d), 0, rest)
              end = (decimal_value 0 (String c d), 0, rest)).
  { destruct rest as [|c0 r]; [reflexivity|]. destruct R2 as (-> & _). reflexivity. }
  rewrite E.
  replace (0 + Z.of_nat (String.length (String c d)) + 0 =? 0) with false
    by (symmetry; apply Z.eqb_neq; cbn [String.length]; lia).
  assert (X : read_exponent rest = 0).
  { destruct rest as [|c0 r]; [reflexivity|]. destruct R2 as (_ & Q).
    cbn [read_exponent]. rewrite Q. reflexivity. }
  rewrite X. pose proof (decimal_value_nonneg _ 0 (Z.le_refl 0) H) as V.
  unfold of_decimal, of_Z. cbn [Z.sub Z.opp Z.leb Z.compare].
  destruct (decimal_value 0 (String c d)) as [|m|m]; [reflexivity | | lia].
  cbn [cond_Zopp]. rewrite Z.pow_0_r, Z.mul_1_r. reflexivity.
Qed.

End ParseFloatFacts.

(** ** Withdraw: the amount *)

Section Withdraw.

Variable P : Platform.
Variable w : World.

(** What the handler does with an amount once the event address parsed:
    it hands the rendering of the amount to the big-number constructor
    and invokes the program exactly when the constructor accepts it. *)
Lemma withdraw_calls text amountSol st prog k eventKey :
  program w = Some prog -> publicKey (wallet w) = Some k ->
  PublicKey_parse text = Ok eventKey ->
  match BN_new P (Number_toString P (withdraw_amountLamports P amountSol)) with
  | Err _ => no_submission (calls_of (handleWithdraw P w text amountSol) st)
  | Ok amount =>
      exists s rest,
        calls_of (handleWithdraw P w text amountSol) st
        = call_rpc (withdraw amount k eventKey (SystemProgram_programId P)) s
            :: rest
  end.
Proof.
  intros Hp Hk He. unfold handleWithdraw. rewrite Hp, Hk.
  assert (N : is_empty text = false).
  { destruct text; [discriminate He | reflexivity]. }
  rewrite N. run. rewrite He. cbv beta iota zeta.
  destruct (BN_new P _) as [amount|e]; cbv beta iota zeta.
  - destruct (rpc prog _) as [sig|e]; cbv beta iota zeta;
      [|destruct (error_logs e)]; eexists; eexists; reflexivity.
  - destruct (error_logs e); reflexivity.
Qed.

End Withdraw.

(** C5, as stated, fails.  A non-numeric amount is not treated as zero:
    ["abc"] parses to NaN, the amount computed from it is NaN, and with the
    reference big-number constructor the handler stops on "Invalid
    character" without invoking the program.  Nor is the conversion a
    truncation on negative amounts: ["-0.0005"] at unit scale 1000 is the
    product -1/2, which truncates to 0 and is floored to -1. *)
Lemma withdraw_non_numeric_not_zero :
  parseFloat "abc" = NaN
  /\ withdraw_amountLamports (Reference.platform (of_Z 1000)) "abc" = NaN
  /\ to_Z (withdraw_amountLamports (Reference.platform (of_Z 1000)) "abc") <> Some 0
  /\ calls_of (handleWithdraw Reference.solana
                 (Samples.organizer_world (Samples.ticket_for Samples.E1 false))
                 Samples.E1_text "abc") initial_state
     = [call_console console_error "Raw error object:"]
  /\ txStatus (state_after
                 (handleWithdraw Reference.solana
                    (Samples.organizer_world (Samples.ticket_for Samples.E1 false))
                    Samples.E1_text "abc") initial_state)
     = Some "âŒ Invalid character"
  /\ mul (parseFloat "-0.0005") (of_Z 1000) = S754_finite true 4503599627370496 (-53)
  /\ truncZ true 4503599627370496 (-53) = 0
  /\ to_Z (withdraw_amountLamports (Reference.platform (of_Z 1000)) "-0.0005")
     = Some (-1).
Proof.
  repeat split; try (vm_compute; reflexivity).
  vm_compute. discriminate.
Qed.

(** C5, amended.  For every amount input the number of lamports is
    [Math.floor] of the parsed value times the unit scale: an integral
    product is kept, a fractional one goes down to the integer below,
    which is its truncation when the product is positive and one less when
    it is negative; it is never rounded to nearest, so ["0.999"] at unit
    scale 1000 yields 999.  An empty input is read as ["0"] and gives zero.
    An input parses to NaN exactly when, after leading white space and an
    optional sign, it starts neither with a decimal digit, nor with a dot
    followed by a digit, nor with [Infinity]; when such an input is not
    empty the amount is NaN, which is no integer and not zero, and the
    handler invokes the program only if the big-number constructor accepts
    the rendering of NaN.  An input that starts with decimal digits is read
    as the integer they spell, whatever follows them, unless that is a
    further digit, a dot or an exponent mark: on the reference platform
    ["7 apples"] is withdrawn as 7000000000 lamports and ["0x10"] as 0. *)
Theorem withdraw_amount_conversion :
  (forall P amountSol,
     withdraw_amountLamports P amountSol
     = Math_floor (mul (parseFloat (if is_empty amountSol then "0" else amountSol))
                       (LAMPORTS_PER_SOL P)))
  /\ (forall x, is_integral x = true -> Math_floor x = x)
  /\ (forall s m e,
        is_integral (S754_finite s m e) = false ->
        Math_floor (S754_finite s m e) = of_Z (floorZ s m e)
        /\ floorZ s m e * den e <= num s m < (floorZ s m e + 1) * den e
        /\ floorZ s m e = (if s then truncZ s m e - 1 else truncZ s m e))
  /\ (withdraw_amountLamports (Reference.platform (of_Z 1000)) "0.999" = of_Z 999
      /\ to_Z (of_Z 999) = Some 999)
  /\ (forall P s m e,
        LAMPORTS_PER_SOL P = S754_finite s m e ->
        withdraw_amountLamports P "" = S754_zero s)
  /\ (forall amountSol,
        parseFloat amountSol = NaN
        <-> starts_with_number (trimStart amountSol) = false)
  /\ (forall P amountSol,
        amountSol <> "" -> starts_with_number (trimStart amountSol) = false ->
        withdraw_amountLamports P amountSol = NaN
        /\ to_Z (withdraw_amountLamports P amountSol) = None)
  /\ (forall P w text st prog k eventKey amountSol,
        program w = Some prog -> publicKey (wallet w) = Some k ->
        PublicKey_parse text = Ok eventKey ->
        amountSol <> "" -> starts_with_number (trimStart amountSol) = false ->
        match BN_new P (Number_toString P NaN) with
        | Err _ => no_submission (calls_of (handleWithdraw P w text amountSol) st)
        | Ok amount =>
            exists s rest,
              calls_of (handleWithdraw P w text amountSol) st
              = call_rpc (withdraw amount k eventKey (SystemProgram_programId P)) s
                  :: rest
        end)
  /\ (forall P d rest,
        d <> "" -> JsString.forallb is_decimal_digit d = true ->
        continues_number rest = false ->
        parseFloat (d ++ rest) = of_Z (decimal_value 0 d)
        /\ withdraw_amountLamports P (d ++ rest)
           = Math_floor (mul (of_Z (decimal_value 0 d)) (LAMPORTS_PER_SOL P)))
  /\ (calls_of (handleWithdraw Reference.solana
                  (Samples.organizer_world (Samples.ticket_for Samples.E1 false))
                  Samples.E1_text "7 apples") initial_state
      = [call_rpc (withdraw 7000000000 Samples.organizer Samples.E1
                            (SystemProgram_programId Reference.solana)) fulfilled]
      /\ calls_of (handleWithdraw Reference.solana
                     (Samples.organizer_world (Samples.ticket_for Samples.E1 false))
                     Samples.E1_text "0x10") initial_state
         = [call_rpc (withdraw 0 Samples.organizer Samples.E1
                               (SystemProgram_programId Reference.solana)) fulfilled]).
Proof.
  assert (N : forall P amountSol,
             amountSol <> "" -> starts_with_number (trimStart amountSol) = false ->
             withdraw_amountLamports P amountSol = NaN).
  { intros P amountSol Hn Hs. unfold withdraw_amountLamports, or_zero.
    rewrite (is_empty_false _ Hn), (proj2 (parseFloat_NaN amountSol) Hs).
    reflexivity. }
  split; [|split; [|split; [|split; [|split; [|split; [|split; [|split; [|split]]]]]]]].
  - reflexivity.
  - intros [s| s | |s m e] H; try reflexivity.
    unfold Math_floor. rewrite H. reflexivity.
  - intros s m e H. split; [|split].
    + unfold Math_floor. rewrite H. reflexivity.
    + apply floorZ_spec, H.
    + destruct s.
      * apply floorZ_trunc_neg, H.
      * apply floorZ_trunc_nonneg. apply (not_integral_neg _ _ _ H).
  - split; vm_compute; reflexivity.
  - intros P s m e H. unfold withdraw_amountLamports. rewrite H. reflexivity.
  - apply parseFloat_NaN.
  - intros P amountSol Hn Hs. rewrite (N P amountSol Hn Hs). split; reflexivity.
  - intros P w text st prog k eventKey amountSol Hp Hk He Hn Hs.
    pose proof (withdraw_calls P w text amountSol st prog k eventKey Hp Hk He) as H.
    rewrite (N P amountSol Hn Hs) in H. exact H.
  - intros P d rest Hd Hf Hc.
    pose proof (parseFloat_digits d rest Hd Hf Hc) as E. split; [exact E|].
    unfold withdraw_amountLamports, or_zero.
    destruct d as [|c d]; [contradiction|]. cbn [append is_empty].
    cbn [append] in E. rewrite E. reflexivity.
  - split; vm_compute; reflexivity.
Qed.

Lemma withdraw_amount_conversion_witness :
  withdraw_amountLamports Reference.solana "" = zero
  /\ Math_floor (S754_finite true 7 (-2)) = of_Z (-2)
  /\ withdraw_amountLamports Reference.solana " -.x5" = NaN
  /\ no_submission
       (calls_of (handleWithdraw Reference.solana
                    (Samples.organizer_world (Samples.ticket_for Samples.E1 false))
                    Samples.E1_text "abc") initial_state)
  /\ parseFloat "12 SOL" = of_Z 12.
Proof.
  split; [|split; [|split; [|split]]].
  - apply ((proj1 (proj2 (proj2 (proj2 (proj2 withdraw_amount_conversion))))) Reference.solana false 8388608000000000%positive (-23)).
    vm_compute. reflexivity.
  - apply ((proj1 (proj2 (proj2 withdraw_amount_conversion))) true 7%positive (-2)).
    vm_compute. reflexivity.
  - apply ((proj1 (proj2 (proj2 (proj2 (proj2 (proj2 (proj2 withdraw_amount_conversion))))))) Reference.solana " -.x5"); [discriminate | reflexivity].
  - apply ((proj1 (proj2 (proj2 (proj2 (proj2 (proj2 (proj2 (proj2 withdraw_amount_conversion)))))))) Reference.solana
             (Samples.organizer_world (Samples.ticket_for Samples.E1 false))
             Samples.E1_text initial_state
             (Samples.program_serving (Samples.ticket_for Samples.E1 false))
             Samples.organizer Samples.E1 "abc");
      [reflexivity | reflexivity | reflexivity | discriminate | reflexivity].
  - apply ((proj1 (proj2 (proj2 (proj2 (proj2 (proj2 (proj2 (proj2 (proj2 withdraw_amount_conversion))))))))) Reference.solana "12" " SOL");
      [discriminate | reflexivity | reflexivity].
Defined.

(** C10. Withdraw does not turn a comma into a dot.  ["1,5"] parses to 1,
    the digits before the comma, so the amount is the floor of 1 times the
    unit scale, the same as for ["1"]; when the unit scale is a positive
    integer this is the unit scale itself: 10^9 lamports at 10^9 lamports
    per SOL, where ["1.5"] gives 1500000000, and that is the amount the
    handler hands to the [withdraw] invocation.  Create-event, which does
    replace the comma, reads the same ["1,5"] as 1.5. *)
Theorem withdraw_keeps_comma :
  (parseFloat "1,5" = one /\ to_Z one = Some 1)
  /\ (forall P,
        withdraw_amountLamports P "1,5" = Math_floor (mul one (LAMPORTS_PER_SOL P))
        /\ withdraw_amountLamports P "1,5" = withdraw_amountLamports P "1")
  /\ (forall P m e,
        LAMPORTS_PER_SOL P = S754_finite false m e ->
        valid_binary prec emax (S754_finite false m e) = true ->
        is_integral (S754_finite false m e) = true ->
        withdraw_amountLamports P "1,5" = LAMPORTS_PER_SOL P)
  /\ (withdraw_amountLamports Reference.solana "1,5" = of_Z 1000000000
      /\ withdraw_amountLamports Reference.solana "1.5" = of_Z 1500000000
      /\ createEvent_priceLamports Reference.solana "1,5" = Ok (of_Z 1500000000)
      /\ to_Z (of_Z 1000000000) = Some 1000000000
      /\ to_Z (of_Z 1500000000) = Some 1500000000)
  /\ calls_of (handleWithdraw Reference.solana
                 (Samples.organizer_world (Samples.ticket_for Samples.E1 false))
                 Samples.E1_text "1,5") initial_state
     = [call_rpc (withdraw 1000000000 Samples.organizer Samples.E1
                           (SystemProgram_programId Reference.solana)) fulfilled].
Proof.
  split; [|split; [|split; [|split]]].
  - split; reflexivity.
  - intros P. split; reflexivity.
  - intros P m e HL V I.
    change (withdraw_amountLamports P "1,5")
      with (Math_floor (mul one (LAMPORTS_PER_SOL P))).
    rewrite HL, (mul_one_l _ _ _ V). unfold Math_floor. rewrite I. reflexivity.
  - repeat split; vm_compute; reflexivity.
  - vm_compute. reflexivity.
Qed.

Lemma withdraw_keeps_comma_witness :
  withdraw_amountLamports Reference.solana "1,5" = LAMPORTS_PER_SOL Reference.solana.
Proof.
  apply (proj1 (proj2 (proj2 withdraw_keeps_comma))
           Reference.solana 8388608000000000%positive (-23));
    vm_compute; reflexivity.
Defined.

(** ** The guard of every handler *)

(** C9. Each of the five action handlers returns at once when the backend
    program handle or the wallet public key is missing: it makes no call
    at all, so submits nothing, and leaves every state cell, the status
    banner included, as it found it. *)
Theorem handlers_need_program_and_wallet :
  forall P w st,
    program w = None \/ publicKey (wallet w) = None ->
    (forall priceSol title description,
        handleCreateEvent P w priceSol title description st = (Returned, st, []))
    /\ (forall eventPubkey, handleJoinEvent P w eventPubkey st = (Returned, st, []))
    /\ (forall eventPubkey amountSol,
           handleWithdraw P w eventPubkey amountSol st = (Returned, st, []))
    /\ (forall ticket event, handleCheckIn P w ticket event st = (Returned, st, []))
    /\ (forall ticketAddress event,
           handleOrganizerCheckInByAddress P w ticketAddress event st
           = (Returned, st, [])).
Proof.
  intros P w st H.
  unfold handleCreateEvent, handleJoinEvent, handleWithdraw, handleCheckIn,
    handleOrganizerCheckInByAddress.
  destruct H as [-> | H].
  - repeat split; reflexivity.
  - rewrite H. destruct (program w); repeat split; reflexivity.
Qed.

Lemma handlers_need_program_and_wallet_witness :
  handleWithdraw Reference.solana
    (Samples.world_of None (Ok "sig")
       (Some (Samples.program_serving (Samples.ticket_for Samples.E1 false)))
       [Samples.event1] None)
    Samples.E1_text "1" initial_state
  = (Returned, initial_state, []).
Proof.
  exact (proj1 (proj2 (proj2
           (handlers_need_program_and_wallet Reference.solana
              (Samples.world_of None (Ok "sig")
                 (Some (Samples.program_serving (Samples.ticket_for Samples.E1 false)))
                 [Samples.event1] None)
              initial_state (or_intror eq_refl))))
           Samples.E1_text "1").
Defined.

(** ** Join-event: set-up first *)

Lemma join_follows_setup_split l :
  forall done,
    join_follows_setup done l = true ->
    forall pre c post,
      l = (pre ++ c :: post)%list -> is_join c = true ->
      (done || existsb is_setup_fulfilled pre) = true.
Proof.
  induction l as [|a l IH]; intros done H pre c post E Hc.
  - destruct pre; discriminate E.
  - destruct pre as [|b pre]; simpl in E; injection E as <- ->.
    + simpl in H. rewrite Hc in H. apply andb_true_iff in H as [H _].
      rewrite H. reflexivity.
    + simpl in H. destruct (is_join a).
      * apply andb_true_iff in H as [D H]. rewrite D. reflexivity.
      * specialize (IH _ H pre c post eq_refl Hc).
        simpl. rewrite orb_assoc. exact IH.
Qed.

Lemma join_follows_setup_none l :
  forall done,
    List.forallb (fun c => negb (is_join c)) l = true ->
    join_follows_setup done l = true.
Proof.
  induction l as [|a l IH]; intros done H; simpl; [reflexivity|].
  simpl in H. apply andb_true_iff in H as [Ha H].
  apply negb_true_iff in Ha. rewrite Ha. apply IH, H.
Qed.

Section JoinEvent.

Variable P : Platform.
Variable w : World.

Lemma join_log_ordered text st :
  join_follows_setup false (calls_of (handleJoinEvent P w text) st) = true.
Proof.
  unfold handleJoinEvent.
  destruct (program w) as [prog|], (publicKey (wallet w)) as [user|];
    try reflexivity.
  destruct (is_empty text); [reflexivity|].
  run. cases; reflexivity.
Qed.

Lemma join_log_rejected text st :
  (exists tx signers,
      In (call_sendTransaction tx signers rejected)
         (calls_of (handleJoinEvent P w text) st))
  \/ (forall tx signers, exists e, sendTransaction (wallet w) tx signers = Err e) ->
  existsb is_join (calls_of (handleJoinEvent P w text) st) = false.
Proof.
  unfold handleJoinEvent.
  destruct (program w) as [prog|], (publicKey (wallet w)) as [user|];
    try reflexivity.
  destruct (is_empty text); [reflexivity|].
  run. cases; try reflexivity;
    (intros [(tx & signers & H) | H];
     [ exfalso; simpl in H; intuition discriminate
     | exfalso;
       match goal with
       | S : sendTransaction (wallet w) ?tx ?sg = Ok _ |- _ =>
           destruct (H tx sg) as [err E]; rewrite S in E; discriminate E
       end ]).
Qed.

End JoinEvent.

(** C1, as stated, fails.  The handler awaits [wallet.sendTransaction],
    which tells that the set-up transaction was sent, and then invokes
    [joinEvent] without asking whether the set-up was confirmed.  For an
    attendee joining the first sample event the log is: rent query,
    associated-address query, the set-up transaction (fulfilled), a console
    line, the join invocation, the refresh.  The run in which the cluster
    confirms the set-up (call number 2) only after the join invocation
    (call number 4) is a run of this log, and in it the join is submitted
    before the set-up has been confirmed. *)
Lemma join_before_setup_confirmed :
  calls_of
    (handleJoinEvent Reference.solana
       (Samples.attendee_world (Samples.ticket_for Samples.E1 false))
       Samples.E1_text) initial_state
  = [ call_getMinimumBalanceForRentExemption 82 fulfilled;
      call_getAssociatedTokenAddress Samples.fresh_mint Samples.attendee fulfilled;
      Samples.join_setup_call;
      call_console console_log "Mint + ATA setup tx:";
      Samples.join_call;
      call_refreshTickets fulfilled ]
  /\ is_setup_fulfilled Samples.join_setup_call = true
  /\ is_join Samples.join_call = true
  /\ is_run
       (calls_of
          (handleJoinEvent Reference.solana
             (Samples.attendee_world (Samples.ticket_for Samples.E1 false))
             Samples.E1_text) initial_state)
       join_run_confirmed_late
  /\ join_follows_confirmation [] false join_run_confirmed_late = false.
Proof.
  repeat split; vm_compute; reflexivity.
Qed.

(** ** Runs and confirmations *)

Lemma calls_in_handler l : calls_in (map handler_calls l) = l.
Proof. induction l as [|c l IH]; simpl; congruence. Qed.

Lemma calls_in_app r1 r2 : calls_in (r1 ++ r2) = (calls_in r1 ++ calls_in r2)%list.
Proof.
  induction r1 as [|[c|n] r1 IH]; simpl; congruence.
Qed.

Lemma confirmations_follow_handler l : forall made,
  confirmations_follow_sending made (map handler_calls l) = true.
Proof. induction l as [|c l IH]; intros made; simpl; auto. Qed.

Lemma confirmations_follow_app l rest : forall made,
  confirmations_follow_sending made (map handler_calls l ++ rest)
  = confirmations_follow_sending (made ++ l)%list rest.
Proof.
  induction l as [|c l IH]; intros made; simpl.
  - rewrite List.app_nil_r. reflexivity.
  - rewrite IH, <- List.app_assoc. reflexivity.
Qed.

Lemma join_unconfirmed l c rest : forall made,
  is_join c = true ->
  join_follows_confirmation made false
    (map handler_calls l ++ handler_calls c :: rest) = false.
Proof.
  induction l as [|a l IH]; intros made Hc; simpl.
  - rewrite Hc. reflexivity.
  - destruct (is_join a); [reflexivity | apply IH, Hc].
Qed.

Lemma setup_fulfilled_shape c :
  is_setup_fulfilled c = true ->
  exists tx signers, c = call_sendTransaction tx signers fulfilled.
Proof.
  destruct c as [| |tx signers s| | | | |]; try discriminate.
  destruct s; [intros _; exists tx, signers; reflexivity|].
  destruct tx as [|[] [|[] [|[] [|]]]]; discriminate.
Qed.

Lemma setup_fulfilled_found l :
  existsb is_setup_fulfilled l = true ->
  exists n tx signers,
    nth_error l n = Some (call_sendTransaction tx signers fulfilled)
    /\ is_setup_fulfilled (call_sendTransaction tx signers fulfilled) = true.
Proof.
  induction l as [|a l IH]; [discriminate|].
  simpl. destruct (is_setup_fulfilled a) eqn:E.
  - intros _. destruct (setup_fulfilled_shape _ E) as (tx & signers & ->).
    exists 0%nat, tx, signers. split; [reflexivity | exact E].
  - intros H. destruct (IH H) as (n & tx & signers & Hn & Hs).
    exists (S n), tx, signers. split; [exact Hn | exact Hs].
Qed.

(** C1, amended.  In the join-event flow the join invocation is never
    submitted before the set-up transaction (create the mint account,
    initialize the mint, create the buyer's associated account, in this
    order) has been sent and its awaited promise fulfilled: in the log of
    the handler every join invocation has such a fulfilled set-up before
    it.  When the set-up submission is rejected, the handler issues no join
    invocation.  The handler asks for no confirmation: whenever it
    submits the join, the run in which the cluster confirms the set-up
    only after that is one of its runs. *)
Theorem join_only_after_setup :
  forall P w eventPubkey st,
    (forall pre c post,
        calls_of (handleJoinEvent P w eventPubkey) st = (pre ++ c :: post)%list ->
        is_join c = true ->
        existsb is_setup_fulfilled pre = true)
    /\ ((exists tx signers,
            In (call_sendTransaction tx signers rejected)
               (calls_of (handleJoinEvent P w eventPubkey) st))
        \/ (forall tx signers, exists e,
               sendTransaction (wallet w) tx signers = Err e) ->
        existsb is_join (calls_of (handleJoinEvent P w eventPubkey) st) = false)
    /\ (forall pre c post,
        calls_of (handleJoinEvent P w eventPubkey) st = (pre ++ c :: post)%list ->
        is_join c = true ->
        exists n setup,
          nth_error pre n = Some setup /\ is_setup_fulfilled setup = true
          /\ is_run (calls_of (handleJoinEvent P w eventPubkey) st)
               (map handler_calls pre
                ++ handler_calls c :: cluster_confirms n :: map handler_calls post)
          /\ join_follows_confirmation [] false
               (map handler_calls pre
                ++ handler_calls c :: cluster_confirms n :: map handler_calls post)
             = false).
Proof.
  intros P w text st.
  assert (A : forall pre c post,
             calls_of (handleJoinEvent P w text) st = (pre ++ c :: post)%list ->
             is_join c = true -> existsb is_setup_fulfilled pre = true).
  { intros pre c post E Hc.
    exact (join_follows_setup_split _ false (join_log_ordered P w text st)
             pre c post E Hc). }
  split; [exact A | split].
  - apply join_log_rejected.
  - intros pre c post E Hc.
    destruct (setup_fulfilled_found _ (A pre c post E Hc))
      as (n & tx & signers & Hn & Hs).
    exists n, (call_sendTransaction tx signers fulfilled).
    split; [exact Hn | split; [exact Hs | split]].
    + split.
      * rewrite calls_in_app, calls_in_handler. cbn [calls_in].
        rewrite calls_in_handler. symmetry. exact E.
      * rewrite confirmations_follow_app. cbn [confirmations_follow_sending app].
        rewrite (nth_error_app1 _ _ (proj1 (nth_error_Some pre n)
                                       ltac:(rewrite Hn; discriminate))).
        rewrite Hn. apply confirmations_follow_handler.
    + apply join_unconfirmed, Hc.
Qed.

Lemma join_only_after_setup_witness :
  existsb is_join
    (calls_of
       (handleJoinEvent Reference.solana
          (Samples.world_of (Some Samples.attendee)
             (Err (Error "User rejected the request"))
             (Some (Samples.program_serving (Samples.ticket_for Samples.E1 false)))
             [Samples.event1] None)
          Samples.E1_text) initial_state) = false
  /\ existsb is_setup_fulfilled
       (firstn 4
          (calls_of
             (handleJoinEvent Reference.solana
                (Samples.attendee_world (Samples.ticket_for Samples.E1 false))
                Samples.E1_text) initial_state)) = true
  /\ exists n setup,
       nth_error
         (firstn 4
            (calls_of
               (handleJoinEvent Reference.solana
                  (Samples.attendee_world (Samples.ticket_for Samples.E1 false))
                  Samples.E1_text) initial_state)) n = Some setup
       /\ is_setup_fulfilled setup = true.
Proof.
  split; [|split].
  - apply (proj1 (proj2 (join_only_after_setup Reference.solana _ Samples.E1_text
                           initial_state))).
    right. intros tx signers. eexists. reflexivity.
  - eapply (proj1 (join_only_after_setup Reference.solana
                     (Samples.attendee_world (Samples.ticket_for Samples.E1 false))
                     Samples.E1_text initial_state)).
    + vm_compute. reflexivity.
    + reflexivity.
  - destruct (proj2 (proj2 (join_only_after_setup Reference.solana
                     (Samples.attendee_world (Samples.ticket_for Samples.E1 false))
                     Samples.E1_text initial_state))
                (firstn 4
                   (calls_of
                      (handleJoinEvent Reference.solana
                         (Samples.attendee_world (Samples.ticket_for Samples.E1 false))
                         Samples.E1_text) initial_state))
                Samples.join_call
                [call_refreshTickets fulfilled]
                ltac:(vm_compute; reflexivity) eq_refl)
      as (n & setup & Hn & Hs & _).
    exists n, setup. split; [exact Hn | exact Hs].
Defined.

(** ** Check-in by pasted address *)

Lemma PublicKey_parse_ok text k :
  PublicKey_parse text = Ok k <-> PublicKey_new text = Some k.
Proof.
  unfold PublicKey_parse, PublicKey_new.
  destruct (Base58.decode text) as [[len n]|]; [|split; discriminate].
  destruct (Nat.eqb len PUBLIC_KEY_LENGTH); split; intros H;
    try discriminate H; injection H as <-; reflexivity.
Qed.

Lemma PublicKey_parse_err text :
  PublicKey_new text = None -> exists e, PublicKey_parse text = Err e.
Proof.
  unfold PublicKey_parse. intros H. rewrite H.
  destruct (Base58.decode text); eexists; reflexivity.
Qed.

Section CheckInByAddress.

Variable P : Platform.
Variable w : World.
Variable prog : Program.
Variable walletKey : PublicKey.
Variable event : EventAccount.
Variable raw : string.
Variable st : AppState.

Hypothesis have_program : program w = Some prog.
Hypothesis have_wallet : publicKey (wallet w) = Some walletKey.

Let outcome := handleOrganizerCheckInByAddress P w raw event st.

(** The checks, in the order of the source. *)
Lemma checkin_nothing_extracted :
  falsy (extractTicketAddressFromInput P raw) = true ->
  txStatus (snd (fst outcome))
  = Some "âŒ Could not find a ticket address in the scanned data"
  /\ no_submission (snd outcome).
Proof.
  intros F. subst outcome. unfold handleOrganizerCheckInByAddress.
  rewrite have_program, have_wallet. run. rewrite F.
  destruct (extract_warns P raw); split; reflexivity.
Qed.

Lemma checkin_not_organizer :
  falsy (extractTicketAddressFromInput P raw) = false ->
  PublicKey_equals (ev_organizer event) walletKey = false ->
  txStatus (snd (fst outcome))
  = Some "âŒ Only the event organizer can check in attendees"
  /\ no_submission (snd outcome).
Proof.
  intros F O. subst outcome. unfold handleOrganizerCheckInByAddress.
  rewrite have_program, have_wallet. run. rewrite F, O.
  destruct (extract_warns P raw); split; reflexivity.
Qed.

Section Organizer.

Variable extracted : string.

Hypothesis found : extractTicketAddressFromInput P raw = Some extracted.
Hypothesis found_text : is_empty extracted = false.
Hypothesis is_organizer : PublicKey_equals (ev_organizer event) walletKey = true.


Variable ticketKey : PublicKey.
Hypothesis well_formed : PublicKey_new extracted = Some ticketKey.

Lemma checkin_not_a_ticket e :
  ticket_fetch prog ticketKey = Err e ->
  txStatus (snd (fst outcome))
  = Some "âŒ That account is not a Ticket account for this program"
  /\ no_submission (snd outcome).
Proof.
  intros F. apply PublicKey_parse_ok in well_formed.
  subst outcome. unfold handleOrganizerCheckInByAddress.
  rewrite have_program, have_wallet. run.
  rewrite found. cbn [falsy]. rewrite found_text, is_organizer, well_formed.
  cbv beta iota zeta. rewrite F.
  destruct (extract_warns P raw); split; reflexivity.
Qed.

Variable ticketAcc : TicketData.
Hypothesis fetched : ticket_fetch prog ticketKey = Ok ticketAcc.




End Organizer.

End CheckInByAddress.





(** ** Address derivation *)

Section Derivation.

Variable P : Platform.

Lemma deriveEventPda_is_derive signer eventId :
  deriveEventPdaFromSigner P signer eventId
  = derive P "event" [PublicKey_toBytes signer; bnToLe8 P eventId].
Proof. reflexivity. Qed.

Lemma deriveTicketPda_is_derive eventPda user :
  deriveTicketPda P eventPda user
  = derive P "ticket" [PublicKey_toBytes eventPda; PublicKey_toBytes user].
Proof. reflexivity. Qed.

(** The event address that create-event submits is derived from the
    wallet key and the identifier it submits, whatever the session. *)
Lemma create_event_address w priceSol title description st
      eventId price t d signer event sys s :
  In (call_rpc (initEvent eventId price t d signer event sys) s)
     (calls_of (handleCreateEvent P w priceSol title description) st) ->
  publicKey (wallet w) = Some signer
  /\ BN_new P (Number_toString P (Date_now w)) = Ok eventId
  /\ event = deriveEventPdaFromSigner P signer eventId.
Proof.
  unfold handleCreateEvent.
  destruct (program w) as [prog|]; [|intros []].
  destruct (publicKey (wallet w)) as [k|]; [|intros []].
  run. cases; simpl; intros H; repeat destruct H as [H|H];
    try discriminate H; try contradiction;
    injection H as <- <- <- <- <- <- <- <-; repeat split; reflexivity.
Qed.

(** The ticket address that join-event submits is derived from the event
    it was asked to join and the wallet key, whatever the session. *)
Lemma join_event_address w text st
      signer event ticket mint mintAuthority buyerAta tp atp sys s :
  In (call_rpc (joinEvent signer event ticket mint mintAuthority buyerAta
                          tp atp sys) s)
     (calls_of (handleJoinEvent P w text) st) ->
  publicKey (wallet w) = Some signer
  /\ PublicKey_new text = Some event
  /\ ticket = deriveTicketPda P event signer.
Proof.
  unfold handleJoinEvent.
  destruct (program w) as [prog|]; [|intros []].
  destruct (publicKey (wallet w)) as [user|]; [|intros []].
  destruct (is_empty text); [intros []|].
  run. cases; simpl; intros H; repeat destruct H as [H|H];
    try discriminate H; try contradiction;
    injection H as <- <- <- <- <- <- <- <- <- <-; repeat split;
    try reflexivity;
    match goal with
    | K : PublicKey_parse text = Ok _ |- _ =>
        apply PublicKey_parse_ok in K; exact K
    end.
Qed.

End Derivation.

(** C3. Address derivation is deterministic.  Two derivations with the
    same tag and the same seeds give the same address; the event address is
    the derivation of the tag ["event"] with the organizer's key bytes and
    the event identifier as [bnToLe8] writes it, the ticket address that of
    the tag ["ticket"] with the event's address bytes and the
    participant's key bytes, so each depends on these inputs only.  The
    handlers use them so: whatever the session (wallet calls, backend
    answers, loaded events, freshly generated mint, state cells), the event
    address submitted by create-event is the one derived from the wallet
    key and the submitted identifier, and the ticket address submitted by
    join-event is the one derived from the event joined and the wallet
    key. *)
Theorem derivation_deterministic :
  forall P,
    (forall tag1 tag2 seeds1 seeds2,
        tag1 = tag2 -> seeds1 = seeds2 ->
        derive P tag1 seeds1 = derive P tag2 seeds2)
    /\ (forall signer eventId,
           deriveEventPdaFromSigner P signer eventId
           = derive P "event" [PublicKey_toBytes signer; bnToLe8 P eventId])
    /\ (forall eventPda user,
           deriveTicketPda P eventPda user
           = derive P "ticket" [PublicKey_toBytes eventPda; PublicKey_toBytes user])
    /\ (forall signer1 signer2 id1 id2,
           PublicKey_toBytes signer1 = PublicKey_toBytes signer2 ->
           bnToLe8 P id1 = bnToLe8 P id2 ->
           deriveEventPdaFromSigner P signer1 id1
           = deriveEventPdaFromSigner P signer2 id2)
    /\ (forall event1 event2 user1 user2,
           PublicKey_toBytes event1 = PublicKey_toBytes event2 ->
           PublicKey_toBytes user1 = PublicKey_toBytes user2 ->
           deriveTicketPda P event1 user1 = deriveTicketPda P event2 user2)
    /\ (forall w1 w2 price1 price2 title1 title2 description1 description2 st1 st2
               id1 id2 p1 p2 t1 t2 d1 d2 signer1 signer2 ev1 ev2 sys1 sys2 s1 s2,
           In (call_rpc (initEvent id1 p1 t1 d1 signer1 ev1 sys1) s1)
              (calls_of (handleCreateEvent P w1 price1 title1 description1) st1) ->
           In (call_rpc (initEvent id2 p2 t2 d2 signer2 ev2 sys2) s2)
              (calls_of (handleCreateEvent P w2 price2 title2 description2) st2) ->
           publicKey (wallet w1) = publicKey (wallet w2) ->
           Date_now w1 = Date_now w2 ->
           ev1 = ev2)
    /\ (forall w1 w2 text st1 st2
               signer1 signer2 ev1 ev2 ticket1 ticket2 mint1 mint2 auth1 auth2
               ata1 ata2 tp1 tp2 atp1 atp2 sys1 sys2 s1 s2,
           In (call_rpc (joinEvent signer1 ev1 ticket1 mint1 auth1 ata1
                                   tp1 atp1 sys1) s1)
              (calls_of (handleJoinEvent P w1 text) st1) ->
           In (call_rpc (joinEvent signer2 ev2 ticket2 mint2 auth2 ata2
                                   tp2 atp2 sys2) s2)
              (calls_of (handleJoinEvent P w2 text) st2) ->
           publicKey (wallet w1) = publicKey (wallet w2) ->
           ticket1 = ticket2).
Proof.
  intros P. split; [|split; [|split; [|split; [|split; [|split]]]]].
  - intros tag1 tag2 seeds1 seeds2 -> ->. reflexivity.
  - apply deriveEventPda_is_derive.
  - apply deriveTicketPda_is_derive.
  - intros signer1 signer2 id1 id2 Hs Hi.
    unfold deriveEventPdaFromSigner. rewrite Hs, Hi. reflexivity.
  - intros event1 event2 user1 user2 He Hu.
    unfold deriveTicketPda. rewrite He, Hu. reflexivity.
  - intros w1 w2 price1 price2 title1 title2 description1 description2 st1 st2
           id1 id2 p1 p2 t1 t2 d1 d2 signer1 signer2 ev1 ev2 sys1 sys2 s1 s2
           H1 H2 Hk Hn.
    apply create_event_address in H1 as (K1 & I1 & ->).
    apply create_event_address in H2 as (K2 & I2 & ->).
    rewrite Hk, K2 in K1. rewrite Hn, I2 in I1. congruence.
  - intros w1 w2 text st1 st2
           signer1 signer2 ev1 ev2 ticket1 ticket2 mint1 mint2 auth1 auth2
           ata1 ata2 tp1 tp2 atp1 atp2 sys1 sys2 s1 s2 H1 H2 Hk.
    apply join_event_address in H1 as (K1 & E1 & ->).
    apply join_event_address in H2 as (K2 & E2 & ->).
    rewrite Hk, K2 in K1. rewrite E2 in E1. congruence.
Qed.

Lemma derivation_deterministic_witness :
  deriveEventPdaFromSigner Reference.solana Samples.organizer 1700000000000
  = deriveEventPdaFromSigner Reference.solana Samples.organizer 1700000000000
  /\ derive Reference.solana "ticket"
       [PublicKey_toBytes Samples.E1; PublicKey_toBytes Samples.attendee]
     = deriveTicketPda Reference.solana Samples.E1 Samples.attendee.
Proof.
  split.
  - apply (proj1 (proj2 (proj2 (proj2 (derivation_deterministic Reference.solana)))));
      reflexivity.
  - symmetry.
    apply (proj1 (proj2 (proj2 (derivation_deterministic Reference.solana)))).
Defined.

(** ** The deep link *)

Lemma find_event_some key evs found :
  find_event key evs = Some found -> In found evs /\ ev_pubkey found = key.
Proof.
  unfold find_event. intros H. apply find_some in H as [Hin Heq].
  split; [exact Hin|]. apply N.eqb_eq, Heq.
Qed.

Lemma find_event_none key evs :
  (forall ev, In ev evs -> ev_pubkey ev <> key) -> find_event key evs = None.
Proof.
  intros H. unfold find_event.
  destruct (find _ evs) as [found|] eqn:F; [|reflexivity].
  apply find_some in F as [Hin Heq]. apply N.eqb_eq in Heq.
  destruct (H _ Hin Heq).
Qed.

Lemma find_event_in key evs ev :
  In ev evs -> ev_pubkey ev = key -> exists found, find_event key evs = Some found.
Proof.
  intros Hin Hk. unfold find_event.
  destruct (find _ evs) as [found|] eqn:F; [eauto|].
  pose proof (find_none _ _ F _ Hin) as N. cbv beta in N.
  unfold PublicKey_equals in N. rewrite Hk, N.eqb_refl in N. discriminate N.
Qed.

Lemma unique_address (evs : list EventAccount) a b :
  NoDup (map ev_pubkey evs) -> In a evs -> In b evs ->
  ev_pubkey a = ev_pubkey b -> a = b.
Proof.
  induction evs as [|x evs IH]; simpl; intros D Ha Hb E; [contradiction|].
  inversion D as [|? ? Hx D']; subst.
  destruct Ha as [->|Ha], Hb as [->|Hb]; auto.
  - exfalso. apply Hx. rewrite E. apply in_map, Hb.
  - exfalso. apply Hx. rewrite <- E. apply in_map, Ha.
Qed.

Lemma parse_nonempty text k : PublicKey_new (trim text) = Some k ->
  is_empty text = false /\ is_empty (trim text) = false.
Proof.
  intros H. split.
  - destruct text; [discriminate H | reflexivity].
  - destruct (trim text); [discriminate H | reflexivity].
Qed.

Ltac run_component :=
  unfold run_inputs, step, mount, fetch_stage, run_effect,
    parseDeepLink, fetchDeepLinkTicket, selectDeepLinkEvent;
  cbn [fold_left world state log with_program with_events
       program events window_location_href];
  run.

(** The three effects, one at a time. *)
Lemma parse_effect P w href url ticketParam :
  window_location_href w = Some href ->
  URL_new P href = Some url ->
  URLSearchParams_get (searchParams url) "ticket" = Some ticketParam ->
  is_empty ticketParam = false ->
  parseDeepLink P w initial_state
  = (Normal tt,
     {| txStatus := None; mainTab := explore; manageTab := create;
        selectedEvent := None; deepLinkTicket := Some (trim ticketParam);
        deepLinkEventPubkey := None |}, []).
Proof.
  intros page parsed carries N. unfold parseDeepLink.
  rewrite page, parsed, carries, N. reflexivity.
Qed.

Lemma fetch_effect_idle w st :
  program w = None \/ deepLinkTicket st = None ->
  fetchDeepLinkTicket w st = (Returned, st, []).
Proof.
  unfold fetchDeepLinkTicket. run.
  intros [-> | ->]; [reflexivity|]. destruct (program w); reflexivity.
Qed.

Lemma fetch_effect_ok w st prog text key acc :
  program w = Some prog -> deepLinkTicket st = Some text ->
  PublicKey_new text = Some key -> ticket_fetch prog key = Ok acc ->
  fetchDeepLinkTicket w st
  = (Normal tt,
     {| txStatus := txStatus st; mainTab := mainTab st;
        manageTab := manageTab st; selectedEvent := selectedEvent st;
        deepLinkTicket := Some text;
        deepLinkEventPubkey := Some (td_event acc) |},
     [call_ticket_fetch key fulfilled]).
Proof.
  intros Hp Ht K F. unfold fetchDeepLinkTicket. run. rewrite Hp, Ht.
  assert (N : is_empty text = false) by (destruct text; [discriminate K | reflexivity]).
  apply PublicKey_parse_ok in K. rewrite N, K. cbv beta iota zeta.
  rewrite F. cbn. rewrite Ht. reflexivity.
Qed.

Lemma fetch_effect_failed w st prog text key e :
  program w = Some prog -> deepLinkTicket st = Some text ->
  PublicKey_new text = Some key -> ticket_fetch prog key = Err e ->
  fetchDeepLinkTicket w st
  = (Normal tt,
     {| txStatus := Some "âŒ Invalid or unknown ticket in check-in link";
        mainTab := mainTab st;
        manageTab := manageTab st; selectedEvent := selectedEvent st;
        deepLinkTicket := Some text;
        deepLinkEventPubkey := None |},
     [call_ticket_fetch key rejected;
      call_console console_error
        "[checkin] Failed to fetch ticket account for deep link"]).
Proof.
  intros Hp Ht K F. unfold fetchDeepLinkTicket. run. rewrite Hp, Ht.
  assert (N : is_empty text = false) by (destruct text; [discriminate K | reflexivity]).
  apply PublicKey_parse_ok in K. rewrite N, K. cbv beta iota zeta.
  rewrite F. cbn. rewrite Ht. reflexivity.
Qed.

Lemma select_effect_idle w st :
  deepLinkEventPubkey st = None \/ events w = [] ->
  selectDeepLinkEvent w st = (Returned, st, []).
Proof.
  unfold selectDeepLinkEvent. run.
  intros [-> | ->]; [reflexivity|].
  destruct (deepLinkEventPubkey st); reflexivity.
Qed.

Section DeepLinkResolution.

Variable P : Platform.
Variable w : World.
Variables (href ticketParam : string) (url : URL) (prog : Program).
Variables (T1 E1 : PublicKey) (ticketAcc : TicketData).

Hypothesis page : window_location_href w = Some href.
Hypothesis parsed : URL_new P href = Some url.
Hypothesis carries :
  URLSearchParams_get (searchParams url) "ticket" = Some ticketParam.
Hypothesis well_formed : PublicKey_new (trim ticketParam) = Some T1.
Hypothesis fetched : ticket_fetch prog T1 = Ok ticketAcc.
Hypothesis parent : td_event ticketAcc = E1.
Hypothesis loading : events w = [].

Lemma mount_with_program :
  program w = Some prog ->
  state (mount P w) = parent_resolved (trim ticketParam) E1
  /\ log (mount P w) = [call_ticket_fetch T1 fulfilled].
Proof.
  intros Hp. destruct (parse_nonempty _ _ well_formed) as [N1 _].
  unfold mount, fetch_stage, run_effect, calls_of.
  cbn [world state log].
  rewrite (parse_effect P w _ _ _ page parsed carries N1).
  rewrite (fetch_effect_idle w initial_state (or_intror eq_refl)).
  rewrite (select_effect_idle w initial_state (or_introl eq_refl)).
  cbn [world state log snd fst app deepLinkTicket initial_state was_set].
  erewrite (fetch_effect_ok w _ prog (trim ticketParam) T1 ticketAcc Hp);
    [| reflexivity | exact well_formed | exact fetched].
  cbn [world state log snd fst app deepLinkEventPubkey was_set].
  rewrite (select_effect_idle w _ (or_intror loading)).
  cbn [state log app]. rewrite parent. split; reflexivity.
Qed.

Lemma mount_then_program :
  program w = None ->
  state (step (mount P w) (ProgramChanged (Some prog)))
  = parent_resolved (trim ticketParam) E1
  /\ log (step (mount P w) (ProgramChanged (Some prog)))
     = [call_ticket_fetch T1 fulfilled].
Proof.
  intros Hp. destruct (parse_nonempty _ _ well_formed) as [N1 _].
  unfold step, mount, fetch_stage, run_effect, calls_of.
  cbn [world state log].
  rewrite (parse_effect P w _ _ _ page parsed carries N1).
  rewrite (fetch_effect_idle w initial_state (or_intror eq_refl)).
  rewrite (select_effect_idle w initial_state (or_introl eq_refl)).
  cbn [world state log snd fst app deepLinkTicket initial_state was_set].
  rewrite (fetch_effect_idle w _ (or_introl Hp)).
  cbn [world state log snd fst app deepLinkEventPubkey was_set].
  erewrite (fetch_effect_ok (with_program (Some prog) w) _ prog
              (trim ticketParam) T1 ticketAcc eq_refl);
    [| reflexivity | exact well_formed | exact fetched].
  cbn [world state log snd fst app deepLinkEventPubkey was_set].
  rewrite (select_effect_idle (with_program (Some prog) w) _ (or_intror loading)).
  cbn [state log app]. rewrite parent. split; reflexivity.
Qed.

End DeepLinkResolution.

(** What a new events collection does to a component. *)
Lemma events_changed c evs :
  state (step c (EventsChanged evs))
  = match deepLinkEventPubkey (state c) with
    | None => state c
    | Some key =>
        match find_event key evs with
        | Some found =>
            {| txStatus := txStatus (state c); mainTab := explore;
               manageTab := manageTab (state c); selectedEvent := Some found;
               deepLinkTicket := deepLinkTicket (state c);
               deepLinkEventPubkey := deepLinkEventPubkey (state c) |}
        | None => state c
        end
    end
  /\ log (step c (EventsChanged evs))
     = (log c
        ++ match deepLinkEventPubkey (state c), evs with
           | Some key, _ :: _ =>
               match find_event key evs with
               | Some _ => []
               | None =>
                   [call_console console_warn
                      "[checkin] Deep-linked ticket's event not found in loaded events"]
               end
           | _, _ => []
           end)%list.
Proof.
  run_component.
  destruct (deepLinkEventPubkey (state c)) as [key|] eqn:K; [|split; reflexivity].
  destruct evs as [|ev evs]; [split; reflexivity|].
  cbn [List.length Nat.eqb].
  destruct (find_event key (ev :: evs)); cbn; rewrite ?K; split; reflexivity.
Qed.

(** C7. Deep-link resolution end to end.  The page is loaded from a URL
    carrying [?ticket=T1], the fetch of the ticket returns a record whose
    event field is [E1], and the events collection, empty while loading,
    arrives after that (the backend handle being there at load time or
    coming later).  If the collection contains an event with address [E1],
    the selection is resolved to an event of the collection with that
    address, which is that very event as addresses are unique in the
    collection.  If the collection contains only events other than [E1],
    the selection stays unresolved and no error status is set: the status
    banner is still empty and the only trace is one console warning. *)
Theorem deep_link_resolution :
  forall P w href url ticketParam prog T1 ticketAcc E1 evs c,
    window_location_href w = Some href ->
    URL_new P href = Some url ->
    URLSearchParams_get (searchParams url) "ticket" = Some ticketParam ->
    PublicKey_new (trim ticketParam) = Some T1 ->
    ticket_fetch prog T1 = Ok ticketAcc ->
    td_event ticketAcc = E1 ->
    events w = [] ->
    (program w = Some prog /\ c = run_inputs (mount P w) [EventsChanged evs])
    \/ (program w = None
        /\ c = run_inputs (mount P w)
                 [ProgramChanged (Some prog); EventsChanged evs]) ->
    deepLinkTicket (state c) = Some (trim ticketParam)
    /\ deepLinkEventPubkey (state c) = Some E1
    /\ (forall ev,
          In ev evs -> ev_pubkey ev = E1 ->
          exists found,
            selectedEvent (state c) = Some found
            /\ In found evs /\ ev_pubkey found = E1
            /\ (NoDup (map ev_pubkey evs) -> found = ev))
    /\ ((forall ev, In ev evs -> ev_pubkey ev <> E1) ->
        selectedEvent (state c) = None
        /\ txStatus (state c) = None
        /\ log c
           = call_ticket_fetch T1 fulfilled
               :: match evs with
                  | [] => []
                  | _ :: _ =>
                      [call_console console_warn
                         "[checkin] Deep-linked ticket's event not found in loaded events"]
                  end).
Proof.
  intros P w href url ticketParam prog T1 ticketAcc E1 evs c
         page parsed carries well_formed fetched parent loading H.
  assert (R : exists c0,
             c = step c0 (EventsChanged evs)
             /\ state c0 = parent_resolved (trim ticketParam) E1
             /\ log c0 = [call_ticket_fetch T1 fulfilled]).
  { destruct H as [[Hp ->] | [Hp ->]].
    - exists (mount P w). split; [reflexivity|].
      eapply mount_with_program; eassumption.
    - exists (step (mount P w) (ProgramChanged (Some prog))).
      split; [reflexivity|].
      eapply mount_then_program; eassumption. }
  destruct R as (c0 & -> & S0 & L0).
  destruct (events_changed c0 evs) as [S L].
  rewrite S0 in S, L. cbn [deepLinkEventPubkey parent_resolved] in S, L.
  rewrite L0 in L.
  split; [|split; [|split]].
  - rewrite S. destruct (find_event E1 evs); reflexivity.
  - rewrite S. destruct (find_event E1 evs); reflexivity.
  - intros ev Hin Hk.
    destruct (find_event_in _ _ _ Hin Hk) as [found F].
    rewrite F in S. exists found. rewrite S.
    destruct (find_event_some _ _ _ F) as [Fin Fk].
    repeat split; try assumption.
    intros D. apply (unique_address evs); congruence.
  - intros Hno. rewrite (find_event_none _ _ Hno) in S, L.
    rewrite S, L. repeat split.
Qed.

Lemma deep_link_resolution_witness :
  selectedEvent
    (state (run_inputs
              (mount Reference.solana (Samples.linked_world None))
              [ProgramChanged
                 (Some (Samples.program_serving (Samples.ticket_for Samples.E1 false)));
               EventsChanged [Samples.event2]]))
  = None.
Proof.
  refine (proj1 (proj2 (proj2 (proj2
    (deep_link_resolution Reference.solana (Samples.linked_world None)
       Samples.checkin_link
       {| searchParams := [("ticket", Samples.T1_text)] |}
       Samples.T1_text
       (Samples.program_serving (Samples.ticket_for Samples.E1 false))
       Samples.T1 (Samples.ticket_for Samples.E1 false) Samples.E1
       [Samples.event2] _
       eq_refl _ eq_refl _ eq_refl eq_refl eq_refl
       (or_intror (conj eq_refl eq_refl))))) _)).
  - vm_compute. reflexivity.
  - vm_compute. reflexivity.
  - intros ev [<- | []]. vm_compute. discriminate.
Defined.

(** C8, as stated, fails.  After the deep link is resolved to its parent
    and its selection, a new program handle makes the ticket fetch run
    again; when that fetch fails the resolved parent is reset to null (and
    an error status is set), with no page load in between.  Closing the
    details panel likewise clears the selection. *)
Lemma deep_link_parent_reset :
  deepLinkEventPubkey
    (state (run_inputs
              (mount Reference.solana
                 (Samples.linked_world
                    (Some (Samples.program_serving
                             (Samples.ticket_for Samples.E1 false)))))
              [EventsChanged [Samples.event1]]))
  = Some Samples.E1
  /\ selectedEvent
       (state (run_inputs
                 (mount Reference.solana
                    (Samples.linked_world
                       (Some (Samples.program_serving
                                (Samples.ticket_for Samples.E1 false)))))
                 [EventsChanged [Samples.event1]]))
     = Some Samples.event1
  /\ deepLinkEventPubkey
       (state (run_inputs
                 (mount Reference.solana
                    (Samples.linked_world
                       (Some (Samples.program_serving
                                (Samples.ticket_for Samples.E1 false)))))
                 [EventsChanged [Samples.event1];
                  ProgramChanged (Some Samples.program_unreachable)]))
     = None
  /\ txStatus
       (state (run_inputs
                 (mount Reference.solana
                    (Samples.linked_world
                       (Some (Samples.program_serving
                                (Samples.ticket_for Samples.E1 false)))))
                 [EventsChanged [Samples.event1];
                  ProgramChanged (Some Samples.program_unreachable)]))
     = Some "âŒ Invalid or unknown ticket in check-in link"
  /\ selectedEvent
       (state (run_inputs
                 (mount Reference.solana
                    (Samples.linked_world
                       (Some (Samples.program_serving
                                (Samples.ticket_for Samples.E1 false)))))
                 [EventsChanged [Samples.event1]; CloseDetails]))
     = None.
Proof.
  repeat split; vm_compute; reflexivity.
Qed.

(** The cells the second and third effects leave alone. *)
Lemma fetch_effect_frame w st :
  deepLinkTicket (snd (fst (fetchDeepLinkTicket w st))) = deepLinkTicket st
  /\ selectedEvent (snd (fst (fetchDeepLinkTicket w st))) = selectedEvent st.
Proof.
  unfold fetchDeepLinkTicket. run.
  cases; split; cbn [fst snd deepLinkTicket selectedEvent]; congruence.
Qed.

Lemma select_effect_frame w st :
  deepLinkTicket (snd (fst (selectDeepLinkEvent w st))) = deepLinkTicket st
  /\ deepLinkEventPubkey (snd (fst (selectDeepLinkEvent w st)))
     = deepLinkEventPubkey st
  /\ (selectedEvent st <> None ->
      selectedEvent (snd (fst (selectDeepLinkEvent w st))) <> None).
Proof.
  unfold selectDeepLinkEvent. run.
  cases; repeat split;
    cbn [fst snd deepLinkTicket selectedEvent deepLinkEventPubkey];
    congruence.
Qed.

(** What a new program handle does to the deep-link cells. *)
Lemma program_changed c p :
  deepLinkTicket (state (step c (ProgramChanged p))) = deepLinkTicket (state c)
  /\ (selectedEvent (state c) <> None ->
      selectedEvent (state (step c (ProgramChanged p))) <> None)
  /\ (forall prog text key e,
        p = Some prog -> deepLinkTicket (state c) = Some text ->
        PublicKey_new text = Some key -> ticket_fetch prog key = Err e ->
        deepLinkEventPubkey (state (step c (ProgramChanged p))) = None
        /\ txStatus (state (step c (ProgramChanged p)))
           = Some "âŒ Invalid or unknown ticket in check-in link").
Proof.
  unfold step, fetch_stage, run_effect. cbn [world state log].
  pose proof (fetch_effect_frame (with_program p (world c)) (state c)) as [FT FS].
  split; [|split].
  - destruct (fetchDeepLinkTicket _ _) as [[r st'] l]. cbn [fst snd] in FT, FS.
    destruct r; cbn [state]; try exact FT.
    destruct (was_set _ _); cbn [state world]; [|exact FT].
    pose proof (select_effect_frame (with_program p (world c)) st') as [ST _].
    destruct (selectDeepLinkEvent _ _) as [[r' st''] l']. cbn [fst snd state] in *.
    congruence.
  - intros Hsel.
    destruct (fetchDeepLinkTicket _ _) as [[r st'] l]. cbn [fst snd] in FT, FS.
    rewrite <- FS in Hsel.
    destruct r; cbn [state]; try exact Hsel.
    destruct (was_set _ _); cbn [state world]; [|exact Hsel].
    pose proof (select_effect_frame (with_program p (world c)) st') as (_ & _ & SS).
    destruct (selectDeepLinkEvent _ _) as [[r' st''] l']. cbn [fst snd state] in *.
    exact (SS Hsel).
  - intros prog text key e -> Ht K F.
    rewrite (fetch_effect_failed (with_program (Some prog) (world c)) (state c)
               prog text key e eq_refl Ht K F).
    cbn [deepLinkEventPubkey].
    destruct (deepLinkEventPubkey (state c)); cbn [was_set state]; [|split; reflexivity].
    pose proof (select_effect_idle (with_program (Some prog) (world c))
                  {| txStatus := Some "âŒ Invalid or unknown ticket in check-in link";
                     mainTab := mainTab (state c);
                     manageTab := manageTab (state c);
                     selectedEvent := selectedEvent (state c);
                     deepLinkTicket := Some text;
                     deepLinkEventPubkey := None |} (or_introl eq_refl)) as I.
    cbn [world]. rewrite I. split; reflexivity.
Qed.

(** C8, amended.  The deep-link state only moves forward under the inputs
    that come from the events collection: a refresh that contains no match
    for the resolved parent leaves every state cell as it was, so it does
    not unselect a previously resolved selection and does not touch the
    resolved parent.  The raw identifier, once captured, is never changed,
    and no effect clears a selection.  The state does revert otherwise,
    without a page load: when the ticket fetch runs again on a new program
    handle and fails, the resolved parent is reset to null, and closing the
    details panel clears the selection. *)
Theorem deep_link_forward_only_on_refresh :
  (forall c evs,
      (forall key ev,
          deepLinkEventPubkey (state c) = Some key -> In ev evs ->
          ev_pubkey ev <> key) ->
      state (step c (EventsChanged evs)) = state c)
  /\ (forall c inputs,
        deepLinkTicket (state (run_inputs c inputs)) = deepLinkTicket (state c))
  /\ (forall c i,
        match i with ProgramChanged _ => False | _ => True end ->
        deepLinkEventPubkey (state (step c i)) = deepLinkEventPubkey (state c))
  /\ (forall c i,
        match i with ProgramChanged _ | EventsChanged _ => True | _ => False end ->
        selectedEvent (state c) <> None ->
        selectedEvent (state (step c i)) <> None)
  /\ (forall c prog text key e,
        deepLinkTicket (state c) = Some text ->
        PublicKey_new text = Some key -> ticket_fetch prog key = Err e ->
        deepLinkEventPubkey (state (step c (ProgramChanged (Some prog)))) = None
        /\ txStatus (state (step c (ProgramChanged (Some prog))))
           = Some "âŒ Invalid or unknown ticket in check-in link")
  /\ (forall c, selectedEvent (state (step c CloseDetails)) = None).
Proof.
  assert (T : forall c i, deepLinkTicket (state (step c i)) = deepLinkTicket (state c)).
  { intros c [p|evs| |e].
    - apply program_changed.
    - rewrite (proj1 (events_changed c evs)).
      destruct (deepLinkEventPubkey (state c)); [|reflexivity].
      destruct (find_event _ _); reflexivity.
    - reflexivity.
    - reflexivity. }
  split; [|split; [|split; [|split; [|split]]]].
  - intros c evs H. rewrite (proj1 (events_changed c evs)).
    destruct (deepLinkEventPubkey (state c)) as [key|] eqn:K; [|reflexivity].
    rewrite (find_event_none key evs); [reflexivity|].
    intros ev Hin. apply (H key ev eq_refl Hin).
  - intros c inputs. revert c.
    induction inputs as [|i inputs IH]; intros c; [reflexivity|].
    cbn [run_inputs fold_left]. fold (run_inputs (step c i) inputs).
    rewrite IH. apply T.
  - intros c [p|evs| |e] H; [destruct H| | reflexivity | reflexivity].
    rewrite (proj1 (events_changed c evs)).
    destruct (deepLinkEventPubkey (state c)) eqn:K; [|exact K].
    destruct (find_event _ _); [reflexivity | exact K].
  - intros c [p|evs| |e] H; try destruct H.
    + apply program_changed.
    + rewrite (proj1 (events_changed c evs)).
      destruct (deepLinkEventPubkey (state c)); [|tauto].
      destruct (find_event _ _); [discriminate | tauto].
  - intros c prog text key e Ht K F.
    eapply (proj2 (proj2 (program_changed c (Some prog)))); eauto.
  - reflexivity.
Qed.

Lemma deep_link_forward_only_on_refresh_witness :
  state (step (run_inputs
                 (mount Reference.solana
                    (Samples.linked_world
                       (Some (Samples.program_serving
                                (Samples.ticket_for Samples.E1 false)))))
                 [EventsChanged [Samples.event1]])
              (EventsChanged [Samples.event2]))
  = state (run_inputs
             (mount Reference.solana
                (Samples.linked_world
                   (Some (Samples.program_serving
                            (Samples.ticket_for Samples.E1 false)))))
             [EventsChanged [Samples.event1]])
  /\ selectedEvent
       (state (run_inputs
                 (mount Reference.solana
                    (Samples.linked_world
                       (Some (Samples.program_serving
                                (Samples.ticket_for Samples.E1 false)))))
                 [EventsChanged [Samples.event1]]))
     = Some Samples.event1.
Proof.
  split; [|vm_compute; reflexivity].
  apply (proj1 deep_link_forward_only_on_refresh).
  intros key ev K [<- | []].
  vm_compute in K. injection K as <-. vm_compute. discriminate.
Defined.

(* ================================================================== *)
(** * Further properties of the handlers *)
(* ================================================================== *)

(** ** Reporting a failure *)

Lemma handleError_result e st :
  handleError e st
  = (Normal tt,
     {| txStatus := Some (failure_banner e); mainTab := mainTab st;
        manageTab := manageTab st; selectedEvent := selectedEvent st;
        deepLinkTicket := deepLinkTicket st;
        deepLinkEventPubkey := deepLinkEventPubkey st |},
     call_console console_error "Raw error object:"
       :: match error_logs e with
          | Some _ => [call_console console_error "Program logs:"]
          | None => []
          end).
Proof.
  unfold failure_banner. run. destruct (error_logs e); reflexivity.
Qed.

(** The message of [handleError] falls back in three steps: the nested
    [e.error.message] wins over [e.message], which wins over the fixed
    "Transaction failed"; the program logs are [e.logs], or else
    [e.error.logs]; and the hint about the console is appended exactly when
    there are logs, which are then written to the console too.  Whatever
    the thrown value, the banner starts with the failure mark and nothing
    but the banner changes. *)
Theorem handleError_fallback :
  forall e st,
    (forall inner m, e_error e = Some inner -> inner_message inner = Some m ->
       error_baseMsg e = m)
    /\ (forall m,
          (e_error e = None
           \/ exists inner, e_error e = Some inner /\ inner_message inner = None) ->
          e_message e = Some m -> error_baseMsg e = m)
    /\ ((e_error e = None
         \/ exists inner, e_error e = Some inner /\ inner_message inner = None) ->
        e_message e = None -> error_baseMsg e = "Transaction failed")
    /\ (forall l, e_logs e = Some l -> error_logs e = Some l)
    /\ (forall inner, e_logs e = None -> e_error e = Some inner ->
          error_logs e = inner_logs inner)
    /\ (e_logs e = None -> e_error e = None -> error_logs e = None)
    /\ txStatus (state_after (handleError e) st)
       = Some ("âŒ " ++ error_baseMsg e
               ++ match error_logs e with
                  | Some _ => " (see console for program logs)"
                  | None => ""
                  end)
    /\ same_but_status (state_after (handleError e) st) st
    /\ (existsb (fun c => match c with
                          | call_console console_error "Program logs:" => true
                          | _ => false
                          end) (calls_of (handleError e) st)
        = match error_logs e with Some _ => true | None => false end)
    /\ no_submission (calls_of (handleError e) st).
Proof.
  intros e st. unfold calls_of, state_after. rewrite handleError_result.
  unfold error_baseMsg, error_logs, failure_banner, same_but_status, no_submission.
  repeat split; cbn [fst snd txStatus mainTab manageTab selectedEvent
                     deepLinkTicket deepLinkEventPubkey].
  - intros inner m -> ->. reflexivity.
  - intros m [-> | (inner & -> & ->)] ->; reflexivity.
  - intros [-> | (inner & -> & ->)] ->; reflexivity.
  - intros l ->. reflexivity.
  - intros inner -> ->. reflexivity.
  - intros -> ->. reflexivity.
  - destruct (e_logs e); [reflexivity|].
    destruct (e_error e) as [inner|]; [destruct (inner_logs inner)|]; reflexivity.
  - destruct (e_logs e); [reflexivity|].
    destruct (e_error e) as [inner|]; [destruct (inner_logs inner)|]; reflexivity.
Qed.

Lemma handleError_fallback_witness :
  error_baseMsg {| e_message := Some "outer"; e_logs := None;
                   e_error := Some {| inner_message := Some "inner";
                                      inner_logs := Some ["log"] |} |}
  = "inner".
Proof.
  apply (proj1 (handleError_fallback
                  {| e_message := Some "outer"; e_logs := None;
                     e_error := Some {| inner_message := Some "inner";
                                        inner_logs := Some ["log"] |} |}
                  initial_state)
           {| inner_message := Some "inner"; inner_logs := Some ["log"] |});
    reflexivity.
Defined.

(** ** What no handler does *)

Ltac handler_cases :=
  unfold handleCreateEvent, handleJoinEvent, handleWithdraw, handleCheckIn,
    handleOrganizerCheckInByAddress;
  match goal with
  | |- context [program ?w] =>
      destruct (program w) as [?prog|];
      [destruct (publicKey (wallet w)) as [?key|]|]
  end.

(** The handlers write the status banner and nothing else: whatever the
    outside answers, a handler leaves the tabs, the selected event and the
    deep-link cells as they were. *)
Theorem handlers_only_write_status :
  forall P w st,
    (forall priceSol title description,
        same_but_status
          (state_after (handleCreateEvent P w priceSol title description) st) st)
    /\ (forall eventPubkey,
           same_but_status (state_after (handleJoinEvent P w eventPubkey) st) st)
    /\ (forall eventPubkey amountSol,
           same_but_status
             (state_after (handleWithdraw P w eventPubkey amountSol) st) st)
    /\ (forall ticket event,
           same_but_status (state_after (handleCheckIn P w ticket event) st) st)
    /\ (forall ticketAddress event,
           same_but_status
             (state_after (handleOrganizerCheckInByAddress P w ticketAddress event)
                          st) st).
Proof.
  intros P w st. unfold same_but_status.
  split; [|split; [|split; [|split]]]; intros; handler_cases;
    try (repeat split; reflexivity);
    run; cases; repeat split; reflexivity.
Qed.

(** Every submission is single-shot.  One run of a handler invokes the
    backend program at most once and never retries; only join-event hands a
    transaction to the wallet, and at most one; withdraw never refreshes a
    collection. *)
Theorem handlers_single_shot :
  forall P w st,
    (forall priceSol title description,
        let l := calls_of (handleCreateEvent P w priceSol title description) st in
        (List.length (filter is_rpc l) <= 1)%nat
        /\ filter is_sendTransaction l = [])
    /\ (forall eventPubkey,
           let l := calls_of (handleJoinEvent P w eventPubkey) st in
           (List.length (filter is_rpc l) <= 1)%nat
           /\ (List.length (filter is_sendTransaction l) <= 1)%nat)
    /\ (forall eventPubkey amountSol,
           let l := calls_of (handleWithdraw P w eventPubkey amountSol) st in
           (List.length (filter is_rpc l) <= 1)%nat
           /\ filter is_sendTransaction l = [] /\ filter is_refresh l = [])
    /\ (forall ticket event,
           let l := calls_of (handleCheckIn P w ticket event) st in
           (List.length (filter is_rpc l) <= 1)%nat
           /\ filter is_sendTransaction l = [])
    /\ (forall ticketAddress event,
           let l := calls_of (handleOrganizerCheckInByAddress P w ticketAddress event)
                             st in
           (List.length (filter is_rpc l) <= 1)%nat
           /\ filter is_sendTransaction l = []).
Proof.
  intros P w st.
  split; [|split; [|split; [|split]]]; intros; subst l; handler_cases;
    try (repeat split; (reflexivity || apply Nat.le_0_l));
    run; cases; repeat split; cbn; solve [reflexivity | lia].
Qed.

(** ** How a submission ends *)

Ltac use_eqs :=
  repeat match goal with
    | H : error_logs _ = _ |- _ => rewrite H
    end.

Ltac pick_call H :=
  cbn in H; repeat destruct H as [H|H];
  try discriminate H; try contradiction.

Section Outcomes.

Variable P : Platform.
Variable w : World.
Variable prog : Program.
Variable st : AppState.
Hypothesis have_program : program w = Some prog.

Ltac start :=
  unfold handleCreateEvent, handleJoinEvent, handleWithdraw, handleCheckIn,
    handleOrganizerCheckInByAddress;
  rewrite have_program;
  destruct (publicKey (wallet w)) as [walletKey|]; [|intros ? []].

Ltac rejected_case :=
  let H := fresh "H" in
  intros ?; run; cases; intros H; pick_call H;
  injection H as <-; eexists; (split; [eassumption|]);
  unfold failure_banner; use_eqs; split; reflexivity.

Lemma create_rejected priceSol title description :
  forall inv,
    In (call_rpc inv rejected)
       (calls_of (handleCreateEvent P w priceSol title description) st) ->
    exists e,
      rpc prog inv = Err e
      /\ txStatus (state_after (handleCreateEvent P w priceSol title description) st)
         = Some (failure_banner e)
      /\ filter is_refresh
           (calls_of (handleCreateEvent P w priceSol title description) st) = [].
Proof. start. rejected_case. Qed.

Lemma join_rejected eventPubkey :
  forall inv,
    In (call_rpc inv rejected) (calls_of (handleJoinEvent P w eventPubkey) st) ->
    exists e,
      rpc prog inv = Err e
      /\ txStatus (state_after (handleJoinEvent P w eventPubkey) st)
         = Some (failure_banner e)
      /\ filter is_refresh (calls_of (handleJoinEvent P w eventPubkey) st) = [].
Proof.
  start. destruct (is_empty eventPubkey); [intros ? []|]. rejected_case.
Qed.

Lemma withdraw_rejected eventPubkey amountSol :
  forall inv,
    In (call_rpc inv rejected)
       (calls_of (handleWithdraw P w eventPubkey amountSol) st) ->
    exists e,
      rpc prog inv = Err e
      /\ txStatus (state_after (handleWithdraw P w eventPubkey amountSol) st)
         = Some (failure_banner e)
      /\ filter is_refresh
           (calls_of (handleWithdraw P w eventPubkey amountSol) st) = [].
Proof.
  start. destruct (is_empty eventPubkey); [intros ? []|]. rejected_case.
Qed.

Lemma checkIn_rejected ticket event :
  forall inv,
    In (call_rpc inv rejected) (calls_of (handleCheckIn P w ticket event) st) ->
    exists e,
      rpc prog inv = Err e
      /\ txStatus (state_after (handleCheckIn P w ticket event) st)
         = Some (failure_banner e)
      /\ filter is_refresh (calls_of (handleCheckIn P w ticket event) st) = [].
Proof. start. rejected_case. Qed.

Lemma checkInByAddress_rejected ticketAddress event :
  forall inv,
    In (call_rpc inv rejected)
       (calls_of (handleOrganizerCheckInByAddress P w ticketAddress event) st) ->
    exists e,
      rpc prog inv = Err e
      /\ txStatus (state_after
                     (handleOrganizerCheckInByAddress P w ticketAddress event) st)
         = Some (failure_banner e)
      /\ filter is_refresh
           (calls_of (handleOrganizerCheckInByAddress P w ticketAddress event) st)
         = [].
Proof. start. rejected_case. Qed.

Ltac fulfilled_case :=
  let H := fresh "H" in
  intros ?; run; cases; intros H; pick_call H;
  injection H as <-; eexists; (split; [eassumption|]);
  unfold failure_banner; use_eqs; reflexivity.

Lemma create_fulfilled priceSol title description :
  forall inv,
    In (call_rpc inv fulfilled)
       (calls_of (handleCreateEvent P w priceSol title description) st) ->
    exists sig,
      rpc prog inv = Ok sig
      /\ txStatus (state_after (handleCreateEvent P w priceSol title description) st)
         = Some match refreshEvents w with
                | Ok _ => "âœ… Event created. tx: " ++ sig
                | Err e => failure_banner e
                end.
Proof. start. fulfilled_case. Qed.

Lemma join_fulfilled eventPubkey :
  forall inv,
    In (call_rpc inv fulfilled) (calls_of (handleJoinEvent P w eventPubkey) st) ->
    exists sig,
      rpc prog inv = Ok sig
      /\ txStatus (state_after (handleJoinEvent P w eventPubkey) st)
         = Some match refreshTickets w with
                | Ok _ => "âœ… Joined event & minted ticket. tx: " ++ sig
                | Err e => failure_banner e
                end.
Proof.
  start. destruct (is_empty eventPubkey); [intros ? []|]. fulfilled_case.
Qed.

Lemma withdraw_fulfilled eventPubkey amountSol :
  forall inv,
    In (call_rpc inv fulfilled)
       (calls_of (handleWithdraw P w eventPubkey amountSol) st) ->
    exists sig,
      rpc prog inv = Ok sig
      /\ txStatus (state_after (handleWithdraw P w eventPubkey amountSol) st)
         = Some ("âœ… withdraw tx: " ++ sig).
Proof.
  start. destruct (is_empty eventPubkey); [intros ? []|]. fulfilled_case.
Qed.

Lemma checkIn_fulfilled ticket event :
  forall inv,
    In (call_rpc inv fulfilled) (calls_of (handleCheckIn P w ticket event) st) ->
    exists sig,
      rpc prog inv = Ok sig
      /\ txStatus (state_after (handleCheckIn P w ticket event) st)
         = Some match refreshTickets w with
                | Ok _ => "âœ… check_in tx: " ++ sig
                | Err e => failure_banner e
                end.
Proof. start. fulfilled_case. Qed.

Lemma checkInByAddress_fulfilled ticketAddress event :
  forall inv,
    In (call_rpc inv fulfilled)
       (calls_of (handleOrganizerCheckInByAddress P w ticketAddress event) st) ->
    exists sig,
      rpc prog inv = Ok sig
      /\ txStatus (state_after
                     (handleOrganizerCheckInByAddress P w ticketAddress event) st)
         = Some match refreshTickets w with
                | Ok _ => "âœ… Attendee checked in. tx: " ++ sig
                | Err e => failure_banner e
                end.
Proof. start. fulfilled_case. Qed.

End Outcomes.

(** When the backend rejects the invocation a handler submitted, the
    banner reports that very error through [handleError] and no collection
    is refreshed.  This holds for create-event, join-event, withdraw and
    both check-in handlers. *)
Theorem rejected_invocation_is_reported :
  forall P w prog st inv,
    program w = Some prog ->
    (forall priceSol title description,
        In (call_rpc inv rejected)
           (calls_of (handleCreateEvent P w priceSol title description) st) ->
        exists e,
          rpc prog inv = Err e
          /\ txStatus (state_after (handleCreateEvent P w priceSol title description) st)
             = Some (failure_banner e)
          /\ filter is_refresh
               (calls_of (handleCreateEvent P w priceSol title description) st) = [])
    /\ (forall eventPubkey,
           In (call_rpc inv rejected) (calls_of (handleJoinEvent P w eventPubkey) st) ->
           exists e,
             rpc prog inv = Err e
             /\ txStatus (state_after (handleJoinEvent P w eventPubkey) st)
                = Some (failure_banner e)
             /\ filter is_refresh (calls_of (handleJoinEvent P w eventPubkey) st) = [])
    /\ (forall eventPubkey amountSol,
           In (call_rpc inv rejected)
              (calls_of (handleWithdraw P w eventPubkey amountSol) st) ->
           exists e,
             rpc prog inv = Err e
             /\ txStatus (state_after (handleWithdraw P w eventPubkey amountSol) st)
                = Some (failure_banner e)
             /\ filter is_refresh
                  (calls_of (handleWithdraw P w eventPubkey amountSol) st) = [])
    /\ (forall ticket event,
           In (call_rpc inv rejected) (calls_of (handleCheckIn P w ticket event) st) ->
           exists e,
             rpc prog inv = Err e
             /\ txStatus (state_after (handleCheckIn P w ticket event) st)
                = Some (failure_banner e)
             /\ filter is_refresh (calls_of (handleCheckIn P w ticket event) st) = [])
    /\ (forall ticketAddress event,
           In (call_rpc inv rejected)
              (calls_of (handleOrganizerCheckInByAddress P w ticketAddress event) st) ->
           exists e,
             rpc prog inv = Err e
             /\ txStatus (state_after
                            (handleOrganizerCheckInByAddress P w ticketAddress event)
                            st)
                = Some (failure_banner e)
             /\ filter is_refresh
                  (calls_of (handleOrganizerCheckInByAddress P w ticketAddress event)
                            st) = []).
Proof.
  intros P w prog st inv Hp. split; [|split; [|split; [|split]]]; intros.
  - eapply create_rejected; eassumption.
  - eapply join_rejected; eassumption.
  - eapply withdraw_rejected; eassumption.
  - eapply checkIn_rejected; eassumption.
  - eapply checkInByAddress_rejected; eassumption.
Qed.

Lemma rejected_invocation_is_reported_witness :
  exists e,
    rpc Samples.program_rejecting
        (withdraw 1000000000 Samples.organizer Samples.E1
                  (SystemProgram_programId Reference.solana)) = Err e
    /\ txStatus (state_after
                   (handleWithdraw Reference.solana
                      (Samples.world_of (Some Samples.organizer) (Ok "sig")
                         (Some Samples.program_rejecting) [Samples.event1] None)
                      Samples.E1_text "1") initial_state)
       = Some (failure_banner e)
    /\ filter is_refresh
         (calls_of
            (handleWithdraw Reference.solana
               (Samples.world_of (Some Samples.organizer) (Ok "sig")
                  (Some Samples.program_rejecting) [Samples.event1] None)
               Samples.E1_text "1") initial_state) = [].
Proof.
  apply (proj1 (proj2 (proj2
           (rejected_invocation_is_reported Reference.solana
              (Samples.world_of (Some Samples.organizer) (Ok "sig")
                 (Some Samples.program_rejecting) [Samples.event1] None)
              Samples.program_rejecting initial_state
              (withdraw 1000000000 Samples.organizer Samples.E1
                        (SystemProgram_programId Reference.solana))
              eq_refl)))
           Samples.E1_text "1").
  vm_compute. left. reflexivity.
Defined.

(** The banner after an accepted invocation.  When the backend accepts the
    invocation and returns a signature, withdraw always ends on its success
    banner with that signature.  The other handlers then refresh a
    collection: they end on their success banner when the refresh
    succeeds, and when the refresh is rejected the banner is overwritten by
    the failure banner of the refresh error, although the transaction went
    through. *)
Theorem accepted_invocation_banner :
  forall P w prog st inv,
    program w = Some prog ->
    (forall priceSol title description,
        In (call_rpc inv fulfilled)
           (calls_of (handleCreateEvent P w priceSol title description) st) ->
        exists sig,
          rpc prog inv = Ok sig
          /\ txStatus (state_after (handleCreateEvent P w priceSol title description) st)
             = Some match refreshEvents w with
                    | Ok _ => "âœ… Event created. tx: " ++ sig
                    | Err e => failure_banner e
                    end)
    /\ (forall eventPubkey,
           In (call_rpc inv fulfilled) (calls_of (handleJoinEvent P w eventPubkey) st) ->
           exists sig,
             rpc prog inv = Ok sig
             /\ txStatus (state_after (handleJoinEvent P w eventPubkey) st)
                = Some match refreshTickets w with
                       | Ok _ => "âœ… Joined event & minted ticket. tx: " ++ sig
                       | Err e => failure_banner e
                       end)
    /\ (forall eventPubkey amountSol,
           In (call_rpc inv fulfilled)
              (calls_of (handleWithdraw P w eventPubkey amountSol) st) ->
           exists sig,
             rpc prog inv = Ok sig
             /\ txStatus (state_after (handleWithdraw P w eventPubkey amountSol) st)
                = Some ("âœ… withdraw tx: " ++ sig))
    /\ (forall ticket event,
           In (call_rpc inv fulfilled) (calls_of (handleCheckIn P w ticket event) st) ->
           exists sig,
             rpc prog inv = Ok sig
             /\ txStatus (state_after (handleCheckIn P w ticket event) st)
                = Some match refreshTickets w with
                       | Ok _ => "âœ… check_in tx: " ++ sig
                       | Err e => failure_banner e
                       end)
    /\ (forall ticketAddress event,
           In (call_rpc inv fulfilled)
              (calls_of (handleOrganizerCheckInByAddress P w ticketAddress event) st) ->
           exists sig,
             rpc prog inv = Ok sig
             /\ txStatus (state_after
                            (handleOrganizerCheckInByAddress P w ticketAddress event)
                            st)
                = Some match refreshTickets w with
                       | Ok _ => "âœ… Attendee checked in. tx: " ++ sig
                       | Err e => failure_banner e
                       end).
Proof.
  intros P w prog st inv Hp. split; [|split; [|split; [|split]]]; intros.
  - eapply create_fulfilled; eassumption.
  - eapply join_fulfilled; eassumption.
  - eapply withdraw_fulfilled; eassumption.
  - eapply checkIn_fulfilled; eassumption.
  - eapply checkInByAddress_fulfilled; eassumption.
Qed.

Lemma accepted_invocation_banner_witness :
  exists sig,
    rpc (Samples.program_serving (Samples.ticket_for Samples.E1 false))
        (checkIn Samples.organizer Samples.E1 Samples.T1
                 (SystemProgram_programId Reference.solana)) = Ok sig
    /\ txStatus (state_after
                   (handleCheckIn Reference.solana
                      (Samples.with_failing_refresh
                         (Samples.organizer_world
                            (Samples.ticket_for Samples.E1 false)))
                      {| tk_pubkey := Samples.T1; tk_event := Samples.E1;
                         tk_owner := Samples.attendee; tk_checkedIn := false |}
                      Samples.event1) initial_state)
       = Some (failure_banner (Error "Failed to fetch")).
Proof.
  apply (proj1 (proj2 (proj2 (proj2
           (accepted_invocation_banner Reference.solana
              (Samples.with_failing_refresh
                 (Samples.organizer_world (Samples.ticket_for Samples.E1 false)))
              (Samples.program_serving (Samples.ticket_for Samples.E1 false))
              initial_state
              (checkIn Samples.organizer Samples.E1 Samples.T1
                       (SystemProgram_programId Reference.solana))
              eq_refl))))
           {| tk_pubkey := Samples.T1; tk_event := Samples.E1;
              tk_owner := Samples.attendee; tk_checkedIn := false |}
           Samples.event1).
  vm_compute. left. reflexivity.
Defined.

(** ** Join-event: before and after the set-up *)

(** Join-event refuses early, before it asks the outside for anything.
    With the backend and the wallet at hand: an empty selection yields
    "Select an event to join"; a well-formed address that is not in the
    loaded events collection yields "Selected event not found in local
    list"; in both cases the handler makes no call at all (no rent query,
    no transaction, no invocation).  A selection that is not a well-formed
    address is reported through [handleError] and submits nothing. *)
Theorem join_event_refusals :
  forall P w st prog user,
    program w = Some prog -> publicKey (wallet w) = Some user ->
    (txStatus (state_after (handleJoinEvent P w "") st)
     = Some "âŒ Select an event to join"
     /\ calls_of (handleJoinEvent P w "") st = [])
    /\ (forall text key,
           PublicKey_new text = Some key -> find_event key (events w) = None ->
           txStatus (state_after (handleJoinEvent P w text) st)
           = Some "âŒ Selected event not found in local list"
           /\ calls_of (handleJoinEvent P w text) st = [])
    /\ (forall text,
           text <> "" -> PublicKey_new text = None ->
           exists e,
             PublicKey_parse text = Err e
             /\ txStatus (state_after (handleJoinEvent P w text) st)
                = Some (failure_banner e)
             /\ no_submission (calls_of (handleJoinEvent P w text) st)).
Proof.
  intros P w st prog user Hp Hk. unfold handleJoinEvent. rewrite Hp, Hk.
  split; [|split].
  - split; reflexivity.
  - intros text key K F.
    assert (N : is_empty text = false) by (destruct text; [discriminate K | reflexivity]).
    apply PublicKey_parse_ok in K. rewrite N. run. rewrite K. cbv beta iota zeta.
    rewrite F. split; reflexivity.
  - intros text N K. destruct (PublicKey_parse_err _ K) as [e E].
    exists e. split; [exact E|].
    rewrite (is_empty_false _ N). run. rewrite E. cbv beta iota zeta.
    unfold failure_banner. destruct (error_logs e); split; reflexivity.
Qed.

Lemma join_event_refusals_witness :
  txStatus (state_after
              (handleJoinEvent Reference.solana
                 (Samples.world_of (Some Samples.attendee) (Ok "sig")
                    (Some (Samples.program_serving
                             (Samples.ticket_for Samples.E1 false)))
                    [Samples.event2] None)
                 Samples.E1_text) initial_state)
  = Some "âŒ Selected event not found in local list"
  /\ calls_of
       (handleJoinEvent Reference.solana
          (Samples.world_of (Some Samples.attendee) (Ok "sig")
             (Some (Samples.program_serving (Samples.ticket_for Samples.E1 false)))
             [Samples.event2] None)
          Samples.E1_text) initial_state = [].
Proof.
  apply (proj1 (proj2
           (join_event_refusals Reference.solana
              (Samples.world_of (Some Samples.attendee) (Ok "sig")
                 (Some (Samples.program_serving (Samples.ticket_for Samples.E1 false)))
                 [Samples.event2] None)
              initial_state
              (Samples.program_serving (Samples.ticket_for Samples.E1 false))
              Samples.attendee eq_refl eq_refl))
           Samples.E1_text Samples.E1);
    vm_compute; reflexivity.
Defined.

(** The join invocation names exactly the accounts the set-up prepared.
    Whenever join-event invokes the program, its log starts with the rent
    query, the associated-address query, the fulfilled set-up transaction
    and the console line, in this order; the set-up creates the account of
    the freshly generated mint funded with the rent the query returned,
    initializes that mint with no decimals, the derived mint authority and
    no freeze authority, and creates the buyer's associated account; it is
    signed by the mint key.  The invocation then carries the same mint, the
    same mint authority and the same associated account, the wallet as
    signer, and an event that is in the loaded collection. *)
Theorem join_event_accounts :
  forall P w text st signer event ticket mint mintAuthority buyerAta tp atp sys s,
    In (call_rpc (joinEvent signer event ticket mint mintAuthority buyerAta
                            tp atp sys) s)
       (calls_of (handleJoinEvent P w text) st) ->
    exists rent found,
      getMinimumBalanceForRentExemption w (MINT_SIZE P) = Ok rent
      /\ getAssociatedTokenAddress w mint signer = Ok buyerAta
      /\ find_event event (events w) = Some found
      /\ mint = Keypair_generate w
      /\ mintAuthority = derive P "mint_auth" [PublicKey_toBytes mint]
      /\ tp = TOKEN_PROGRAM_ID P
      /\ atp = ASSOCIATED_TOKEN_PROGRAM_ID P
      /\ sys = SystemProgram_programId P
      /\ firstn 4 (calls_of (handleJoinEvent P w text) st)
         = [call_getMinimumBalanceForRentExemption (MINT_SIZE P) fulfilled;
            call_getAssociatedTokenAddress mint signer fulfilled;
            call_sendTransaction
              [createAccount signer mint rent (MINT_SIZE P) (TOKEN_PROGRAM_ID P);
               initializeMint mint 0 mintAuthority None;
               createAssociatedTokenAccount signer buyerAta signer mint]
              [mint] fulfilled;
            call_console console_log "Mint + ATA setup tx:"].
Proof.
  intros P w text st signer event ticket mint mintAuthority buyerAta tp atp sys s.
  unfold handleJoinEvent.
  destruct (program w) as [prog|]; [|intros []].
  destruct (publicKey (wallet w)) as [user|]; [|intros []].
  destruct (is_empty text); [intros []|].
  run. cases; intros H; pick_call H;
    injection H as <- <- <- <- <- <- <- <- <- <-;
    eexists; eexists; repeat split; try eassumption; reflexivity.
Qed.

Lemma join_event_accounts_witness :
  exists rent found,
    getMinimumBalanceForRentExemption
      (Samples.attendee_world (Samples.ticket_for Samples.E1 false))
      (MINT_SIZE Reference.solana) = Ok rent
    /\ find_event Samples.E1
         (events (Samples.attendee_world (Samples.ticket_for Samples.E1 false)))
       = Some found.
Proof.
  destruct (join_event_accounts Reference.solana
              (Samples.attendee_world (Samples.ticket_for Samples.E1 false))
              Samples.E1_text initial_state
              Samples.attendee Samples.E1
              (deriveTicketPda Reference.solana Samples.E1 Samples.attendee)
              Samples.fresh_mint
              (deriveMintAuthPda Reference.solana Samples.fresh_mint)
              (N.lxor Samples.fresh_mint Samples.attendee)
              (TOKEN_PROGRAM_ID Reference.solana)
              (ASSOCIATED_TOKEN_PROGRAM_ID Reference.solana)
              (SystemProgram_programId Reference.solana) fulfilled)
    as (rent & found & R & _ & F & _).
  - vm_compute. do 4 right. left. reflexivity.
  - exists rent, found. split; assumption.
Defined.

(** ** Withdraw and the check-in handlers: guards *)

(** Withdraw validates the selection and nothing about the amount.  With
    the backend and the wallet at hand: an empty selection yields "Select
    an event to withdraw from" and no call; a selection that is not a
    well-formed address is reported through [handleError] and submits
    nothing; for a well-formed address and any amount text whatever
    (negative, fractional, not a number) the program is invoked, with the
    big number built from the floored amount, exactly when the big-number
    constructor accepts its rendering, and nothing is submitted when it
    throws. *)
Theorem withdraw_guards :
  forall P w st prog walletKey,
    program w = Some prog -> publicKey (wallet w) = Some walletKey ->
    (forall amountSol,
        txStatus (state_after (handleWithdraw P w "" amountSol) st)
        = Some "âŒ Select an event to withdraw from"
        /\ calls_of (handleWithdraw P w "" amountSol) st = [])
    /\ (forall text amountSol,
           text <> "" -> PublicKey_new text = None ->
           exists e,
             PublicKey_parse text = Err e
             /\ txStatus (state_after (handleWithdraw P w text amountSol) st)
                = Some (failure_banner e)
             /\ no_submission (calls_of (handleWithdraw P w text amountSol) st))
    /\ (forall text amountSol eventKey,
           PublicKey_new text = Some eventKey ->
           match BN_new P (Number_toString P (withdraw_amountLamports P amountSol)) with
           | Err e =>
               txStatus (state_after (handleWithdraw P w text amountSol) st)
               = Some (failure_banner e)
               /\ no_submission (calls_of (handleWithdraw P w text amountSol) st)
           | Ok amount =>
               exists s rest,
                 calls_of (handleWithdraw P w text amountSol) st
                 = call_rpc (withdraw amount walletKey eventKey
                                      (SystemProgram_programId P)) s :: rest
           end).
Proof.
  intros P w st prog walletKey Hp Hk. split; [|split].
  - intros amountSol. unfold handleWithdraw. rewrite Hp, Hk. split; reflexivity.
  - intros text amountSol N K. destruct (PublicKey_parse_err _ K) as [e E].
    exists e. split; [exact E|].
    unfold handleWithdraw. rewrite Hp, Hk, (is_empty_false _ N).
    run. rewrite E. cbv beta iota zeta.
    unfold failure_banner. destruct (error_logs e); split; reflexivity.
  - intros text amountSol eventKey K. apply PublicKey_parse_ok in K.
    pose proof (withdraw_calls P w text amountSol st prog walletKey eventKey
                  Hp Hk K) as C.
    destruct (BN_new P _) as [amount|e] eqn:B; [exact C|].
    split; [|exact C].
    unfold handleWithdraw. rewrite Hp, Hk.
    assert (N : is_empty text = false) by (destruct text; [discriminate K | reflexivity]).
    rewrite N. run. rewrite K. cbv beta iota zeta. rewrite B. cbv beta iota zeta.
    unfold failure_banner. destruct (error_logs e); reflexivity.
Qed.

Lemma withdraw_guards_witness :
  exists s rest,
    calls_of (handleWithdraw Reference.solana
                (Samples.organizer_world (Samples.ticket_for Samples.E1 false))
                Samples.E1_text "-2.5") initial_state
    = call_rpc (withdraw (-2500000000) Samples.organizer Samples.E1
                         (SystemProgram_programId Reference.solana)) s :: rest.
Proof.
  exact (proj2 (proj2
           (withdraw_guards Reference.solana
              (Samples.organizer_world (Samples.ticket_for Samples.E1 false))
              initial_state
              (Samples.program_serving (Samples.ticket_for Samples.E1 false))
              Samples.organizer eq_refl eq_refl))
           Samples.E1_text "-2.5" Samples.E1 eq_refl).
Defined.

(** Self-service check-in checks the organizer and nothing else.  With the
    backend and the wallet at hand: a wallet that is not the organizer of
    the event gets "Only the event organizer can check in attendees" and
    the handler makes no call; for the organizer the first call is the
    check-in invocation on the event's address and the ticket's address,
    whatever event the ticket record names and whether or not it is
    already checked in (the checks of the by-address path are not made
    here). *)
Theorem self_service_checkin :
  forall P w st prog walletKey ticket event,
    program w = Some prog -> publicKey (wallet w) = Some walletKey ->
    (PublicKey_equals (ev_organizer event) walletKey = false ->
     txStatus (state_after (handleCheckIn P w ticket event) st)
     = Some "âŒ Only the event organizer can check in attendees"
     /\ calls_of (handleCheckIn P w ticket event) st = [])
    /\ (PublicKey_equals (ev_organizer event) walletKey = true ->
        exists s rest,
          calls_of (handleCheckIn P w ticket event) st
          = call_rpc (checkIn walletKey (ev_pubkey event) (tk_pubkey ticket)
                              (SystemProgram_programId P)) s :: rest).
Proof.
  intros P w st prog walletKey ticket event Hp Hk.
  unfold handleCheckIn. rewrite Hp, Hk. split; intros O; run; rewrite O.
  - split; reflexivity.
  - cases; eexists; eexists; reflexivity.
Qed.

Lemma self_service_checkin_witness :
  exists s rest,
    calls_of (handleCheckIn Reference.solana
                (Samples.organizer_world (Samples.ticket_for Samples.E1 false))
                {| tk_pubkey := Samples.T1; tk_event := Samples.E2;
                   tk_owner := Samples.attendee; tk_checkedIn := true |}
                Samples.event1) initial_state
    = call_rpc (checkIn Samples.organizer Samples.E1 Samples.T1
                        (SystemProgram_programId Reference.solana)) s :: rest.
Proof.
  apply (proj2 (self_service_checkin Reference.solana
                  (Samples.organizer_world (Samples.ticket_for Samples.E1 false))
                  initial_state
                  (Samples.program_serving (Samples.ticket_for Samples.E1 false))
                  Samples.organizer
                  {| tk_pubkey := Samples.T1; tk_event := Samples.E2;
                     tk_owner := Samples.attendee; tk_checkedIn := true |}
                  Samples.event1 eq_refl eq_refl)).
  vm_compute. reflexivity.
Defined.

(** The first guards of check-in by pasted address, in their order.  With
    the backend and the wallet at hand: when the extractor finds nothing
    (null or an empty text) the banner is "Could not find a ticket address
    in the scanned data", whoever the wallet is; otherwise a wallet that is
    not the organizer gets "Only the event organizer can check in
    attendees"; in both cases nothing is fetched and nothing submitted.
    For the organizer and a well-formed address, a rejected fetch of the
    ticket account yields "That account is not a Ticket account for this
    program" and no submission. *)
Theorem checkin_by_address_first_guards :
  forall P w st prog walletKey event raw,
    program w = Some prog -> publicKey (wallet w) = Some walletKey ->
    (falsy (extractTicketAddressFromInput P raw) = true ->
     txStatus (state_after (handleOrganizerCheckInByAddress P w raw event) st)
     = Some "âŒ Could not find a ticket address in the scanned data"
     /\ filter (fun c => negb (match c with call_console _ _ => true | _ => false end))
               (calls_of (handleOrganizerCheckInByAddress P w raw event) st) = [])
    /\ (falsy (extractTicketAddressFromInput P raw) = false ->
        PublicKey_equals (ev_organizer event) walletKey = false ->
        txStatus (state_after (handleOrganizerCheckInByAddress P w raw event) st)
        = Some "âŒ Only the event organizer can check in attendees"
        /\ filter (fun c => negb (match c with call_console _ _ => true | _ => false end))
                  (calls_of (handleOrganizerCheckInByAddress P w raw event) st) = [])
    /\ (forall extracted ticketKey e,
           extractTicketAddressFromInput P raw = Some extracted ->
           PublicKey_equals (ev_organizer event) walletKey = true ->
           PublicKey_new extracted = Some ticketKey ->
           ticket_fetch prog ticketKey = Err e ->
           txStatus (state_after (handleOrganizerCheckInByAddress P w raw event) st)
           = Some "âŒ That account is not a Ticket account for this program"
           /\ no_submission
                (calls_of (handleOrganizerCheckInByAddress P w raw event) st)).
Proof.
  intros P w st prog walletKey event raw Hp Hk. split; [|split].
  - intros F. unfold handleOrganizerCheckInByAddress. rewrite Hp, Hk.
    run. rewrite F. destruct (extract_warns P raw); split; reflexivity.
  - intros F O. unfold handleOrganizerCheckInByAddress. rewrite Hp, Hk.
    run. rewrite F, O. destruct (extract_warns P raw); split; reflexivity.
  - intros extracted ticketKey e X O K F.
    assert (N : is_empty extracted = false)
      by (destruct extracted; [discriminate K | reflexivity]).
    exact (checkin_not_a_ticket P w prog walletKey event raw st Hp Hk
             extracted X N O ticketKey K e F).
Qed.

Lemma checkin_by_address_first_guards_witness :
  txStatus (state_after
              (handleOrganizerCheckInByAddress Reference.solana
                 (Samples.attendee_world (Samples.ticket_for Samples.E1 false))
                 "https://site.xyz/checkin?other=1" Samples.event1) initial_state)
  = Some "âŒ Could not find a ticket address in the scanned data"
  /\ filter (fun c => negb (match c with call_console _ _ => true | _ => false end))
            (calls_of
               (handleOrganizerCheckInByAddress Reference.solana
                  (Samples.attendee_world (Samples.ticket_for Samples.E1 false))
                  "https://site.xyz/checkin?other=1" Samples.event1) initial_state)
     = [].
Proof.
  apply (proj1 (checkin_by_address_first_guards Reference.solana
                  (Samples.attendee_world (Samples.ticket_for Samples.E1 false))
                  initial_state
                  (Samples.program_serving (Samples.ticket_for Samples.E1 false))
                  Samples.attendee Samples.event1
                  "https://site.xyz/checkin?other=1" eq_refl eq_refl)).
  vm_compute. reflexivity.
Defined.
(* ================================================================== *)
(** * Further properties of the extractor *)
(* ================================================================== *)

Section WhiteSpaceFacts.

Implicit Types (s t u b w : string) (c : ascii).

Lemma append_assoc s t u : (s ++ t) ++ u = s ++ t ++ u.
Proof. induction s as [|c s IH]; simpl; congruence. Qed.

Lemma append_empty_r s : s ++ "" = s.
Proof. induction s as [|c s IH]; simpl; congruence. Qed.

Lemma length_append s t :
  String.length (s ++ t) = (String.length s + String.length t)%nat.
Proof. induction s as [|c s IH]; simpl; congruence. Qed.

Lemma startsWith_app s w : startsWith (w ++ s) w = true.
Proof.
  induction w as [|a w IH]; [reflexivity|].
  simpl. rewrite Ascii.eqb_refl. exact IH.
Qed.

Lemma startsWith_split s w :
  startsWith s w = true -> s = w ++ drop (String.length w) s.
Proof.
  revert s. induction w as [|a w IH]; intros s H; [reflexivity|].
  destruct s as [|c s]; [discriminate H|].
  simpl in H. apply andb_true_iff in H as [Hc H].
  apply Ascii.eqb_eq in Hc. subst a. simpl. f_equal. apply IH, H.
Qed.

Lemma startsWith_more s t w :
  startsWith s w = true -> startsWith (s ++ t) w = true.
Proof.
  revert s. induction w as [|a w IH]; intros s H; [reflexivity|].
  destruct s as [|c s]; [discriminate H|].
  simpl in *. apply andb_true_iff in H as [-> H]. apply IH, H.
Qed.

(** What [match_length] finds is one of the candidates, at the head. *)
Lemma match_length_found l s k :
  match_length l s = S k ->
  exists w, In w l /\ startsWith s w = true /\ String.length w = S k.
Proof.
  induction l as [|w l IH]; [discriminate|].
  cbn [match_length]. destruct (startsWith s w) eqn:E.
  - intros H. exists w. repeat split; [left; reflexivity | exact E | exact H].
  - intros H. destruct (IH H) as (w' & I & S' & L).
    exists w'. repeat split; [right; exact I | exact S' | exact L].
Qed.

Lemma match_length_ext l s t :
  (forall w, In w l -> startsWith s w = startsWith t w) ->
  match_length l s = match_length l t.
Proof.
  induction l as [|a l IH]; intros H; [reflexivity|].
  cbn [match_length]. rewrite (H a (or_introl eq_refl)), IH; [reflexivity|].
  intros w I. apply H. right. exact I.
Qed.

Lemma white_space_nonempty w : In w white_space -> w <> "".
Proof.
  intros H E. subst w. vm_compute in H.
  repeat (destruct H as [H | H]; [discriminate H|]). exact H.
Qed.

(** A white-space character at the head of a text is recognised, with
    its length. *)
Lemma white_space_length_head w s :
  In w white_space -> white_space_length (w ++ s) = String.length w.
Proof.
  intros H. vm_compute in H.
  repeat (destruct H as [<- | H]; [reflexivity|]). contradiction.
Qed.

Lemma white_space_length_found s k :
  white_space_length s = S k ->
  exists w, In w white_space /\ s = w ++ drop (S k) s /\ String.length w = S k.
Proof.
  intros H. destruct (match_length_found _ _ _ H) as (w & I & E & L).
  exists w. repeat split; [exact I | | exact L].
  rewrite <- L. apply startsWith_split, E.
Qed.

Lemma skip_white_space_drop k s :
  skip_white_space k s = trimStart (drop k s).
Proof.
  revert s. induction k as [|k IH]; intros s; [reflexivity|].
  destruct s as [|c s]; [reflexivity|]. cbn [skip_white_space drop]. apply IH.
Qed.

(** The equation of [trimStart]. *)
Lemma trimStart_eq s :
  trimStart s = match white_space_length s with
                | O => s
                | S k => trimStart (drop (S k) s)
                end.
Proof.
  destruct s as [|c s]; [reflexivity|].
  unfold trimStart at 1. cbn [skip_white_space].
  destruct (white_space_length (String c s)); [reflexivity|].
  cbn [drop]. apply skip_white_space_drop.
Qed.

Lemma trimStart_head w s : In w white_space -> trimStart (w ++ s) = trimStart s.
Proof.
  intros H. rewrite trimStart_eq, (white_space_length_head _ _ H).
  pose proof (white_space_nonempty _ H) as N.
  destruct (String.length w) eqn:L; [destruct w; [contradiction | discriminate L]|].
  rewrite <- L, drop_app. reflexivity.
Qed.

Lemma trimStart_blank a s : blank a -> trimStart (a ++ s) = trimStart s.
Proof.
  induction 1 as [|w a I _ IH]; [reflexivity|].
  rewrite append_assoc, (trimStart_head _ _ I). exact IH.
Qed.

Lemma blank_is_blank s : blank s -> is_blank s = true.
Proof.
  intros H. unfold is_blank.
  rewrite <- (append_empty_r s), (trimStart_blank _ "" H). reflexivity.
Qed.

Lemma blank_app a b : blank a -> blank b -> blank (a ++ b).
Proof.
  induction 1 as [|w a I _ IH]; intros B; [exact B|].
  rewrite append_assoc. apply blank_more; auto.
Qed.

Lemma length_drop k s : (String.length (drop k s) <= String.length s)%nat.
Proof.
  revert s. induction k as [|k IH]; intros s; [apply le_n|].
  destruct s as [|c s]; [apply le_n|]. simpl. apply le_S, IH.
Qed.

(** What [trimStart] drops is blank. *)
Lemma trimStart_split s : exists a, blank a /\ s = a ++ trimStart s.
Proof.
  remember (String.length s) as n eqn:L. revert s L.
  induction n as [n IH] using lt_wf_ind. intros s L.
  rewrite trimStart_eq. destruct (white_space_length s) as [|k] eqn:W.
  - exists "". split; [constructor | reflexivity].
  - destruct (white_space_length_found _ _ W) as (w & I & E & Lw).
    destruct (IH (String.length (drop (S k) s))) with (s := drop (S k) s)
      as (a & Ba & Ea); [|reflexivity|].
    + subst n. rewrite E at 2. rewrite length_append, Lw. lia.
    + exists (w ++ a). split; [apply blank_more; assumption|].
      rewrite append_assoc, <- Ea. exact E.
Qed.

Lemma is_blank_blank s : is_blank s = true -> blank s.
Proof.
  unfold is_blank. intros H. destruct (trimStart_split s) as (a & B & E).
  destruct (trimStart s); [|discriminate H].
  rewrite E, append_empty_r. exact B.
Qed.

End WhiteSpaceFacts.

Section TrimFacts.

Implicit Types (s t u b w : string) (c : ascii).

(** A pattern found at the head of [u ++ b] lies within [u], or [b]
    starts with one of its bytes. *)
Lemma startsWith_app_inv w : forall u b,
  startsWith (u ++ b) w = true ->
  startsWith u w = true
  \/ exists c r, b = String c r /\ In c (list_ascii_of_string w).
Proof.
  induction w as [|a w IH]; intros u b H; [left; reflexivity|].
  destruct u as [|c1 u].
  - right. destruct b as [|c r]; [discriminate H|].
    cbn [append startsWith] in H. apply andb_true_iff in H as [Hc _].
    apply Ascii.eqb_eq in Hc. subst a.
    exists c, r. split; [reflexivity | left; reflexivity].
  - cbn [append startsWith] in H. apply andb_true_iff in H as [Hc H].
    destruct (IH u b H) as [L | (c & r & E & I)].
    + left. cbn [startsWith]. rewrite Hc, L. reflexivity.
    + right. exists c, r. split; [exact E | right; exact I].
Qed.

(** The bytes of a white-space character after its first start no
    white-space character. *)
Lemma white_space_inner w a w' c :
  In w white_space -> w = String a w' -> In c (list_ascii_of_string w') ->
  starts_white_space c = false.
Proof.
  intros H. vm_compute in H.
  repeat (destruct H as [<- | H];
          [ intros E; injection E as <- <-; intros I; vm_compute in I;
            repeat (destruct I as [<- | I]; [reflexivity|]); contradiction |]).
  contradiction.
Qed.

Lemma white_space_first w s c r :
  In w white_space -> w ++ s = String c r -> starts_white_space c = true.
Proof.
  intros H. vm_compute in H.
  repeat (destruct H as [<- | H];
          [ intros E; injection E as <- _; reflexivity |]).
  contradiction.
Qed.

Lemma blank_first b c r : blank b -> b = String c r -> starts_white_space c = true.
Proof.
  intros [|w s I _]; [discriminate|]. apply (white_space_first _ _ _ _ I).
Qed.

(** White space that follows a text does not change what the text
    starts with. *)
Lemma white_space_length_app u b :
  u <> "" -> blank b -> white_space_length (u ++ b) = white_space_length u.
Proof.
  intros N B. apply match_length_ext. intros w I.
  destruct u as [|c1 u]; [contradiction|].
  destruct w as [|a w]; [reflexivity|].
  destruct (startsWith (String c1 u) (String a w)) eqn:E.
  - apply startsWith_more, E.
  - destruct (startsWith (String c1 u ++ b) (String a w)) eqn:F; [|reflexivity].
    cbn [append startsWith] in F. apply andb_true_iff in F as [Fc F].
    destruct (startsWith_app_inv _ _ _ F) as [L | (c & r & Eb & Ic)].
    + cbn [startsWith] in E. rewrite Fc, L in E. discriminate E.
    + pose proof (blank_first _ _ _ B Eb) as T.
      rewrite (white_space_inner _ _ _ _ I eq_refl Ic) in T. discriminate T.
Qed.

Lemma drop_app_le k s t :
  (k <= String.length s)%nat -> drop k (s ++ t) = drop k s ++ t.
Proof.
  revert s. induction k as [|k IH]; intros s L; [reflexivity|].
  destruct s as [|c s]; [simpl in L; lia|]. simpl in *. apply IH. lia.
Qed.

Lemma white_space_length_le s : (white_space_length s <= String.length s)%nat.
Proof.
  destruct (white_space_length s) as [|k] eqn:W; [lia|].
  destruct (white_space_length_found _ _ W) as (w & _ & E & L).
  rewrite E, length_append, L. lia.
Qed.

Lemma trimStart_app u b :
  blank b ->
  trimStart (u ++ b) = if is_blank u then "" else trimStart u ++ b.
Proof.
  intros B. remember (String.length u) as n eqn:L. revert u L.
  induction n as [n IH] using lt_wf_ind. intros u L.
  destruct u as [|c u'] eqn:U.
  - pose proof (blank_is_blank _ B) as H. unfold is_blank in H.
    cbn [append]. destruct (trimStart b); [reflexivity | discriminate H].
  - rewrite <- U in *. assert (N : u <> "") by (rewrite U; discriminate).
    unfold is_blank. rewrite (trimStart_eq (u ++ b)), (trimStart_eq u).
    rewrite (white_space_length_app _ _ N B).
    pose proof (white_space_length_le u) as Lk.
    destruct (white_space_length u) as [|k] eqn:W.
    + rewrite U. reflexivity.
    + rewrite (drop_app_le _ _ _ Lk).
      assert (D : (String.length (drop (S k) u) < n)%nat).
      { destruct (white_space_length_found _ _ W) as (w & _ & E & Lw).
        subst n. rewrite E at 2. rewrite length_append, Lw. lia. }
      exact (IH _ D _ eq_refl).
Qed.

Lemma is_blank_app u b : blank b -> is_blank (u ++ b) = is_blank u.
Proof.
  intros B. unfold is_blank at 1. rewrite (trimStart_app _ _ B).
  destruct (is_blank u) eqn:E; [reflexivity|].
  unfold is_blank in E. destruct (trimStart u); [discriminate E | reflexivity].
Qed.

(** White space that follows a text is not seen by [trimEnd]. *)
Lemma trimEnd_app_blank s b : blank b -> trimEnd (s ++ b) = trimEnd s.
Proof.
  intros B. induction s as [|c s IH].
  - cbn [append]. destruct b as [|c r]; [reflexivity|].
    cbn [trimEnd]. rewrite (blank_is_blank _ B). reflexivity.
  - cbn [append trimEnd].
    change (String c (s ++ b)) with (String c s ++ b).
    rewrite (is_blank_app _ _ B), IH. reflexivity.
Qed.

(** [trim] does not see the white space around a text. *)
Lemma trim_around a s b : blank a -> blank b -> trim (a ++ s ++ b) = trim s.
Proof.
  intros A B. unfold trim.
  rewrite (trimStart_blank _ _ A), (trimStart_app _ _ B).
  destruct (is_blank s) eqn:E.
  - unfold is_blank in E. destruct (trimStart s); [reflexivity | discriminate E].
  - apply trimEnd_app_blank, B.
Qed.

(** What [trimEnd] cuts is blank. *)
Lemma trimEnd_split s : exists b, blank b /\ s = trimEnd s ++ b.
Proof.
  induction s as [|c s (b & B & E)].
  - exists "". split; [constructor | reflexivity].
  - cbn [trimEnd]. destruct (is_blank (String c s)) eqn:K.
    + exists (String c s). split; [apply is_blank_blank, K | reflexivity].
    + exists b. split; [exact B|]. cbn [append]. f_equal. exact E.
Qed.

Lemma trimEnd_idempotent s : trimEnd (trimEnd s) = trimEnd s.
Proof.
  destruct (trimEnd_split s) as (b & B & E).
  rewrite E at 2. rewrite (trimEnd_app_blank _ _ B). reflexivity.
Qed.

Lemma trimStart_idempotent s : trimStart (trimStart s) = trimStart s.
Proof.
  remember (String.length s) as n eqn:L. revert s L.
  induction n as [n IH] using lt_wf_ind. intros s L.
  rewrite (trimStart_eq s). destruct (white_space_length s) as [|k] eqn:W.
  - rewrite trimStart_eq, W. reflexivity.
  - apply (IH (String.length (drop (S k) s))); [|reflexivity].
    destruct (white_space_length_found _ _ W) as (w & _ & E & Lw).
    subst n. rewrite E at 2. rewrite length_append, Lw. lia.
Qed.

(** A text that starts with no white space still does so once its
    white-space tail is cut. *)
Lemma trimStart_trimEnd s : trimStart s = s -> trimStart (trimEnd s) = trimEnd s.
Proof.
  intros H. destruct (trimEnd_split s) as (b & B & E).
  destruct (trimEnd s) as [|c t] eqn:T; [reflexivity|].
  assert (N : String c t <> "") by discriminate.
  pose proof (white_space_length_app _ _ N B) as W. rewrite <- E in W.
  rewrite trimStart_eq, <- W.
  destruct (white_space_length s) as [|k] eqn:K; [reflexivity|].
  exfalso.
  destruct (white_space_length_found _ _ K) as (w & _ & Es & Lw).
  pose proof (trimStart_split (drop (S k) s)) as (a & _ & Ea).
  rewrite trimStart_eq, K in H. apply (f_equal String.length) in H, Ea.
  rewrite Es in H at 2. rewrite length_append in H, Ea. lia.
Qed.

Lemma trim_idempotent s : trim (trim s) = trim s.
Proof.
  unfold trim.
  rewrite (trimStart_trimEnd _ (trimStart_idempotent s)).
  apply trimEnd_idempotent.
Qed.

Lemma length_trimStart s : (String.length (trimStart s) <= String.length s)%nat.
Proof.
  destruct (trimStart_split s) as (a & _ & E).
  rewrite E at 2. rewrite length_append. lia.
Qed.

Lemma length_trimEnd s : (String.length (trimEnd s) <= String.length s)%nat.
Proof.
  destruct (trimEnd_split s) as (b & _ & E).
  rewrite E at 2. rewrite length_append. lia.
Qed.

Lemma white_space_length_pos w :
  In w white_space -> (0 < String.length w)%nat.
Proof.
  intros H. pose proof (white_space_nonempty _ H).
  destruct w; [contradiction | simpl; lia].
Qed.

(** A trimmed text neither starts nor ends with a white-space character. *)
Lemma trimmed_ends t w r :
  trim t = t -> In w white_space -> t <> w ++ r /\ t <> r ++ w.
Proof.
  intros T I. pose proof (white_space_length_pos _ I) as Lw.
  assert (S0 : trimStart t = t).
  { destruct (trimStart_split t) as (a & _ & E).
    pose proof (length_trimEnd (trimStart t)) as L1.
    unfold trim in T. rewrite T in L1.
    pose proof (f_equal String.length E) as L2. rewrite length_append in L2.
    destruct a as [|c a]; [symmetry; exact E | simpl in L2; lia]. }
  unfold trim in T. rewrite S0 in T. split; intros E.
  - rewrite E, (trimStart_head _ _ I) in S0.
    pose proof (length_trimStart r) as L. rewrite S0, length_append in L. lia.
  - assert (B : blank w).
    { rewrite <- (append_empty_r w). apply blank_more; [exact I | constructor]. }
    rewrite E, (trimEnd_app_blank _ _ B) in T.
    pose proof (length_trimEnd r) as L. rewrite T, length_append in L. lia.
Qed.

End TrimFacts.

Section SeparatorFacts.

Implicit Types (s t u b w : string) (c : ascii).

Lemma split_first_prefix sep s : exists rest, s = split_first sep s ++ rest.
Proof.
  induction s as [|c s (rest & E)]; [exists ""; reflexivity|].
  cbn [split_first]. destruct (sep (String c s)).
  - exists rest. cbn [append]. f_equal. exact E.
  - exists (String c s). reflexivity.
Qed.

(** No text that [split_first] keeps starts, within the text that was
    split, with a character of the class. *)
Lemma split_first_inv sep s : forall a x,
  split_first sep s = a ++ x -> x <> "" -> exists rest, sep (x ++ rest) = 0%nat.
Proof.
  induction s as [|c s IH]; intros a x E N.
  - destruct a; [symmetry in E; contradiction | discriminate E].
  - pose proof (split_first_prefix sep (String c s)) as (rest & R).
    cbn [split_first] in E, R. destruct (sep (String c s)) eqn:K.
    + destruct a as [|c' a].
      * cbn [append] in E. exists rest. rewrite <- E, <- R. exact K.
      * cbn [append] in E. injection E as _ E. exact (IH _ _ E N).
    + destruct a; [symmetry in E; contradiction | discriminate E].
Qed.

Lemma separator_length_head w r :
  In w separators -> separator_length (w ++ r) <> 0%nat.
Proof.
  intros H. vm_compute in H.
  repeat (destruct H as [<- | H]; [intros E; vm_compute in E; discriminate E|]).
  contradiction.
Qed.

Lemma separators_nonempty w : In w separators -> w <> "".
Proof.
  intros H E. subst w. vm_compute in H.
  repeat (destruct H as [H | H]; [discriminate H|]). exact H.
Qed.

Lemma split_first_free w s : In w separators -> ~ occurs w (split_first separator_length s).
Proof.
  intros I (a & b & E).
  destruct (split_first_inv _ _ _ _ E) as (rest & K).
  - pose proof (separators_nonempty _ I). destruct w; [contradiction | discriminate].
  - rewrite append_assoc in K. exact (separator_length_head _ _ I K).
Qed.

(** What occurs in a trimmed text occurs in the text. *)
Lemma occurs_trim w s : occurs w (trim s) -> occurs w s.
Proof.
  intros (x & y & E). unfold trim in E.
  destruct (trimStart_split s) as (a & _ & Ea).
  destruct (trimEnd_split (trimStart s)) as (b & _ & Eb).
  exists (a ++ x), (y ++ b).
  rewrite Ea, Eb, E, !append_assoc. reflexivity.
Qed.

End SeparatorFacts.

(** The shape of what the extractor returns, for every input and every URL
    parser.  White space is every character that [trim] and the class [\s]
    take for it, in and beyond the ASCII range.  The extractor does not see
    white space around its input, and a blank input yields [null].  A text
    it returns is always trimmed: it neither starts nor ends with a
    white-space character.  Under the [ticket=] rule the text returned is
    never empty and holds none of the separators [&], [#], [?] or white
    space anywhere.  An input that is neither blank, nor a URL, nor carries
    [ticket=] is returned trimmed, never [null]. *)
Theorem extractor_shape :
  forall P raw,
    (forall a b, blank a -> blank b ->
        extractTicketAddressFromInput P (a ++ raw ++ b)
        = extractTicketAddressFromInput P raw)
    /\ (blank raw -> extractTicketAddressFromInput P raw = None)
    /\ (forall t, extractTicketAddressFromInput P raw = Some t ->
          trim t = t
          /\ forall w r, In w white_space -> t <> w ++ r /\ t <> r ++ w)
    /\ (forall t,
           has_http_scheme (trim raw) = false ->
           includes (trim raw) "ticket=" = true ->
           extractTicketAddressFromInput P raw = Some t ->
           t <> "" /\ forall w, In w separators -> ~ occurs w t)
    /\ (is_empty (trim raw) = false ->
        has_http_scheme (trim raw) = false ->
        includes (trim raw) "ticket=" = false ->
        extractTicketAddressFromInput P raw = Some (trim raw)).
Proof.
  intros P raw.
  assert (T : forall t, extractTicketAddressFromInput P raw = Some t -> trim t = t).
  { intros t. unfold extractTicketAddressFromInput. cbv zeta.
    destruct (is_empty (trim raw)); [discriminate|].
    destruct (has_http_scheme (trim raw)).
    - unfold ticket_of_url. destruct (URL_new P (trim raw)) as [url|]; [|discriminate].
      destruct (URLSearchParams_get _ _) as [v|]; [|discriminate].
      destruct (is_empty v); [discriminate|].
      intros [= <-]. apply trim_idempotent.
    - destruct (includes (trim raw) "ticket=").
      + unfold ticket_of_fragment. cbv zeta.
        destruct (is_empty (trim _)); [discriminate|].
        intros [= <-]. apply trim_idempotent.
      + intros [= <-]. apply trim_idempotent. }
  split; [|split; [|split; [|split]]].
  - intros a b A B. unfold extractTicketAddressFromInput. cbv zeta.
    rewrite (trim_around _ _ _ A B). reflexivity.
  - intros B. unfold extractTicketAddressFromInput, trim. cbv zeta.
    pose proof (blank_is_blank _ B) as K. unfold is_blank in K.
    destruct (trimStart raw); [reflexivity | discriminate K].
  - intros t H. split; [exact (T t H)|].
    intros w r I. exact (trimmed_ends _ _ _ (T t H) I).
  - intros t S I. unfold extractTicketAddressFromInput. cbv zeta.
    destruct (is_empty (trim raw)); [discriminate|].
    rewrite S, I. unfold ticket_of_fragment. cbv zeta.
    destruct (is_empty (trim _)) eqn:E; [discriminate|].
    intros [= <-]. split.
    + intros Z. apply (f_equal is_empty) in Z.
      exact (eq_true_false_abs _ Z E).
    + intros w Hw O. exact (split_first_free _ _ Hw (occurs_trim _ _ O)).
  - intros N S I. unfold extractTicketAddressFromInput. cbv zeta.
    rewrite N, S, I. reflexivity.
Qed.

Lemma extractor_shape_witness :
  extractTicketAddressFromInput Reference.solana
    (utf8_encode 160 ++ "abc" ++ utf8_encode 8232)
  = extractTicketAddressFromInput Reference.solana "abc"
  /\ extractTicketAddressFromInput Reference.solana "  ticket= abc  " = None
  /\ extractTicketAddressFromInput Reference.solana
       (utf8_encode 65279 ++ "x y" ++ utf8_encode 160)
     = Some "x y".
Proof.
  assert (B : forall cp, In (utf8_encode cp) white_space ->
                         blank (utf8_encode cp)).
  { intros cp I. rewrite <- (append_empty_r (utf8_encode cp)).
    apply blank_more; [exact I | constructor]. }
  split; [|split].
  - apply (proj1 (extractor_shape Reference.solana "abc")).
    + apply B. vm_compute. tauto.
    + apply B. vm_compute. tauto.
  - reflexivity.
  - refine (eq_trans
              (proj2 (proj2 (proj2 (proj2
                 (extractor_shape Reference.solana
                    (utf8_encode 65279 ++ "x y" ++ utf8_encode 160)))))
                 eq_refl eq_refl eq_refl) _).
    reflexivity.
Defined.

(* ================================================================== *)
(** * Further properties of the deep link *)
(* ================================================================== *)

Lemma parse_effect_without_ticket P w st :
  page_ticket P w = None ->
  snd (fst (parseDeepLink P w st)) = st
  /\ filter (fun c => negb (match c with call_console _ _ => true | _ => false end))
            (snd (parseDeepLink P w st)) = [].
Proof.
  unfold page_ticket, parseDeepLink.
  destruct (window_location_href w) as [href|]; [|split; reflexivity].
  destruct (URL_new P href) as [url|]; [|split; reflexivity].
  destruct (URLSearchParams_get _ _) as [t|]; [|split; reflexivity].
  destruct (is_empty t); [split; reflexivity | discriminate].
Qed.

Lemma parse_effect_with_ticket P w t :
  page_ticket P w = Some t ->
  parseDeepLink P w initial_state
  = (Normal tt,
     {| txStatus := None; mainTab := explore; manageTab := create;
        selectedEvent := None; deepLinkTicket := Some (trim t);
        deepLinkEventPubkey := None |}, []).
Proof.
  unfold page_ticket, parseDeepLink.
  destruct (window_location_href w) as [href|]; [|discriminate].
  destruct (URL_new P href) as [url|]; [|discriminate].
  destruct (URLSearchParams_get _ _) as [t'|]; [|discriminate].
  destruct (is_empty t') eqn:E; [discriminate|].
  intros [= ->]. reflexivity.
Qed.

Lemma fetch_effect_malformed w st prog text :
  program w = Some prog -> deepLinkTicket st = Some text ->
  is_empty text = false -> PublicKey_new text = None ->
  fetchDeepLinkTicket w st
  = (Normal tt,
     {| txStatus := Some "âŒ Invalid or unknown ticket in check-in link";
        mainTab := mainTab st;
        manageTab := manageTab st; selectedEvent := selectedEvent st;
        deepLinkTicket := Some text;
        deepLinkEventPubkey := None |},
     [call_console console_error
        "[checkin] Failed to fetch ticket account for deep link"]).
Proof.
  intros Hp Ht N K. destruct (PublicKey_parse_err _ K) as [e E].
  unfold fetchDeepLinkTicket. run. rewrite Hp, Ht, N, E. cbn. rewrite Ht.
  reflexivity.
Qed.

Lemma fetch_effect_blank w st :
  deepLinkTicket st = Some "" -> fetchDeepLinkTicket w st = (Returned, st, []).
Proof.
  intros Ht. unfold fetchDeepLinkTicket. run. rewrite Ht.
  destruct (program w); reflexivity.
Qed.

Section Inert.

Variable P : Platform.

Lemma mount_inert w :
  page_ticket P w = None ->
  state (mount P w) = initial_state
  /\ filter (fun c => negb (match c with call_console _ _ => true | _ => false end))
            (log (mount P w)) = [].
Proof.
  intros H. destruct (parse_effect_without_ticket P w initial_state H) as [S L].
  unfold mount, run_effect, calls_of. cbn [world state log].
  destruct (parseDeepLink P w initial_state) as [[r st] l].
  cbn [fst snd] in S, L. subst st.
  rewrite (fetch_effect_idle w initial_state (or_intror eq_refl)).
  rewrite (select_effect_idle w initial_state (or_introl eq_refl)).
  cbn [state log snd app deepLinkTicket initial_state was_set].
  rewrite !app_nil_r. split; [reflexivity | exact L].
Qed.

Lemma step_inert c i :
  inert c ->
  inert (step c i) /\ log (step c i) = log c
  /\ selectedEvent (state (step c i))
     = match i with
       | CloseDetails => None
       | SelectEvent e => Some e
       | _ => selectedEvent (state c)
       end.
Proof.
  intros (T & K & S). unfold inert.
  destruct i as [p|evs| |e]; unfold step, fetch_stage, run_effect;
    cbn [world state log].
  - rewrite (fetch_effect_idle (with_program p (world c)) (state c) (or_intror T)).
    cbn [state log]. rewrite app_nil_r. repeat split; assumption.
  - rewrite (select_effect_idle (with_events evs (world c)) (state c) (or_introl K)).
    cbn [state log]. rewrite app_nil_r. repeat split; assumption.
  - cbn. rewrite app_nil_r. repeat split; assumption.
  - cbn. rewrite app_nil_r. repeat split; assumption.
Qed.

Lemma run_inert inputs :
  forall c,
    inert c ->
    inert (run_inputs c inputs)
    /\ log (run_inputs c inputs) = log c
    /\ (forall e,
           selectedEvent (state (run_inputs c inputs)) = Some e ->
           selectedEvent (state c) = Some e \/ In (SelectEvent e) inputs).
Proof.
  induction inputs as [|i inputs IH]; intros c H.
  - cbn. repeat split; try apply H; auto.
  - destruct (step_inert c i H) as (H1 & L1 & S1).
    destruct (IH (step c i) H1) as (H2 & L2 & S2).
    cbn [run_inputs fold_left]. fold (run_inputs (step c i) inputs).
    split; [exact H2|]. split; [congruence|].
    intros e E. destruct (S2 e E) as [E1 | E1]; [|right; right; exact E1].
    rewrite S1 in E1. destruct i; try (left; exact E1); try discriminate E1.
    injection E1 as ->. right. left. reflexivity.
Qed.

End Inert.

(** Without a ticket in the URL the deep link stays asleep.  When the page
    has no URL, a URL the parser refuses, or a URL without a non-empty
    [ticket] parameter, then after the mount and any later inputs (new
    program handles, refreshed events, the user's own selections) the raw
    identifier and the resolved parent are still null and the banner is
    still empty, no effect has called the outside (the log holds at most
    the console warning of the refused URL), and an event is selected only
    if the user selected it. *)
Theorem deep_link_inert_without_ticket :
  forall P w inputs,
    page_ticket P w = None ->
    deepLinkTicket (state (run_inputs (mount P w) inputs)) = None
    /\ deepLinkEventPubkey (state (run_inputs (mount P w) inputs)) = None
    /\ txStatus (state (run_inputs (mount P w) inputs)) = None
    /\ filter (fun c => negb (match c with call_console _ _ => true | _ => false end))
              (log (run_inputs (mount P w) inputs)) = []
    /\ (forall e,
           selectedEvent (state (run_inputs (mount P w) inputs)) = Some e ->
           In (SelectEvent e) inputs).
Proof.
  intros P w inputs H. destruct (mount_inert P w H) as [S L].
  assert (I : inert (mount P w)).
  { unfold inert. rewrite S. repeat split. }
  destruct (run_inert inputs (mount P w) I) as ((T & K & X) & Lg & Sel).
  repeat split; try assumption.
  - rewrite Lg. exact L.
  - intros e E. destruct (Sel e E) as [E0 | E0]; [|exact E0].
    rewrite S in E0. discriminate E0.
Qed.

Lemma deep_link_inert_without_ticket_witness :
  deepLinkTicket
    (state (run_inputs
              (mount Reference.solana
                 (Samples.world_of None (Ok "sig") None []
                    (Some "https://site.xyz/checkin?other=1")))
              [ProgramChanged
                 (Some (Samples.program_serving (Samples.ticket_for Samples.E1 false)));
               EventsChanged [Samples.event1]]))
  = None.
Proof.
  apply (deep_link_inert_without_ticket Reference.solana
           (Samples.world_of None (Ok "sig") None []
              (Some "https://site.xyz/checkin?other=1"))).
  vm_compute. reflexivity.
Defined.

(** A link whose ticket is not usable.  With the backend at hand at load
    time: a ticket parameter that is only white space is captured as the
    empty text and silently ignored, no status being set and nothing
    fetched; a ticket that is not a well-formed address sets "Invalid or
    unknown ticket in check-in link" without any fetch being issued; so
    does a well-formed ticket whose fetch is rejected, after that one
    fetch.  In all three cases the parent stays unresolved, and a later
    refresh of the events neither retries nor selects anything. *)
Theorem deep_link_unusable_ticket :
  forall P w t prog evs,
    page_ticket P w = Some t -> program w = Some prog ->
    (trim t = "" ->
     txStatus (state (mount P w)) = None /\ log (mount P w) = [])
    /\ (trim t <> "" -> PublicKey_new (trim t) = None ->
        txStatus (state (mount P w))
        = Some "âŒ Invalid or unknown ticket in check-in link"
        /\ log (mount P w)
           = [call_console console_error
                "[checkin] Failed to fetch ticket account for deep link"])
    /\ (forall key e,
           PublicKey_new (trim t) = Some key -> ticket_fetch prog key = Err e ->
           txStatus (state (mount P w))
           = Some "âŒ Invalid or unknown ticket in check-in link"
           /\ log (mount P w)
              = [call_ticket_fetch key rejected;
                 call_console console_error
                   "[checkin] Failed to fetch ticket account for deep link"])
    /\ ((trim t = "" \/ PublicKey_new (trim t) = None
         \/ exists key e,
              PublicKey_new (trim t) = Some key /\ ticket_fetch prog key = Err e) ->
        deepLinkEventPubkey (state (mount P w)) = None
        /\ selectedEvent (state (mount P w)) = None
        /\ state (step (mount P w) (EventsChanged evs)) = state (mount P w)
        /\ log (step (mount P w) (EventsChanged evs)) = log (mount P w)).
Proof.
  intros P w t prog evs Ht Hp.
  pose proof (parse_effect_with_ticket P w t Ht) as PE.
  assert (M : forall r st l,
             fetchDeepLinkTicket w
               {| txStatus := None; mainTab := explore; manageTab := create;
                  selectedEvent := None; deepLinkTicket := Some (trim t);
                  deepLinkEventPubkey := None |} = (r, st, l) ->
             deepLinkEventPubkey st = None ->
             state (mount P w) = st /\ log (mount P w) = l).
  { intros r st l F K. unfold mount, fetch_stage, run_effect, calls_of.
    cbn [world state log]. rewrite PE.
    rewrite (fetch_effect_idle w initial_state (or_intror eq_refl)).
    rewrite (select_effect_idle w initial_state (or_introl eq_refl)).
    cbn [state log snd fst app deepLinkTicket initial_state was_set world].
    rewrite F. cbn [deepLinkEventPubkey]. rewrite K. cbn [was_set].
    destruct r; split; reflexivity. }
  assert (A : trim t = "" ->
              state (mount P w)
              = {| txStatus := None; mainTab := explore; manageTab := create;
                   selectedEvent := None; deepLinkTicket := Some (trim t);
                   deepLinkEventPubkey := None |}
              /\ log (mount P w) = []).
  { intros Z. eapply M; [|reflexivity]. apply fetch_effect_blank.
    cbn [deepLinkTicket]. rewrite Z. reflexivity. }
  assert (B : trim t <> "" -> PublicKey_new (trim t) = None ->
              state (mount P w)
              = {| txStatus := Some "âŒ Invalid or unknown ticket in check-in link";
                   mainTab := explore; manageTab := create;
                   selectedEvent := None; deepLinkTicket := Some (trim t);
                   deepLinkEventPubkey := None |}
              /\ log (mount P w)
                 = [call_console console_error
                      "[checkin] Failed to fetch ticket account for deep link"]).
  { intros N K. eapply M; [|reflexivity].
    eapply fetch_effect_malformed;
      [exact Hp | reflexivity | exact (is_empty_false _ N) | exact K]. }
  assert (C : forall key e,
             PublicKey_new (trim t) = Some key -> ticket_fetch prog key = Err e ->
             state (mount P w)
             = {| txStatus := Some "âŒ Invalid or unknown ticket in check-in link";
                  mainTab := explore; manageTab := create;
                  selectedEvent := None; deepLinkTicket := Some (trim t);
                  deepLinkEventPubkey := None |}
             /\ log (mount P w)
                = [call_ticket_fetch key rejected;
                   call_console console_error
                     "[checkin] Failed to fetch ticket account for deep link"]).
  { intros key e K F. eapply M; [|reflexivity].
    eapply fetch_effect_failed; [exact Hp | reflexivity | exact K | exact F]. }
  split; [|split; [|split]].
  - intros Z. destruct (A Z) as [S L]. rewrite S, L. split; reflexivity.
  - intros N K. destruct (B N K) as [S L]. rewrite S, L. split; reflexivity.
  - intros key e K F. destruct (C key e K F) as [S L]. rewrite S, L.
    split; reflexivity.
  - intros H.
    assert (S : deepLinkEventPubkey (state (mount P w)) = None
                /\ selectedEvent (state (mount P w)) = None).
    { destruct H as [Z | [K | (key & e & K & F)]].
      - destruct (A Z) as [S _]. rewrite S. split; reflexivity.
      - destruct (string_dec (trim t) "") as [Z | N].
        + destruct (A Z) as [S _]. rewrite S. split; reflexivity.
        + destruct (B N K) as [S _]. rewrite S. split; reflexivity.
      - destruct (C key e K F) as [S _]. rewrite S. split; reflexivity. }
    destruct S as [S1 S2]. repeat split; try assumption.
    + rewrite (proj1 (events_changed (mount P w) evs)), S1. reflexivity.
    + rewrite (proj2 (events_changed (mount P w) evs)), S1. apply app_nil_r.
Qed.

Lemma deep_link_unusable_ticket_witness :
  txStatus
    (state (mount Reference.solana
              (Samples.world_of None (Ok "sig")
                 (Some (Samples.program_serving (Samples.ticket_for Samples.E1 false)))
                 [] (Some "https://site.xyz/checkin?ticket=not-an-address"))))
  = Some "âŒ Invalid or unknown ticket in check-in link"
  /\ log (mount Reference.solana
            (Samples.world_of None (Ok "sig")
               (Some (Samples.program_serving (Samples.ticket_for Samples.E1 false)))
               [] (Some "https://site.xyz/checkin?ticket=not-an-address")))
     = [call_console console_error
          "[checkin] Failed to fetch ticket account for deep link"].
Proof.
  apply (proj1 (proj2
           (deep_link_unusable_ticket Reference.solana
              (Samples.world_of None (Ok "sig")
                 (Some (Samples.program_serving (Samples.ticket_for Samples.E1 false)))
                 [] (Some "https://site.xyz/checkin?ticket=not-an-address"))
              "not-an-address"
              (Samples.program_serving (Samples.ticket_for Samples.E1 false))
              [] ltac:(vm_compute; reflexivity) eq_refl))).
  - vm_compute. discriminate.
  - vm_compute. reflexivity.
Defined.

(** ** The details panel and the deep link *)

(** The ticket handed to the details panel.  The panel is given the
    deep-linked ticket only while it shows the event that ticket belongs
    to: whenever it receives a ticket, the explore tab is open, an event is
    selected, and the address of that event is the resolved parent of the
    link.  So once a link is resolved and the events bring its event, the
    panel opens on that event with the ticket filled in; when the user then
    picks an event with another address the panel gets [null]; and when the
    user closes the panel nothing is rendered. *)
Theorem details_panel_ticket :
  (forall st t,
      detailsPanel_deepLinkTicket st = Some (Some t) ->
      exists selected,
        mainTab st = explore /\ selectedEvent st = Some selected
        /\ deepLinkTicket st = Some t /\ t <> ""
        /\ deepLinkEventPubkey st = Some (ev_pubkey selected))
  /\ (forall c text eventKey evs found,
        state c = parent_resolved text eventKey -> text <> "" ->
        find_event eventKey evs = Some found ->
        detailsPanel_deepLinkTicket (state (step c (EventsChanged evs)))
        = Some (Some text)
        /\ (forall other,
               ev_pubkey other <> eventKey ->
               detailsPanel_deepLinkTicket
                 (state (run_inputs c [EventsChanged evs; SelectEvent other]))
               = Some None)
        /\ detailsPanel_deepLinkTicket
             (state (run_inputs c [EventsChanged evs; CloseDetails]))
           = None).
Proof.
  split.
  - intros st t. unfold detailsPanel_deepLinkTicket.
    destruct (mainTab st); try discriminate.
    destruct (selectedEvent st) as [selected|]; [|discriminate].
    destruct (deepLinkTicket st) as [text|]; [|discriminate].
    destruct (deepLinkEventPubkey st) as [key|]; [|discriminate].
    destruct (is_empty text) eqn:E; [discriminate|].
    destruct (PublicKey_equals (ev_pubkey selected) key) eqn:Q; [|discriminate].
    intros [= <-]. exists selected. apply N.eqb_eq in Q. subst key.
    repeat split. intros Z. rewrite Z in E. discriminate E.
  - intros c text eventKey evs found S N F.
    destruct (find_event_some _ _ _ F) as [_ Fk].
    assert (S1 : state (step c (EventsChanged evs))
                 = {| txStatus := None; mainTab := explore; manageTab := create;
                      selectedEvent := Some found; deepLinkTicket := Some text;
                      deepLinkEventPubkey := Some eventKey |}).
    { rewrite (proj1 (events_changed c evs)), S.
      cbn [deepLinkEventPubkey parent_resolved]. rewrite F. reflexivity. }
    split; [|split].
    + rewrite S1. unfold detailsPanel_deepLinkTicket.
      cbn [mainTab selectedEvent deepLinkTicket deepLinkEventPubkey].
      rewrite (is_empty_false _ N). unfold PublicKey_equals.
      rewrite Fk, N.eqb_refl. reflexivity.
    + intros other D.
      change (state (run_inputs c [EventsChanged evs; SelectEvent other]))
        with (snd (fst (setSelectedEvent (Some other)
                          (state (step c (EventsChanged evs)))))).
      rewrite S1. unfold detailsPanel_deepLinkTicket. cbn.
      rewrite (is_empty_false _ N). unfold PublicKey_equals.
      apply N.eqb_neq in D. rewrite D. reflexivity.
    + change (state (run_inputs c [EventsChanged evs; CloseDetails]))
        with (snd (fst (setSelectedEvent None
                          (state (step c (EventsChanged evs)))))).
      rewrite S1. reflexivity.
Qed.

Lemma details_panel_ticket_witness :
  detailsPanel_deepLinkTicket
    (state (step
              {| world := Samples.linked_world None;
                 state := parent_resolved Samples.T1_text Samples.E1; log := [] |}
              (EventsChanged [Samples.event2; Samples.event1])))
  = Some (Some Samples.T1_text).
Proof.
  apply (proj1 (proj2 details_panel_ticket
                  {| world := Samples.linked_world None;
                     state := parent_resolved Samples.T1_text Samples.E1;
                     log := [] |}
                  Samples.T1_text Samples.E1 [Samples.event2; Samples.event1]
                  Samples.event1 eq_refl ltac:(discriminate)
                  ltac:(vm_compute; reflexivity))).
Defined.

(** ** Create-event: what is submitted *)

(** What create-event submits.  Whenever create-event invokes the program,
    the invocation is the first call of the handler and carries: the
    identifier built from the clock reading, the big number built from the
    accepted and rounded price, the title and the description as given,
    the wallet as signer, the event address derived from the wallet key and
    that identifier, and the system program.  An empty price field is read
    as ["0"]. *)
Theorem create_event_submission :
  forall P w priceSol title description st,
    (forall eventId price t d signer event sys s,
        In (call_rpc (initEvent eventId price t d signer event sys) s)
           (calls_of (handleCreateEvent P w priceSol title description) st) ->
        exists lamports rest,
          createEvent_priceLamports P priceSol = Ok lamports
          /\ BN_new P (Number_toString P lamports) = Ok price
          /\ BN_new P (Number_toString P (Date_now w)) = Ok eventId
          /\ t = title /\ d = description
          /\ publicKey (wallet w) = Some signer
          /\ event = derive P "event" [PublicKey_toBytes signer; bnToLe8 P eventId]
          /\ sys = SystemProgram_programId P
          /\ calls_of (handleCreateEvent P w priceSol title description) st
             = call_rpc (initEvent eventId price t d signer event sys) s :: rest)
    /\ createEvent_priceLamports P "" = createEvent_priceLamports P "0".
Proof.
  intros P w priceSol title description st. split; [|reflexivity].
  intros eventId price t d signer event sys s.
  unfold handleCreateEvent.
  destruct (program w) as [prog|]; [|intros []].
  destruct (publicKey (wallet w)) as [k|]; [|intros []].
  run. cases; intros H; pick_call H;
    injection H as <- <- <- <- <- <- <- <-;
    eexists; eexists; repeat split; try eassumption; reflexivity.
Qed.

Lemma create_event_submission_witness :
  exists lamports rest,
    createEvent_priceLamports Reference.solana "0,15" = Ok lamports
    /\ calls_of (handleCreateEvent Reference.solana
                   (Samples.organizer_world (Samples.ticket_for Samples.E1 false))
                   "0,15" "Concert" "Live") initial_state
       = call_rpc (initEvent 1700000000000 150000000 "Concert" "Live"
                             Samples.organizer
                             (deriveEventPdaFromSigner Reference.solana
                                Samples.organizer 1700000000000)
                             (SystemProgram_programId Reference.solana))
                  fulfilled :: rest.
Proof.
  destruct (proj1 (create_event_submission Reference.solana
                     (Samples.organizer_world (Samples.ticket_for Samples.E1 false))
                     "0,15" "Concert" "Live" initial_state)
              1700000000000 150000000 "Concert" "Live" Samples.organizer
              (deriveEventPdaFromSigner Reference.solana
                 Samples.organizer 1700000000000)
              (SystemProgram_programId Reference.solana) fulfilled)
    as (lamports & rest & L & _ & _ & _ & _ & _ & _ & _ & C).
  - vm_compute. left. reflexivity.
  - exists lamports, rest. split; assumption.
Defined.
